(** * WikipediaTableScraper: header resolution, column selection and
      numeric cleaning of [app.py]

    The script [app.py] scrapes one HTML table into a list of rows of
    text cells, resolves its header, builds a pandas [DataFrame], drops
    columns, renames duplicated labels, keeps a window of rows and
    coerces the chosen columns to numbers.

    Conventions of the embedding.
    - A Python [str] is a [string]; one [ascii] is one code point below
      256.  On these code points the regular expression class [\d] is
      ['0'..'9'] and [str.strip] removes the twelve code points for which
      [str.isspace] holds.
    - A Python [int] is a [Z].
    - A [float] is an IEEE 754 binary64 number ([spec_float] of the
      standard library at precision 53 and exponent bound 1024), and the
      library code that computes with floats is followed step by step:
      the parser behind [pd.to_numeric], [numpy.round], [repr].
    - A [st.warning] followed by [st.stop] ends the run with [Stop]; a
      Python exception ends it with [Raise]. *)

From Stdlib Require Import Bool Arith ZArith NArith QArith Qabs Qpower Qreduction.
From Stdlib Require Import SpecFloat.
From Stdlib Require Import Lia String Ascii List.
Import ListNotations.

Local Close Scope Q_scope.
Local Open Scope string_scope.
Local Open Scope nat_scope.
Local Open Scope list_scope.

(** ** Outcomes of a run *)

(** The three warnings after which the script calls [st.stop]. *)
Inductive warning : Type :=
| ShapeMismatch
    (* "Table cannot render. Please change the row with the column names." *)
| LabelCountMismatch (entered needed : nat)
    (* "You entered {entered} column names, but {needed} are required." *)
| MissingLabels
    (* "Please provide column names." *).

Inductive exn : Type :=
| IndexError
| KeyError
| ValueError
| TypeError
| AttributeError.

Inductive outcome (A : Type) : Type :=
| Ok (a : A)
| Stop (w : warning)
| Raise (e : exn).

Arguments Ok {A} a.
Arguments Stop {A} w.
Arguments Raise {A} e.

Definition bind {A B : Type} (m : outcome A) (k : A -> outcome B) : outcome B :=
  match m with
  | Ok a => k a
  | Stop w => Stop w
  | Raise e => Raise e
  end.

Notation "x <- m ;; k" := (bind m (fun x => k))
  (at level 61, m at next level, right associativity).

(** ** Python lists and strings *)

Module Py.

Section Lists.
Context {A : Type}.

(** [l[i]]: a negative index counts from the end, an index out of range
    raises [IndexError]. *)
Definition getitem (l : list A) (i : Z) : outcome A :=
  let n := Z.of_nat (length l) in
  let j := if (i <? 0)%Z then (i + n)%Z else i in
  if ((0 <=? j) && (j <? n))%Z
  then match nth_error l (Z.to_nat j) with
       | Some a => Ok a
       | None => Raise IndexError
       end
  else Raise IndexError.

(** A slice bound: a negative bound counts from the end, and every
    bound is clamped to [0 .. len]. *)
Definition clamp (n : nat) (i : Z) : nat :=
  if (i <? 0)%Z then Z.to_nat (Z.max (i + Z.of_nat n) 0)
  else Nat.min (Z.to_nat i) n.

(** [l[start:stop]] *)
Definition slice (l : list A) (start stop : Z) : list A :=
  let a := clamp (length l) start in
  let b := clamp (length l) stop in
  firstn (b - a) (skipn a l).

(** [l[start:]] *)
Definition slice_from (l : list A) (start : Z) : list A :=
  skipn (clamp (length l) start) l.
End Lists.

(** [str.isspace] on the code points below 256. *)
Definition isspace (c : ascii) : bool :=
  let n := nat_of_ascii c in
  ((9 <=? n) && (n <=? 13)) || ((28 <=? n) && (n <=? 32))
  || (n =? 133) || (n =? 160).

Fixpoint lstrip (s : string) : string :=
  match s with
  | EmptyString => EmptyString
  | String c s' => if isspace c then lstrip s' else s
  end.

Fixpoint rstrip (s : string) : string :=
  match s with
  | EmptyString => EmptyString
  | String c s' =>
      match rstrip s' with
      | EmptyString => if isspace c then EmptyString else String c EmptyString
      | t => String c t
      end
  end.

(** [s.strip()] *)
Definition strip (s : string) : string := rstrip (lstrip s).

(** [s.split(sep)] for a one-character separator: never the empty list. *)
Fixpoint split (sep : ascii) (s : string) : list string :=
  match s with
  | EmptyString => [EmptyString]
  | String c s' =>
      if Ascii.eqb c sep then EmptyString :: split sep s'
      else match split sep s' with
           | [] => [String c EmptyString]
           | w :: ws => String c w :: ws
           end
  end.

(** Truth value of a [str]: only the empty string is false. *)
Definition truthy (s : string) : bool :=
  match s with
  | EmptyString => false
  | String _ _ => true
  end.

End Py.

(** ** Step 2 of the script: header resolution *)

Definition row : Type := list string.

(** The [if use_headers:] branch.  [n] is what [st.number_input] returned
    for "Select the row header". *)
Definition resolve_row_header (rows : list row) (n : Z)
  : outcome (list string * list row) :=
  let which_header := (n - 1)%Z in
  headers <- Py.getitem rows which_header ;;
  let rows := Py.slice_from rows (which_header + 1) in
  if forallb (fun row => length headers =? length row) rows
  then Ok (headers, rows)
  else Stop ShapeMismatch.

(** The [else] branch.  [n] is the number of the first row of data and
    [custom_headers] the text typed by the user. *)
Definition resolve_custom_header (rows : list row) (n : Z)
    (custom_headers : string) : outcome (list string * list row) :=
  let which_first_row := (n - 1)%Z in
  first_row <- Py.getitem rows which_first_row ;;
  let count_cols_needed := length first_row in
  if Py.truthy custom_headers then
    let headers := map Py.strip (Py.split "," custom_headers) in
    if negb (length headers =? count_cols_needed)
    then Stop (LabelCountMismatch (length headers) count_cols_needed)
    else Ok (headers, Py.slice_from rows which_first_row)
  else Stop MissingLabels.

Definition resolve_headers (use_headers : bool) (rows : list row) (n : Z)
    (custom_headers : string) : outcome (list string * list row) :=
  if use_headers then resolve_row_header rows n
  else resolve_custom_header rows n custom_headers.

(** ** Numbers *)

(** *** Decimal digits *)

Definition is_digit (c : ascii) : bool :=
  let n := nat_of_ascii c in (48 <=? n) && (n <=? 57).

Definition digit_val (c : ascii) : N := N.of_nat (nat_of_ascii c - 48).

Definition digit_char (d : N) : ascii := ascii_of_nat (48 + N.to_nat d).

(** Value of a string of digits read in base ten, most significant digit
    first, continuing from [acc]. *)
Fixpoint digits_val (acc : N) (s : string) : N :=
  match s with
  | EmptyString => acc
  | String c s' => digits_val (10 * acc + digit_val c)%N s'
  end.

Fixpoint digits_of (fuel : nat) (n : N) (acc : string) : string :=
  match fuel with
  | O => acc
  | S k =>
      let acc' := String (digit_char (n mod 10)%N) acc in
      if (n <? 10)%N then acc' else digits_of k (n / 10)%N acc'
  end.

(** [str(n)] for a natural number: its decimal digits, ["0"] for zero. *)
Definition str_N (n : N) : string := digits_of (S (N.to_nat (N.log2 n))) n "".

(** [str(z)] for an [int]. *)
Definition str_Z (z : Z) : string :=
  match z with
  | Zneg p => String "-" (str_N (Npos p))
  | _ => str_N (Z.to_N z)
  end.

Fixpoint zeros (n : nat) : string :=
  match n with
  | O => ""
  | S k => String "0" (zeros k)
  end.

Fixpoint take (n : nat) (s : string) : string :=
  match n, s with
  | S k, String c s' => String c (take k s')
  | _, _ => ""
  end.

Fixpoint drop (n : nat) (s : string) : string :=
  match n, s with
  | S k, String _ s' => drop k s'
  | _, _ => s
  end.

Definition signed (neg : bool) (m : N) : Z :=
  if neg then (- Z.of_N m)%Z else Z.of_N m.

(** *** Floats *)

(** A [float] is an IEEE 754 binary64 number.  The type and the
    arithmetic are those of the standard library's specification of
    floating-point numbers at precision 53 and exponent bound 1024: a
    product, a sum or a quotient is the exact result rounded to the nearest
    float, ties to even, with infinities and NaN. *)
Definition pyfloat : Type := spec_float.

Definition NaN : pyfloat := S754_nan.

Definition fmul : pyfloat -> pyfloat -> pyfloat := SFmul 53 1024.
Definition fdiv : pyfloat -> pyfloat -> pyfloat := SFdiv 53 1024.
Definition fadd : pyfloat -> pyfloat -> pyfloat := SFadd 53 1024.
Definition fneg : pyfloat -> pyfloat := SFopp.

(** The float nearest to an integer: [float(z)], and a C literal such as
    [1e22]. *)
Definition float_of_Z (z : Z) : pyfloat := binary_normalize 53 1024 z 0 false.

(** The float nearest to [num / den], for [0 < den]: what [float] makes of
    a decimal text.  The quotient is taken with at least 56 bits and one
    more bit that tells whether anything is left. *)
Definition nearest_float (num den : Z) : pyfloat :=
  match num with
  | Z0 => S754_zero false
  | _ =>
      let a := Z.abs num in
      let s := Z.max 0 (56 + Z.log2 den - Z.log2 a) in
      let q := (a * 2 ^ s / den)%Z in
      let r := ((a * 2 ^ s) mod den)%Z in
      let mant := (2 * q + (if r =? 0 then 0 else 1))%Z in
      binary_normalize 53 1024
        (if num <? 0 then - mant else mant)%Z (- s - 1)%Z false
  end.

Definition is_inf (x : pyfloat) : bool :=
  match x with
  | S754_infinity _ => true
  | _ => false
  end.

Definition float_eqb (x y : pyfloat) : bool :=
  match x, y with
  | S754_zero s, S754_zero s' => Bool.eqb s s'
  | S754_infinity s, S754_infinity s' => Bool.eqb s s'
  | S754_nan, S754_nan => true
  | S754_finite s m e, S754_finite s' m' e' =>
      Bool.eqb s s' && Pos.eqb m m' && Z.eqb e e'
  | _, _ => false
  end.

(** The number a finite float stands for (0 for the others). *)
Definition float_Q (x : pyfloat) : Q :=
  match x with
  | S754_finite s m e =>
      (inject_Z (if s then Zneg m else Zpos m) * inject_Z 2 ^ e)%Q
  | _ => 0%Q
  end.

(** [rint]: the nearest integer, ties to even, as a float. *)
Definition rint (x : pyfloat) : pyfloat :=
  match x with
  | S754_finite s m e =>
      if (0 <=? e)%Z then x
      else
        let p := (2 ^ (- e))%Z in
        let q := (Zpos m / p)%Z in
        let r := (Zpos m mod p)%Z in
        let k := match (2 * r ?= p)%Z with
                 | Lt => q
                 | Gt => (q + 1)%Z
                 | Eq => if Z.even q then q else (q + 1)%Z
                 end in
        binary_normalize 53 1024 (if s then - k else k)%Z 0 s
  | _ => x
  end.

(** numpy's [power_of_ten]: a table up to [1e8], and from [1e9] on
    repeated multiplication by 10. *)
Definition power_of_ten (n : N) : pyfloat :=
  if (n <? 9)%N then float_of_Z (10 ^ Z.of_N n)
  else N.iter (n - 9) (fun ret => fmul ret (float_of_Z 10))
         (float_of_Z (10 ^ 9)).

(** [numpy.round(x, decimals)] on a float, for [0 <= decimals]: [rint]
    when [decimals] is 0, and otherwise the product with the power of ten,
    [rint] of it, and the quotient by the power of ten, each step in
    binary64. *)
Definition round_float (decimals : N) (x : pyfloat) : pyfloat :=
  if (decimals =? 0)%N then rint x
  else
    let f := power_of_ten decimals in
    fdiv (rint (fmul x f)) f.

(** *** The text of a float *)

(** Decimal digits with a sign and an exponent:
    [(-1)^neg * mant * 10^exp]. *)
Record dec : Type := Dec { d_neg : bool; d_mant : N; d_exp : Z }.

Fixpoint strip10 (fuel : nat) (m : N) (e : Z) : N * Z :=
  match fuel with
  | O => (m, e)
  | S k =>
      if (m mod 10 =? 0)%N then strip10 k (m / 10)%N (e + 1)%Z else (m, e)
  end.

(** Normal form: no trailing zero in the mantissa, exponent 0 for zero. *)
Definition normal (d : dec) : dec :=
  if (d_mant d =? 0)%N then Dec (d_neg d) 0 0
  else let (m, e) := strip10 (N.to_nat (N.log2 (d_mant d))) (d_mant d) (d_exp d)
       in Dec (d_neg d) m e.

(** The least [k >= k0] with [b <= a * 10^k]. *)
Fixpoint first_scale (fuel : nat) (k : Z) (a b : Z) : Z :=
  match fuel with
  | O => k
  | S f => if (b <=? a * 10 ^ k)%Z then k else first_scale f (k + 1)%Z a b
  end.

(** Where the decimal point of [a / b] falls:
    [10^(decpt-1) <= a / b < 10^decpt]. *)
Definition decpt_of (a b : Z) : Z :=
  if (b <=? a)%Z then Z.of_nat (String.length (str_N (Z.to_N (a / b))))
  else (1 - first_scale 400 1 a b)%Z.

(** The shortest digits that read back as the float [x], whose value is
    [a / b]: with [n] digits, then [n + 1], ..., the two numbers of [n]
    digits around the value are read back; when both give [x] the nearer
    one is taken. *)
Fixpoint shortest_from (fuel : nat) (n : Z) (x : pyfloat) (a b decpt : Z)
    : Z * Z :=
  match fuel with
  | O => (0%Z, 0%Z)
  | S f =>
      let e := (decpt - n)%Z in
      let up := (10 ^ Z.max e 0)%Z in
      let down := (10 ^ Z.max (- e) 0)%Z in
      let lo := (a * down / (b * up))%Z in
      let rem := ((a * down) mod (b * up))%Z in
      let hi := (lo + 1)%Z in
      let reads d := float_eqb (nearest_float (d * up) down) x in
      match reads lo, reads hi with
      | true, true =>
          if (2 * rem <? b * up)%Z then (lo, e)
          else if (b * up <? 2 * rem)%Z then (hi, e)
          else if Z.even lo then (lo, e) else (hi, e)
      | true, false => (lo, e)
      | false, true => (hi, e)
      | false, false => shortest_from f (n + 1)%Z x a b decpt
      end
  end.

(** The digits that [repr] prints for a finite float that is not zero. *)
Definition shortest (x : pyfloat) : dec :=
  match x with
  | S754_finite s m e =>
      let a := (Zpos m * 2 ^ Z.max e 0)%Z in
      let b := (2 ^ Z.max (- e) 0)%Z in
      let (d, e10) := shortest_from 17 1 (S754_finite false m e) a b
                        (decpt_of a b) in
      normal (Dec s (Z.to_N d) e10)
  | _ => Dec false 0 0
  end.

(** [repr] of a float, which is also what [astype(str)] prints: the
    shortest digits, in positional notation when the decimal point falls in
    [-4 < decpt <= 16] and with an exponent of at least two digits
    otherwise. *)
Definition float_repr (x : pyfloat) : string :=
  match x with
  | S754_nan => "nan"
  | S754_infinity s => if s then "-inf" else "inf"
  | S754_zero s => if s then "-0.0" else "0.0"
  | S754_finite _ _ _ =>
      let d := shortest x in
      let sign := if d_neg d then "-" else "" in
      let ds := str_N (d_mant d) in
      let n := String.length ds in
      let decpt := (Z.of_nat n + d_exp d)%Z in
      if ((decpt <=? -4) || (16 <? decpt))%Z then
        let e := (decpt - 1)%Z in
        let frac := drop 1 ds in
        let es := str_N (Z.abs_N e) in
        let es2 := if String.length es <? 2 then String "0" es else es in
        let esign := if (e <? 0)%Z then "-" else "+" in
        (sign ++ take 1 ds
           ++ (if Py.truthy frac then String "." frac else "")
           ++ "e" ++ esign ++ es2)%string
      else if (decpt <=? 0)%Z then
        (sign ++ "0." ++ zeros (Z.to_nat (- decpt)) ++ ds)%string
      else if (Z.of_nat n <=? decpt)%Z then
        (sign ++ ds ++ zeros (Z.to_nat (d_exp d)) ++ ".0")%string
      else
        (sign ++ take (Z.to_nat decpt) ds ++ "."
           ++ drop (Z.to_nat decpt) ds)%string
  end.

(** *** The magnitude guard *)

(** [abs(x) > 10**thresh_err] for a number given exactly. *)
Definition exceeds (thresh_err : Z) (x : Q) : bool :=
  negb (Qle_bool (Qabs x) (inject_Z 10 ^ thresh_err)).

(** [abs(x) > 10**thresh_err] for a float.  Python compares a float with
    the [int] [10**thresh_err] exactly; for a negative [thresh_err] the
    power is itself a float, the one nearest to the power of ten. *)
Definition exceeds_float (thresh_err : Z) (x : pyfloat) : bool :=
  match x with
  | S754_nan => false
  | S754_infinity _ => true
  | _ =>
      if (0 <=? thresh_err)%Z then exceeds thresh_err (float_Q x)
      else negb (Qle_bool (Qabs (float_Q x))
                   (float_Q (nearest_float 1 (10 ^ (- thresh_err)))))
  end.

(** ** Cells, columns and frames *)

(** The Python objects a cell can hold. *)
Inductive pyobj : Type :=
| PyStr (s : string)
| PyNone
| PyInt (z : Z)
| PyFloat (x : pyfloat)
| PdNA.

(** A column with its dtype: [object], [int64]/[uint64] or [float64]. *)
Inductive column : Type :=
| ObjCol (xs : list pyobj)
| IntCol (xs : list Z)
| FloatCol (xs : list pyfloat).

Definition col_objs (c : column) : list pyobj :=
  match c with
  | ObjCol xs => xs
  | IntCol xs => map PyInt xs
  | FloatCol xs => map PyFloat xs
  end.

Definition col_len (c : column) : nat := length (col_objs c).

(** [select_dtypes(include=['number'])] keeps these columns. *)
Definition is_number (c : column) : bool :=
  match c with
  | ObjCol _ => false
  | _ => true
  end.

(** A [DataFrame]: the length of its index and its labelled columns, in
    order; labels may repeat. *)
Record frame : Type := Frame { index_len : nat; columns : list (string * column) }.

Definition labels (f : frame) : list string := map fst (columns f).

Definition count (x : string) (l : list string) : nat :=
  length (filter (String.eqb x) l).

Definition mem (x : string) (l : list string) : bool := existsb (String.eqb x) l.

(** The cells of row [i], one for each column. *)
Definition frame_row (f : frame) (i : nat) : list (option pyobj) :=
  map (fun lc => nth_error (col_objs (snd lc)) i) (columns f).

(** ** Step 2 of the script: building and cropping the frame *)

Definition cell_at (j : nat) (r : row) : pyobj :=
  match nth_error r j with
  | Some s => PyStr s
  | None => PyNone
  end.

(** [pd.DataFrame(rows, columns=headers)] for a list of lists of [str]:
    the data gets as many columns as the longest row, shorter rows are
    filled with [None], and that width must be the number of labels; no
    row at all gives an empty frame with the labels. *)
Definition DataFrame (rows : list row) (headers : list string) : outcome frame :=
  match rows with
  | [] => Ok (Frame 0 (map (fun h => (h, ObjCol [])) headers))
  | _ =>
      let width := fold_right (fun r w => Nat.max (length r) w) 0 rows in
      if width =? length headers
      then Ok (Frame (length rows)
                 (map (fun jh => (snd jh, ObjCol (map (cell_at (fst jh)) rows)))
                    (combine (seq 0 (length headers)) headers)))
      else Raise ValueError
  end.

(** [df.drop(cols_to_remove, axis=1)]: every column with one of the labels
    goes; a label that is no column raises [KeyError]. *)
Definition drop_columns (df : frame) (cols_to_remove : list string) : outcome frame :=
  if forallb (fun c => mem c (labels df)) cols_to_remove
  then Ok (Frame (index_len df)
             (filter (fun lc => negb (mem (fst lc) cols_to_remove)) (columns df)))
  else Raise KeyError.

(** Lines 143-146. *)
Definition select_columns (rows : list row) (headers cols_to_remove : list string)
  : outcome frame :=
  match cols_to_remove with
  | [] => DataFrame rows headers
  | _ => df <- DataFrame rows headers ;; drop_columns df cols_to_remove
  end.

Fixpoint enumerate_from {A : Type} (i : nat) (l : list A) : list (nat * A) :=
  match l with
  | [] => []
  | a :: l' => (i, a) :: enumerate_from (S i) l'
  end.

(** Line 148: the new list of labels. *)
Definition disambiguate (cols : list string) : list string :=
  map (fun ic => let '(i, col) := ic in
                 if 1 <? count col cols
                 then (col ++ "_" ++ str_N (N.of_nat i))%string
                 else col)
      (enumerate_from 0 cols).

(** [df.columns = new_labels] with as many labels as columns. *)
Definition set_labels (df : frame) (new_labels : list string) : frame :=
  Frame (index_len df) (combine new_labels (map snd (columns df))).

Definition rename_duplicates (df : frame) : frame :=
  set_labels df (disambiguate (labels df)).

Definition col_slice (start stop : Z) (c : column) : column :=
  match c with
  | ObjCol xs => ObjCol (Py.slice xs start stop)
  | IntCol xs => IntCol (Py.slice xs start stop)
  | FloatCol xs => FloatCol (Py.slice xs start stop)
  end.

(** [df.iloc[start:stop]] *)
Definition iloc (df : frame) (start stop : Z) : frame :=
  let n := index_len df in
  Frame (Py.clamp n stop - Py.clamp n start)
        (map (fun lc => (fst lc, col_slice start stop (snd lc))) (columns df)).

(** Lines 149-150; [rows_to_keep] is the pair the slider returned. *)
Definition keep_rows (df : frame) (rows_to_keep : Z * Z) : frame :=
  iloc df (fst rows_to_keep - 1) (snd rows_to_keep).

(** ** Step 3 of the script: numeric cleaning *)

(** *** What pandas does to one column *)

(** [str(x)] for the object in a cell. *)
Definition py_str (x : pyobj) : string :=
  match x with
  | PyStr s => s
  | PyNone => "None"
  | PyInt z => str_Z z
  | PyFloat x => float_repr x
  | PdNA => "<NA>"
  end.

(** [series.astype(str)]: the text of every cell. *)
Definition astype_str (c : column) : list string := map py_str (col_objs c).

Fixpoint filter_chars (keep : ascii -> bool) (s : string) : string :=
  match s with
  | EmptyString => EmptyString
  | String c s' =>
      if keep c then String c (filter_chars keep s') else filter_chars keep s'
  end.

(** Characters outside the class [[^\d\.\-]], the ones the replacement
    leaves in place. *)
Definition numeric_char (c : ascii) : bool :=
  is_digit c || Ascii.eqb c "." || Ascii.eqb c "-".

(** [s.replace(r"[^\d\.\-]", "", regex=True)] on one string. *)
Definition strip_non_numeric (s : string) : string := filter_chars numeric_char s.

(** Longest prefix of digits, and what follows it. *)
Fixpoint span_digits (s : string) : string * string :=
  match s with
  | String c s' =>
      if is_digit c
      then let (ds, rest) := span_digits s' in (String c ds, rest)
      else (EmptyString, s)
  | EmptyString => (EmptyString, EmptyString)
  end.

(** A leading ['-'] and the rest. *)
Definition split_sign (s : string) : bool * string :=
  match s with
  | String c t => if Ascii.eqb c "-" then (true, t) else (false, s)
  | EmptyString => (false, s)
  end.

(** *** The number parser behind [pd.to_numeric]

    pandas reads a string with its own [precise_xstrtod]: the digits are
    gathered in a double, at most 17 of them, a further digit of the
    integer part only raises the decimal exponent and a further digit of
    the fraction is dropped; the double is then multiplied or divided by
    the power of ten of its table. *)

Definition max_digits : nat := 17.

(** [number * 10. + digit] *)
Definition push_digit (number : pyfloat) (c : ascii) : pyfloat :=
  fadd (fmul number (float_of_Z 10)) (float_of_Z (Z.of_N (digit_val c))).

(** The digits before the point: the double, the number of digits taken
    and the exponent. *)
Fixpoint int_part (ds : string) (number : pyfloat) (num_digits : nat)
    (exponent : Z) : pyfloat * nat * Z :=
  match ds with
  | EmptyString => (number, num_digits, exponent)
  | String c ds' =>
      if num_digits <? max_digits
      then int_part ds' (push_digit number c) (S num_digits) exponent
      else int_part ds' number num_digits (exponent + 1)%Z
  end.

(** The digits after the point: the double, the number of digits taken
    and the number of decimals among them. *)
Fixpoint frac_part (ds : string) (number : pyfloat) (num_digits : nat)
    (num_decimals : Z) : pyfloat * nat * Z :=
  match ds with
  | EmptyString => (number, num_digits, num_decimals)
  | String c ds' =>
      if num_digits <? max_digits
      then frac_part ds' (push_digit number c) (S num_digits)
             (num_decimals + 1)%Z
      else (number, num_digits, num_decimals)
  end.

(** The table [e[]] of the powers of ten [1e0 .. 1e308]. *)
Definition e_table (k : Z) : pyfloat := float_of_Z (10 ^ k).

(** The scaling by the power of ten; [None] is the error [ERANGE]. *)
Definition scale (number : pyfloat) (exponent : Z) : option pyfloat :=
  if (308 <? exponent)%Z then None
  else
    let r :=
      if (0 <? exponent)%Z then fmul number (e_table exponent)
      else if (exponent <? -308)%Z then
        if (exponent <? -616)%Z then S754_zero false
        else fdiv (fdiv number (e_table (- 308 - exponent))) (e_table 308)
      else fdiv number (e_table (- exponent)) in
    if is_inf r then None else Some r.

Definition finish_number (neg : bool) (number : pyfloat) (num_digits : nat)
    (exponent : Z) (maybe_int : bool) : option (pyfloat * bool) :=
  if num_digits =? 0 then None
  else match scale (if neg then fneg number else number) exponent with
       | Some r => Some (r, maybe_int)
       | None => None
       end.

(** The parser on a string that went through [strip_non_numeric] (so
    without blanks, ['+'] or exponent): an optional ['-'], digits,
    optionally ['.'] and digits, at least one digit in all, nothing left
    over.  The flag is [maybe_int]: no ['.'] was seen. *)
Definition floatify (s : string) : option (pyfloat * bool) :=
  let (neg, s1) := split_sign s in
  let (ip, s2) := span_digits s1 in
  let '(n1, k1, e1) := int_part ip (S754_zero false) 0 0%Z in
  match s2 with
  | EmptyString => finish_number neg n1 k1 e1 true
  | String c s3 =>
      if Ascii.eqb c "." then
        let (fp, s4) := span_digits s3 in
        let '(n2, k2, decimals) := frac_part fp n1 k1 0%Z in
        match s4 with
        | EmptyString => finish_number neg n2 k2 (e1 - decimals)%Z false
        | String _ _ => None
        end
      else None
  end.

(** [int(s)] for an optional ['-'] and digits. *)
Definition int_of_text (s : string) : Z :=
  let (neg, s1) := split_sign s in
  signed neg (digits_val 0 s1).

(** One element as [pd.to_numeric(..., errors='coerce')] reads it: its
    float value and, when it is an integer literal or an [int], its integer
    value; [None] stands for a missing value. *)
Definition convert_elem (x : pyobj) : option (pyfloat * option Z) :=
  match x with
  | PyStr s =>
      match floatify s with
      | Some (y, true) => Some (y, Some (int_of_text s))
      | Some (y, false) => Some (y, None)
      | None => None
      end
  | PyInt z => Some (float_of_Z z, Some z)
  | PyFloat S754_nan => None
  | PyFloat y => Some (y, None)
  | PyNone => None
  | PdNA => None
  end.

Definition elem_float (e : option (pyfloat * option Z)) : pyfloat :=
  match e with
  | Some (y, _) => y
  | None => NaN
  end.

Fixpoint all_ints (es : list (option (pyfloat * option Z))) : option (list Z) :=
  match es with
  | [] => Some []
  | Some (_, Some z) :: es' =>
      match all_ints es' with
      | Some zs => Some (z :: zs)
      | None => None
      end
  | _ => None
  end.

Definition INT64_MIN : Z := (- 2 ^ 63)%Z.
Definition INT64_MAX : Z := (2 ^ 63 - 1)%Z.
Definition UINT64_MAX : Z := (2 ^ 64 - 1)%Z.

(** The integers fit one integer dtype: all within [int64] or all within
    [uint64]. *)
Definition ints_fit (zs : list Z) : bool :=
  forallb (fun z => (INT64_MIN <=? z) && (z <=? UINT64_MAX))%Z zs
  && negb (existsb (fun z => INT64_MAX <? z)%Z zs
           && existsb (fun z => z <? 0)%Z zs).

(** [pd.to_numeric(series, errors='coerce')]: a numeric column comes back
    as it is; an object column becomes [int64]/[uint64] when every element
    is an integer and they fit, and [float64] with [NaN] for what does not
    parse otherwise. *)
Definition to_numeric (c : column) : column :=
  match c with
  | ObjCol xs =>
      let es := map convert_elem xs in
      match all_ints es with
      | Some zs => if ints_fit zs then IntCol zs else FloatCol (map elem_float es)
      | None => FloatCol (map elem_float es)
      end
  | _ => c
  end.

(** [series.round(r_err)]: integers stay, floats are rounded. *)
Definition round_column (r_err : N) (c : column) : column :=
  match c with
  | FloatCol xs => FloatCol (map (round_float r_err) xs)
  | _ => c
  end.

(** The lambda of line 174. *)
Definition guard_obj (thresh_err : Z) (x : pyobj) : pyobj :=
  match x with
  | PyInt z => if exceeds thresh_err (inject_Z z) then PdNA else x
  | PyFloat y => if exceeds_float thresh_err y then PdNA else x
  | _ => x
  end.

(** [series.apply(lambda x: ...)] on a numeric column: the dtype stays when
    no value was replaced, and the column holds objects once [pd.NA] is
    among them. *)
Definition guard_column (thresh_err : Z) (c : column) : column :=
  let ys := map (guard_obj thresh_err) (col_objs c) in
  match c with
  | ObjCol _ => ObjCol ys
  | _ => if existsb (fun y => match y with PdNA => true | _ => false end) ys
         then ObjCol ys else c
  end.

(** *** Selecting and assigning columns by label *)

(** [df[col]] is a Series when one column has the label and a DataFrame
    when several have it. *)
Inductive selection : Type :=
| Series (c : column)
| SubFrame (cs : list (string * column)).

Definition getitem (df : frame) (col : string) : outcome selection :=
  match filter (fun lc => String.eqb (fst lc) col) (columns df) with
  | [] => Raise KeyError
  | [lc] => Ok (Series (snd lc))
  | cs => Ok (SubFrame cs)
  end.

(** [df[col] = series]: replaces the column(s) with that label, or adds a
    last column when there is none. *)
Definition setitem (df : frame) (col : string) (c : column) : frame :=
  if mem col (labels df)
  then Frame (index_len df)
         (map (fun lc => if String.eqb (fst lc) col then (fst lc, c) else lc)
            (columns df))
  else Frame (index_len df) (columns df ++ [(col, c)]).

(** [sel.astype(str).str.replace(...)]: a DataFrame has no [.str]. *)
Definition str_replace (sel : selection) : outcome column :=
  match sel with
  | Series c => Ok (ObjCol (map (fun s => PyStr (strip_non_numeric s)) (astype_str c)))
  | SubFrame _ => Raise AttributeError
  end.

(** [pd.to_numeric(sel, errors='coerce')]: a DataFrame is refused. *)
Definition to_numeric_sel (sel : selection) : outcome column :=
  match sel with
  | Series c => Ok (to_numeric c)
  | SubFrame _ => Raise TypeError
  end.

(** *** The store of frames *)

(** Frames are Python objects reached through references; [df.copy()]
    makes a new one, [df[col] = ...] changes one in place. *)
Definition ref : Type := nat.
Definition store : Type := list frame.

(** A command runs on a store and leaves a store, also when it raises. *)
Definition M (A : Type) : Type := store -> store * outcome A.

Definition ret {A : Type} (a : A) : M A := fun st => (st, Ok a).

Definition raise {A : Type} (e : exn) : M A := fun st => (st, Raise e).

Definition mbind {A B : Type} (m : M A) (k : A -> M B) : M B :=
  fun st =>
    match m st with
    | (st', Ok a) => k a st'
    | (st', Stop w) => (st', Stop w)
    | (st', Raise e) => (st', Raise e)
    end.

Notation "x <~ m ;; k" := (mbind m (fun x => k))
  (at level 61, m at next level, right associativity).

Definition lift {A : Type} (o : outcome A) : M A := fun st => (st, o).

Definition deref (st : store) (r : ref) : frame := nth r st (Frame 0 []).

Definition read (r : ref) : M frame := fun st => (st, Ok (deref st r)).

Fixpoint update (st : store) (r : ref) (f : frame) : store :=
  match st, r with
  | [], _ => []
  | _ :: st', O => f :: st'
  | g :: st', S r' => g :: update st' r' f
  end.

Definition write (r : ref) (f : frame) : M unit := fun st => (update st r f, Ok tt).

(** [df.copy()] *)
Definition copy (r : ref) : M ref := fun st => (st ++ [deref st r], Ok (length st)).

Fixpoint for_each {A : Type} (l : list A) (body : A -> M unit) : M unit :=
  match l with
  | [] => ret tt
  | a :: l' => _ <~ body a ;; for_each l' body
  end.

(** *** [clean_numeric_columns] *)

(** The body of the loop, lines 36-42. *)
Definition clean_column (cleaned_df : ref) (col : string) : M unit :=
  f <~ read cleaned_df ;;
  if mem col (labels f) then
    sel <~ lift (getitem f col) ;;
    c <~ lift (str_replace sel) ;;
    _ <~ write cleaned_df (setitem f col c) ;;
    f <~ read cleaned_df ;;
    sel <~ lift (getitem f col) ;;
    c <~ lift (to_numeric_sel sel) ;;
    write cleaned_df (setitem f col c)
  else ret tt.

Definition clean_numeric_columns (df : ref) (col_names : list string) : M ref :=
  cleaned_df <~ copy df ;;
  _ <~ for_each col_names (clean_column cleaned_df) ;;
  ret cleaned_df.

(** *** Lines 165-177 *)

Definition numeric_labels (f : frame) : list string :=
  map fst (filter (fun lc => is_number (snd lc)) (columns f)).

Fixpoint nodupb (l : list string) : bool :=
  match l with
  | [] => true
  | x :: l' => negb (mem x l') && nodupb l'
  end.

(** Line 170, [df2[numeric_cols] = df2[numeric_cols].round(r_err)]: every
    numeric column is rounded; when two numeric columns share a label the
    selection has more columns than the key and the assignment raises. *)
Definition round_numeric (df2 : ref) (numeric_cols : list string) (r_err : N) : M unit :=
  f <~ read df2 ;;
  if nodupb numeric_cols
  then write df2
         (Frame (index_len f)
            (map (fun lc => if mem (fst lc) numeric_cols
                            then (fst lc, round_column r_err (snd lc)) else lc)
               (columns f)))
  else raise ValueError.

(** Line 174 for one label: the lambda reaches the cells of a Series; on a
    DataFrame it receives whole columns and returns them. *)
Definition guard_label (df2 : ref) (thresh_err : Z) (col : string) : M unit :=
  f <~ read df2 ;;
  sel <~ lift (getitem f col) ;;
  match sel with
  | Series c => write df2 (setitem f col (guard_column thresh_err c))
  | SubFrame _ => ret tt
  end.

Definition clean_step (df : ref) (selected_columns : list string)
    (r_err : N) (thresh_err : Z) : M ref :=
  match selected_columns with
  | [] => ret df
  | _ =>
      df2 <~ clean_numeric_columns df selected_columns ;;
      f <~ read df2 ;;
      let numeric_cols := numeric_labels f in
      _ <~ round_numeric df2 numeric_cols r_err ;;
      _ <~ for_each numeric_cols (guard_label df2 thresh_err) ;;
      ret df2
  end.

(** ** What a cell is worth *)

(** A cell read as the dataset it stands for: a text, a number, an
    infinite float or a missing value. *)
Inductive value : Type :=
| Text (s : string)
| Number (q : Q)
| Infinite (neg : bool)
| Null.

Definition obj_value (x : pyobj) : value :=
  match x with
  | PyStr s => Text s
  | PyInt z => Number (Qred (inject_Z z))
  | PyFloat S754_nan => Null
  | PyFloat (S754_infinity s) => Infinite s
  | PyFloat y => Number (Qred (float_Q y))
  | PyNone => Null
  | PdNA => Null
  end.

Definition col_values (c : column) : list value := map obj_value (col_objs c).


(** The column with label [col], when exactly one has it. *)
Definition column_of (f : frame) (col : string) : option column :=
  match getitem f col with
  | Ok (Series c) => Some c
  | _ => None
  end.

(** The cell of column [col] in row [i]. *)
Definition cell (f : frame) (col : string) (i : nat) : option pyobj :=
  match column_of f col with
  | Some c => nth_error (col_objs c) i
  | None => None
  end.

(** ** Vocabulary of the statements *)

(** The frame built from rows that all have as many cells as there are
    labels. *)
Definition rect_columns (rows : list row) (H : list string) : list (string * column) :=
  map (fun jh => (snd jh, ObjCol (map (cell_at (fst jh)) rows)))
      (combine (seq 0 (length H)) H).

(** The cells of row [r] under the labels [H] that are kept by [p]. *)
Definition kept_cells (p : string -> bool) (H : list string) (r : row) : row :=
  map snd (filter (fun lc => p (fst lc)) (combine H r)).


(** [g] applied to the column(s) labelled [col]. *)
Definition apply_col (g : column -> column) (col : string) (f : frame) : frame :=
  Frame (index_len f)
    (map (fun lc => if String.eqb (fst lc) col then (fst lc, g (snd lc)) else lc)
       (columns f)).

(** What lines 37-42 make of one column. *)
Definition clean_col (c : column) : column :=
  to_numeric (ObjCol (map (fun s => PyStr (strip_non_numeric s)) (astype_str c))).

(** One turn of the loop of [clean_numeric_columns] on the frame itself. *)
Definition clean_frame_column (f : frame) (col : string) : outcome frame :=
  match filter (fun lc => String.eqb (fst lc) col) (columns f) with
  | [] => Ok f
  | [_] => Ok (apply_col clean_col col f)
  | _ => Raise AttributeError
  end.

Fixpoint clean_frame (f : frame) (col_names : list string) : outcome frame :=
  match col_names with
  | [] => Ok f
  | col :: rest => f' <- clean_frame_column f col ;; clean_frame f' rest
  end.

(** Rounding and the magnitude guard on one column, as lines 169-174 do
    for a numeric column whose label no other column has. *)
Definition finish_col (r_err : N) (thresh_err : Z) (c : column) : column :=
  if is_number c then guard_column thresh_err (round_column r_err c) else c.

(** The frame [clean_step] leaves for a frame without repeated labels and a
    selection without repetition. *)
Definition cleaned_frame (selected_columns : list string) (r_err : N)
    (thresh_err : Z) (f : frame) : frame :=
  Frame (index_len f)
    (map (fun lc =>
            (fst lc,
             finish_col r_err thresh_err
               (if mem (fst lc) selected_columns then clean_col (snd lc)
                else snd lc)))
       (columns f)).


(** The float read from a stripped text, [NaN] when it is no number. *)
Definition parse_float (s : string) : pyfloat :=
  elem_float (convert_elem (PyStr s)).

(** Rounding on the object in a cell: an [int] is left as it is. *)
Definition round_obj (r_err : N) (x : pyobj) : pyobj :=
  match x with
  | PyFloat y => PyFloat (round_float r_err y)
  | _ => x
  end.

(** ** Vocabulary of the further properties *)

Fixpoint string_forall (p : ascii -> bool) (s : string) : bool :=
  match s with
  | EmptyString => true
  | String c s' => p c && string_forall p s'
  end.

Fixpoint has_char (c : ascii) (s : string) : bool :=
  match s with
  | EmptyString => false
  | String c' s' => Ascii.eqb c' c || has_char c s'
  end.

(** A command that changes no frame but the one behind [r], and allocates
    none. *)
Definition writes_only {A : Type} (r : ref) (m : M A) : Prop :=
  forall st,
    length (fst (m st)) = length st
    /\ forall r0, r0 <> r -> deref (fst (m st)) r0 = deref st r0.

(** Every column of the frame has one cell for each entry of the index. *)
Definition wf_frame (f : frame) : Prop :=
  Forall (fun lc => col_len (snd lc) = index_len f) (columns f).

(** A column of text cells only. *)
Definition text_column (c : column) : Prop := exists ss, c = ObjCol (map PyStr ss).

(** Lines 143-150: the frame built from the resolved rows and labels, with
    the chosen columns dropped, repeated labels renamed and the window
    [rows_to_keep] of rows kept. *)
Definition build_frame (rows : list row) (headers cols_to_remove : list string)
    (rows_to_keep : Z * Z) : outcome frame :=
  df <- select_columns rows headers cols_to_remove ;;
  Ok (keep_rows (rename_duplicates df) rows_to_keep).

(** Line 129: the labels typed by the user. *)
Definition custom_labels (custom_headers : string) : list string :=
  map Py.strip (Py.split "," custom_headers).

(** How often a character occurs in a string. *)
Definition count_char (c : ascii) (s : string) : nat :=
  length (filter (Ascii.eqb c) (list_ascii_of_string s)).

(** ** The page (lines 80-105) *)

(** The tree that BeautifulSoup builds from the page: a tag with its name,
    the tokens of its class attribute and its children; a string of the
    text; and a string of another kind (a comment, for instance), which
    get_text leaves out. *)
#[local] Set Warnings "-register-all".
Inductive node : Type :=
| NavigableString (s : string)
| OtherString (s : string)
| Tag (name : string) (classes : list string) (children : list node).

Definition children (n : node) : list node :=
  match n with
  | Tag _ _ ch => ch
  | _ => []
  end.

(** [.descendants]: everything below a node, in document order. *)
Fixpoint descendants (n : node) : list node :=
  match n with
  | Tag _ _ ch =>
      (fix over (l : list node) : list node :=
         match l with
         | [] => []
         | c :: l' => c :: descendants c ++ over l'
         end) ch
  | _ => []
  end.

Definition has_name (names : list string) (n : node) : bool :=
  match n with
  | Tag name _ _ => mem name names
  | _ => false
  end.

(** [n.find_all(names)]: the tags below [n] with one of the names. *)
Definition find_all (names : list string) (n : node) : list node :=
  filter (has_name names) (descendants n).

(** [n.find_all(name, class_=cls)]. *)
Definition find_all_class (name cls : string) (n : node) : list node :=
  filter (fun d => match d with
                   | Tag nm cs _ => String.eqb nm name && mem cls cs
                   | _ => false
                   end)
         (descendants n).

(** The strings of the text among some nodes. *)
Definition text_strings (l : list node) : list string :=
  flat_map (fun d => match d with NavigableString s => [s] | _ => [] end) l.

(** [cell.get_text(strip=True)]: the strings of the text below the cell,
    each one stripped, the empty ones left out, joined with nothing between
    them. *)
Definition get_text_strip (n : node) : string :=
  String.concat ""
    (filter Py.truthy (map Py.strip (text_strings (descendants n)))).

(** Lines 101-105. *)
Definition table_rows (toi : node) : list row :=
  map (fun tr => map get_text_strip (find_all ["td"; "th"] tr))
      (find_all ["tr"] toi).

(** Lines 80-105: the page stops with the warning of line 85 when it has no
    table of the class; otherwise the chosen table gives its rows, or
    [tables[idx]] raises. *)
Inductive page_result : Type :=
| NoWikitable
| Chosen (rows : outcome (list row)).

Definition page_rows (soup : node) (number : Z) : page_result :=
  let tables := find_all_class "table" "wikitable" soup in
  if (length tables =? 0)%nat then NoWikitable
  else
    let idx := (number - 1)%Z in
    Chosen (toi <- Py.getitem tables idx ;; Ok (table_rows toi)).

(** The names that make the grid of a table. *)
Definition grid : list string := ["tr"; "td"; "th"].

(** A node with no row and no cell in it or below it. *)
Definition gridless (n : node) : bool :=
  forallb (fun d => negb (has_name grid d)) (n :: descendants n).

(** A cell with no row and no cell below it. *)
Definition plain_cell (n : node) : bool :=
  has_name ["td"; "th"] n
  && forallb (fun d => negb (has_name grid d)) (descendants n).

(** A row whose children are such cells, and strings or tags without
    rows and cells. *)
Definition plain_row (n : node) : bool :=
  has_name ["tr"] n
  && forallb (fun c => plain_cell c || gridless c) (children n).

(** A child of the table that is no row: a section (tbody, thead, tfoot)
    of such rows, or a string or a tag (a caption) without rows. *)
Definition plain_section (n : node) : bool :=
  negb (has_name grid n)
  && forallb (fun r => plain_row r || gridless r) (children n).

(** A table without nesting. *)
Definition plain_table (n : node) : bool :=
  forallb (fun c => plain_row c || plain_section c) (children n).

(** The rows of a table without nesting: its own, and those of its
    sections. *)
Definition direct_rows (toi : node) : list node :=
  flat_map (fun c => if has_name ["tr"] c then [c]
                     else filter (has_name ["tr"]) (children c))
           (children toi).

Definition direct_cells (tr : node) : list node :=
  filter (has_name ["td"; "th"]) (children tr).

(** A string with no white space at its two ends. *)
Definition trimmed (s : string) : Prop :=
  Py.lstrip s = s /\ Py.rstrip s = s.

(** The text of a decimal literal: an optional ['-'], digits, optionally a
    point and digits. *)
Definition literal_text (neg point : bool) (ip fp : string) : string :=
  ((if neg then "-" else "") ++ ip
   ++ (if point then String "." fp else ""))%string.

(** [t] is the decimal literal with these parts; there is at least one
    digit in all. *)
Definition is_literal (t : string) (neg point : bool) (ip fp : string) : Prop :=
  t = literal_text neg point ip fp
  /\ string_forall is_digit ip = true
  /\ string_forall is_digit fp = true
  /\ (ip ++ fp)%string <> ""
  /\ (point = false -> fp = "").

Definition decimal_literal (t : string) : Prop :=
  exists (neg point : bool) (ip fp : string), is_literal t neg point ip fp.

(** The float of a decimal literal with few digits: the integer that its
    digits spell, with its sign, divided in binary64 by the power of ten of
    its decimals. *)
Definition literal_float (neg : bool) (ip fp : string) : pyfloat :=
  let m := float_of_Z (Z.of_N (digits_val 0 (ip ++ fp))) in
  SFdiv 53 1024 (if neg then SFopp m else m)
    (float_of_Z (10 ^ Z.of_nat (String.length fp))).

(** The float that holds the integer [z], for [0 < z < 2^53]: a mantissa
    of 53 bits and its exponent. *)
Definition fl_m (z : Z) : positive := Z.to_pos (z * 2 ^ (52 - Z.log2 z)).
Definition fl_e (z : Z) : Z := (Z.log2 z - 52)%Z.
Definition fl (z : Z) : pyfloat := S754_finite false (fl_m z) (fl_e z).

(** The characters that the stripping of line 40 keeps. *)
Definition kept_char (c : ascii) : bool :=
  existsb (Ascii.eqb c) (list_ascii_of_string "0123456789.-").






(** * Properties *)

(** ** Python lists *)

Lemma getitem_in_range (A : Type) (l : list A) (i : Z) (d : A) :
  (0 <= i < Z.of_nat (length l))%Z ->
  Py.getitem l i = Ok (nth (Z.to_nat i) l d).
Proof.
  intros Hi. unfold Py.getitem.
  replace (i <? 0)%Z with false by (symmetry; apply Z.ltb_ge; lia).
  replace (0 <=? i)%Z with true by (symmetry; apply Z.leb_le; lia).
  replace (i <? Z.of_nat (length l))%Z with true by (symmetry; apply Z.ltb_lt; lia).
  simpl. destruct (nth_error l (Z.to_nat i)) as [a|] eqn:E.
  - now rewrite (nth_error_nth _ _ d E).
  - apply nth_error_None in E. lia.
Qed.

Lemma clamp_in_range (n : nat) (i : Z) :
  (0 <= i <= Z.of_nat n)%Z -> Py.clamp n i = Z.to_nat i.
Proof.
  intros Hi. unfold Py.clamp.
  replace (i <? 0)%Z with false by (symmetry; apply Z.ltb_ge; lia). lia.
Qed.

Lemma slice_from_in_range (A : Type) (l : list A) (i : Z) :
  (0 <= i <= Z.of_nat (length l))%Z ->
  Py.slice_from l i = skipn (Z.to_nat i) l.
Proof. intros Hi. unfold Py.slice_from. now rewrite clamp_in_range. Qed.

Lemma slice_in_range (A : Type) (l : list A) (a b : Z) :
  (0 <= a <= b)%Z -> (b <= Z.of_nat (length l))%Z ->
  Py.slice l a b = firstn (Z.to_nat b - Z.to_nat a) (skipn (Z.to_nat a) l).
Proof.
  intros Ha Hb. unfold Py.slice. rewrite !clamp_in_range by lia. reflexivity.
Qed.

Lemma forallb_length_eq (n : nat) (rows : list row) :
  forallb (fun r => n =? length r) rows = true <->
  Forall (fun r => length r = n) rows.
Proof.
  rewrite forallb_forall, Forall_forall. split; intros H r Hr.
  - symmetry. apply Nat.eqb_eq. now apply H.
  - apply Nat.eqb_eq. symmetry. now apply H.
Qed.

(** ** Header resolution *)

(** C1. Row-as-header resolution with an in-range 1-based header index
    [h]: when some row after the header row has another length than the
    header row the run stops with ShapeMismatch and yields no dataset;
    otherwise it yields the header row [R[h-1]] as labels and the rows
    [R[h:]] as body, and the body has [|R| - h] rows. *)
Theorem row_header_resolution (R : list row) (h : Z) :
  (1 <= h <= Z.of_nat (length R))%Z ->
  let header := nth (Z.to_nat (h - 1)) R [] in
  let body := skipn (Z.to_nat h) R in
  (Exists (fun r => length r <> length header) body ->
   resolve_row_header R h = Stop ShapeMismatch)
  /\ (Forall (fun r => length r = length header) body ->
      resolve_row_header R h = Ok (header, body)
      /\ length body = length R - Z.to_nat h).
Proof.
  intros Hh header body. unfold resolve_row_header.
  rewrite (getitem_in_range _ R _ []) by lia. simpl bind.
  rewrite slice_from_in_range by lia.
  replace (h - 1 + 1)%Z with h by lia. fold header. fold body.
  split.
  - intros Hex.
    destruct (forallb (fun r => length header =? length r) body) eqn:E;
      [|reflexivity].
    apply forallb_length_eq in E. apply Exists_exists in Hex.
    destruct Hex as (r & Hr & Hne). rewrite Forall_forall in E.
    now specialize (E r Hr).
  - intros Hall. apply forallb_length_eq in Hall. rewrite Hall.
    split; [reflexivity|]. unfold body. apply length_skipn.
Qed.

Lemma row_header_resolution_witness :
  resolve_row_header [["k"; "v"]; ["a"; "1"]; ["b"; "2"]] 1
  = Ok (["k"; "v"], [["a"; "1"]; ["b"; "2"]]).
Proof.
  refine (proj1 (proj2 (row_header_resolution
            [["k"; "v"]; ["a"; "1"]; ["b"; "2"]] 1 _) _)).
  - simpl. lia.
  - simpl. repeat constructor.
Defined.

(** C2, as the claim has it, fails for the empty label string: its one
    (empty) label matches a one-column row, and still the run stops. *)
Lemma custom_header_empty_text_counterexample :
  ~ ((exists d, resolve_custom_header [["x"]] 1 "" = Ok d)
     <-> length (Py.split "," "") = length (nth 0 [["x"]] [])).
Proof.
  intros [_ H]. destruct (H eq_refl) as [d Hd]. discriminate Hd.
Qed.

(** C2. Custom-header resolution with an in-range 1-based first-data-row
    index [f]: an empty label string stops the run with MissingLabels; a
    non-empty one succeeds exactly when its number of comma-separated
    labels is the length of [R[f-1]], then with the stripped labels as
    header and [R[f-1:]] as body, and otherwise stops with
    LabelCountMismatch carrying both counts. *)
Theorem custom_header_resolution (R : list row) (f : Z) (L : string) :
  (1 <= f <= Z.of_nat (length R))%Z ->
  let first := nth (Z.to_nat (f - 1)) R [] in
  let n := length (Py.split "," L) in
  (L = "" -> resolve_custom_header R f L = Stop MissingLabels)
  /\ (L <> "" ->
      ((exists d, resolve_custom_header R f L = Ok d) <-> n = length first)
      /\ (n = length first ->
          resolve_custom_header R f L
          = Ok (map Py.strip (Py.split "," L), skipn (Z.to_nat (f - 1)) R))
      /\ (n <> length first ->
          resolve_custom_header R f L
          = Stop (LabelCountMismatch n (length first)))).
Proof.
  intros Hf first n. unfold resolve_custom_header.
  rewrite (getitem_in_range _ R _ []) by lia. simpl bind.
  rewrite slice_from_in_range by lia. fold first.
  split.
  - intros ->. reflexivity.
  - intros HL. destruct L as [|c L']; [congruence|]. cbn [Py.truthy].
    rewrite length_map. fold n.
    destruct (Nat.eqb_spec n (length first)) as [E|E]; simpl negb; cbv iota.
    + split; [|split]; try tauto. split; [tauto|]. intros _. eexists. reflexivity.
    + split; [|split]; try tauto. split; [|tauto].
      intros [d Hd]. discriminate Hd.
Qed.

Lemma custom_header_resolution_witness :
  resolve_custom_header [["x"; "1"]; ["y"; "2"]] 1 "name , n"
  = Ok (["name"; "n"], [["x"; "1"]; ["y"; "2"]]).
Proof.
  refine (proj1 (proj2 (proj2 (custom_header_resolution
            [["x"; "1"]; ["y"; "2"]] 1 "name , n" _) _)) _).
  - simpl. lia.
  - discriminate.
  - reflexivity.
Defined.

(** ** Column selection *)

Lemma mem_In (x : string) (l : list string) : mem x l = true <-> In x l.
Proof.
  unfold mem. rewrite existsb_exists. split.
  - intros (y & Hy & E). apply String.eqb_eq in E. now subst.
  - intros H. exists x. split; [assumption | apply String.eqb_refl].
Qed.

Lemma mem_in_dec (x : string) (l : list string) :
  mem x l = if in_dec string_dec x l then true else false.
Proof.
  destruct (in_dec string_dec x l) as [H|H].
  - now apply mem_In.
  - destruct (mem x l) eqn:E; [|reflexivity]. apply mem_In in E. contradiction.
Qed.

Lemma count_count_occ (x : string) (l : list string) :
  count x l = count_occ string_dec l x.
Proof.
  unfold count. induction l as [|y l IH]; [reflexivity|]. simpl.
  destruct (string_dec y x) as [->|Hne].
  - rewrite String.eqb_refl. simpl. now rewrite IH.
  - destruct (String.eqb_spec x y) as [->|_]; [congruence | exact IH].
Qed.

Lemma map_fst_combine (A B : Type) (l : list A) (l' : list B) :
  length l = length l' -> map fst (combine l l') = l.
Proof.
  revert l'. induction l as [|a l IH]; intros [|b l'] H; simpl in *;
    try discriminate; [reflexivity|]. f_equal. apply IH. lia.
Qed.

Lemma map_snd_combine (A B : Type) (l : list A) (l' : list B) :
  length l = length l' -> map snd (combine l l') = l'.
Proof.
  revert l'. induction l as [|a l IH]; intros [|b l'] H; simpl in *;
    try discriminate; [reflexivity|]. f_equal. apply IH. lia.
Qed.

Lemma nth_error_enumerate_from (A : Type) (l : list A) (k i : nat) :
  nth_error (enumerate_from k l) i
  = option_map (fun a => (k + i, a)) (nth_error l i).
Proof.
  revert k i. induction l as [|a l IH]; intros k [|i]; simpl;
    try reflexivity.
  - now rewrite Nat.add_0_r.
  - rewrite IH. now rewrite Nat.add_succ_r.
Qed.

Lemma length_enumerate_from (A : Type) (l : list A) (k : nat) :
  length (enumerate_from k l) = length l.
Proof. revert k. induction l; intros k; simpl; [|rewrite IHl]; reflexivity. Qed.

Lemma length_disambiguate (cols : list string) :
  length (disambiguate cols) = length cols.
Proof. unfold disambiguate. now rewrite length_map, length_enumerate_from. Qed.

Lemma labels_rename_duplicates (df : frame) :
  labels (rename_duplicates df) = disambiguate (labels df).
Proof.
  unfold rename_duplicates, set_labels, labels at 1. simpl.
  apply map_fst_combine.
  rewrite length_disambiguate. unfold labels. now rewrite !length_map.
Qed.

(** C6. After line 148 the frame has as many labels as before and the
    same columns; a label that occurs more than once among the labels is
    replaced, at each of its positions [i] (counted from 0, the first
    occurrence included), by the label, an underscore and [i] in decimal; a
    label that occurs once stays.  So [A, A, B] becomes [A_0, A_1, B] and
    [A, B] stays. *)
Theorem duplicate_label_disambiguation (df : frame) :
  let H := labels df in
  let H' := labels (rename_duplicates df) in
  length H' = length H
  /\ map snd (columns (rename_duplicates df)) = map snd (columns df)
  /\ (forall i l, nth_error H i = Some l ->
        (1 < count_occ string_dec H l ->
         nth_error H' i = Some (l ++ "_" ++ str_N (N.of_nat i))%string)
        /\ (count_occ string_dec H l = 1 -> nth_error H' i = Some l))
  /\ disambiguate ["A"; "A"; "B"] = ["A_0"; "A_1"; "B"]
  /\ disambiguate ["A"; "B"] = ["A"; "B"].
Proof.
  intros H H'. unfold H'. rewrite labels_rename_duplicates. fold H.
  split; [apply length_disambiguate|].
  split.
  { unfold rename_duplicates, set_labels. simpl. apply map_snd_combine.
    rewrite length_disambiguate. unfold labels. now rewrite !length_map. }
  split; [|split; reflexivity].
  intros i l Hl. unfold disambiguate.
  rewrite nth_error_map, nth_error_enumerate_from, Hl. simpl.
  rewrite count_count_occ. split; intros Hc.
  - now replace (1 <? count_occ string_dec H l) with true
      by (symmetry; apply Nat.ltb_lt; lia).
  - now rewrite Hc.
Qed.

Lemma max_width_rect (n : nat) (r : row) (rows : list row) :
  Forall (fun r => length r = n) (r :: rows) ->
  fold_right (fun r w => Nat.max (length r) w) 0 (r :: rows) = n.
Proof.
  revert r. induction rows as [|r' rows IH]; intros r H; simpl.
  - inversion H; subst. lia.
  - inversion H as [|? ? Hr Hrest]; subst. specialize (IH r' Hrest).
    simpl in IH. rewrite IH. inversion Hrest; subst. lia.
Qed.

Lemma map_combine_seq_snd (A B : Type) (g : A -> B) (l : list A) (k : nat) :
  map (fun jh : nat * A => g (snd jh)) (combine (seq k (length l)) l) = map g l.
Proof.
  revert k. induction l as [|a l IH]; intros k; simpl; [reflexivity|].
  f_equal. apply IH.
Qed.

Lemma DataFrame_rect (rows : list row) (H : list string) :
  Forall (fun r => length r = length H) rows ->
  DataFrame rows H = Ok (Frame (length rows) (rect_columns rows H)).
Proof.
  intros Hr. destruct rows as [|r rows].
  - simpl. unfold rect_columns. simpl.
    now rewrite (map_combine_seq_snd _ _ (fun h => (h, ObjCol [])) H 0).
  - unfold DataFrame. rewrite (max_width_rect (length H) r rows Hr), Nat.eqb_refl. reflexivity.
Qed.

Lemma labels_rect (n : nat) (rows : list row) (H : list string) :
  labels (Frame n (rect_columns rows H)) = H.
Proof.
  unfold labels, rect_columns. simpl. rewrite map_map. simpl.
  rewrite (map_combine_seq_snd _ _ (fun h => h) H 0). apply map_id.
Qed.

Lemma map_fst_filter (A B : Type) (p : A -> bool) (l : list (A * B)) :
  map fst (filter (fun x => p (fst x)) l) = filter p (map fst l).
Proof.
  induction l as [|[a b] l IH]; simpl; [reflexivity|].
  destruct (p a); simpl; now rewrite IH.
Qed.

Lemma row_of_filtered_columns (p : string -> bool) (rows : list row) (i : nat)
    (r : row) (H : list string) (pre : row) :
  nth_error rows i = Some (pre ++ r) ->
  length r = length H ->
  map (fun lc : string * column => nth_error (col_objs (snd lc)) i)
    (filter (fun lc => p (fst lc))
       (map (fun jh => (snd jh, ObjCol (map (cell_at (fst jh)) rows)))
          (combine (seq (length pre) (length H)) H)))
  = map (fun s => Some (PyStr s)) (kept_cells p H r).
Proof.
  intros Hi. revert r pre Hi.
  induction H as [|h H IH]; intros r pre Hi Hlen; [reflexivity|].
  destruct r as [|s r]; [discriminate|]. simpl in Hlen.
  assert (Hnext :
    map (fun lc : string * column => nth_error (col_objs (snd lc)) i)
      (filter (fun lc => p (fst lc))
         (map (fun jh => (snd jh, ObjCol (map (cell_at (fst jh)) rows)))
            (combine (seq (S (length pre)) (length H)) H)))
    = map (fun s => Some (PyStr s)) (kept_cells p H r)).
  { specialize (IH r (pre ++ [s])). rewrite length_app in IH. simpl in IH.
    rewrite Nat.add_1_r in IH. apply IH; [|lia].
    now rewrite <- app_assoc. }
  unfold kept_cells in *. simpl. destruct (p h); simpl; [|exact Hnext].
  f_equal; [|exact Hnext].
  rewrite nth_error_map, Hi. simpl. unfold cell_at.
  rewrite nth_error_app2 by lia. now rewrite Nat.sub_diag.
Qed.

Lemma filter_true (A : Type) (p : A -> bool) (l : list A) :
  (forall x, p x = true) -> filter p l = l.
Proof.
  intros Hp. induction l as [|x l IH]; simpl; [reflexivity|].
  now rewrite Hp, IH.
Qed.

Lemma kept_cells_all (p : string -> bool) (H : list string) (r : row) :
  (forall l, p l = true) -> length r = length H -> kept_cells p H r = r.
Proof.
  intros Hp Hlen. unfold kept_cells. rewrite filter_true by (intros; apply Hp).
  now apply map_snd_combine.
Qed.

Lemma select_columns_rect (rows : list row) (H D : list string) :
  Forall (fun r => length r = length H) rows ->
  (forall d, In d D -> In d H) ->
  select_columns rows H D
  = Ok (Frame (length rows)
          (filter (fun lc => negb (mem (fst lc) D)) (rect_columns rows H))).
Proof.
  intros Hrect HD. destruct D as [|d D].
  - simpl. rewrite (DataFrame_rect rows H Hrect).
    now rewrite filter_true by reflexivity.
  - unfold select_columns. rewrite (DataFrame_rect rows H Hrect). simpl bind.
    unfold drop_columns. rewrite labels_rect.
    replace (forallb (fun c => mem c H) (d :: D)) with true; [reflexivity|].
    symmetry. apply forallb_forall. intros x Hx. apply mem_In. now apply HD.
Qed.

(** C7. On a dataset whose rows all have one cell for each label of [H],
    dropping the labels [D] (chosen among [H]) gives a frame whose labels
    are those of [H] that are not in [D], in the order of [H], with every
    row keeping the cells at the positions of these labels; with no label
    to drop the labels are [H] and every row is kept whole. *)
Theorem column_dropping (rows : list row) (H D : list string) :
  Forall (fun r => length r = length H) rows ->
  (forall d, In d D -> In d H) ->
  let keep := fun l => if in_dec string_dec l D then false else true in
  exists df,
    select_columns rows H D = Ok df
    /\ labels df = filter keep H
    /\ index_len df = length rows
    /\ (forall i r, nth_error rows i = Some r ->
          frame_row df i = map (fun s => Some (PyStr s)) (kept_cells keep H r))
    /\ (D = [] ->
        labels df = H
        /\ forall i r, nth_error rows i = Some r ->
             frame_row df i = map (fun s => Some (PyStr s)) r).
Proof.
  intros Hrect HD keep.
  assert (Hkeep : forall l, negb (mem l D) = keep l).
  { intros l. unfold keep. rewrite mem_in_dec. now destruct (in_dec string_dec l D). }
  assert (Hlen : forall i r, nth_error rows i = Some r -> length r = length H).
  { intros i r Hi. rewrite Forall_forall in Hrect. apply Hrect.
    eapply nth_error_In, Hi. }
  eexists. split; [apply (select_columns_rect rows H D Hrect HD)|].
  assert (Hlab : labels (Frame (length rows)
                   (filter (fun lc => negb (mem (fst lc) D)) (rect_columns rows H)))
                 = filter keep H).
  { unfold labels. simpl columns.
    rewrite (map_fst_filter _ _ (fun l => negb (mem l D))).
    change (map fst (rect_columns rows H))
      with (labels (Frame (length rows) (rect_columns rows H))).
    rewrite labels_rect. apply filter_ext. exact Hkeep. }
  assert (Hrow : forall i r, nth_error rows i = Some r ->
            frame_row (Frame (length rows)
                (filter (fun lc => negb (mem (fst lc) D)) (rect_columns rows H))) i
            = map (fun s => Some (PyStr s)) (kept_cells keep H r)).
  { intros i r Hi. unfold frame_row. simpl columns.
    pose proof (row_of_filtered_columns (fun l => negb (mem l D)) rows i r H []
                  Hi (Hlen i r Hi)) as Hrc.
    simpl length in Hrc. unfold rect_columns. rewrite Hrc.
    f_equal. unfold kept_cells. f_equal. apply filter_ext.
    intros [l c]. apply Hkeep. }
  split; [exact Hlab|]. split; [reflexivity|]. split; [exact Hrow|].
  intros ED. split.
  - rewrite Hlab. apply filter_true. intros l. unfold keep. subst D.
    now destruct (in_dec string_dec l []).
  - intros i r Hi. rewrite (Hrow i r Hi). f_equal. apply kept_cells_all.
    + intros l. unfold keep. subst D. now destruct (in_dec string_dec l []).
    + exact (Hlen i r Hi).
Qed.

Lemma column_dropping_witness :
  exists df,
    select_columns [["a"; "1"; "x"]; ["b"; "2"; "y"]] ["k"; "v"; "w"] ["v"] = Ok df
    /\ labels df = ["k"; "w"]
    /\ frame_row df 1 = [Some (PyStr "b"); Some (PyStr "y")].
Proof.
  destruct (column_dropping [["a"; "1"; "x"]; ["b"; "2"; "y"]]
              ["k"; "v"; "w"] ["v"]) as (df & Hs & Hl & _ & Hr & _).
  - repeat constructor.
  - intros d [<-|[]]. simpl. tauto.
  - exists df. split; [exact Hs|]. split; [exact Hl|].
    exact (Hr 1 ["b"; "2"; "y"] eq_refl).
Defined.

(** ** Row window *)

Lemma col_objs_slice (a b : Z) (c : column) :
  col_objs (col_slice a b c) = Py.slice (col_objs c) a b.
Proof.
  destruct c as [xs|xs|xs]; simpl; [reflexivity| |];
    unfold Py.slice; now rewrite length_map, skipn_map, firstn_map.
Qed.

Lemma nth_error_window (A : Type) (l : list A) (k n j : nat) :
  j < n -> nth_error (firstn n (skipn k l)) j = nth_error l (k + j).
Proof.
  intros Hj. rewrite nth_error_firstn.
  replace (j <? n) with true by (symmetry; apply Nat.ltb_lt; lia).
  apply nth_error_skipn.
Qed.

(** C8. On a frame whose columns all have [index_len] cells, the window
    [(a, b)] with [1 <= a <= b <= index_len] keeps the labels and gives
    [b - a + 1] rows; row [j] of the result is row [a - 1 + j] of the
    frame, so the rows at the 0-based positions [a-1 .. b-1] are kept, in
    order. *)
Theorem row_windowing (df : frame) (a b : Z) :
  Forall (fun lc => col_len (snd lc) = index_len df) (columns df) ->
  (1 <= a <= b)%Z -> (b <= Z.of_nat (index_len df))%Z ->
  let out := keep_rows df (a, b) in
  labels out = labels df
  /\ index_len out = Z.to_nat (b - a + 1)
  /\ Forall (fun lc => col_len (snd lc) = index_len out) (columns out)
  /\ forall j, j < Z.to_nat (b - a + 1) ->
       frame_row out j = frame_row df (Z.to_nat (a - 1) + j).
Proof.
  intros Hwf Hab Hb out. unfold out, keep_rows, iloc. simpl fst. simpl snd.
  rewrite !clamp_in_range by lia.
  assert (Hn : Z.to_nat b - Z.to_nat (a - 1) = Z.to_nat (b - a + 1)) by lia.
  split; [|split; [|split]].
  - unfold labels. simpl. rewrite map_map. reflexivity.
  - simpl. exact Hn.
  - simpl. rewrite Forall_map. simpl.
    eapply Forall_impl; [|exact Hwf]. intros [l c] Hc. simpl in *.
    unfold col_len in *. rewrite col_objs_slice, slice_in_range by lia.
    rewrite length_firstn, length_skipn. lia.
  - intros j Hj. unfold frame_row. simpl columns. rewrite map_map.
    apply map_ext_Forall. eapply Forall_impl; [|exact Hwf].
    intros [l c] Hc. simpl in *. unfold col_len in Hc.
    rewrite col_objs_slice, slice_in_range by lia.
    apply nth_error_window. lia.
Qed.

Lemma row_windowing_witness :
  let df := Frame 10
              [("n", ObjCol (map PyStr
                  ["r1"; "r2"; "r3"; "r4"; "r5"; "r6"; "r7"; "r8"; "r9"; "r10"]))] in
  index_len (keep_rows df (3, 7)%Z) = 5
  /\ frame_row (keep_rows df (3, 7)%Z) 0 = [Some (PyStr "r3")]
  /\ frame_row (keep_rows df (3, 7)%Z) 4 = [Some (PyStr "r7")].
Proof.
  intros df.
  destruct (row_windowing df 3 7) as (_ & Hn & _ & Hrow).
  - repeat constructor.
  - lia.
  - simpl. lia.
  - split; [exact Hn|]. split.
    + exact (Hrow 0 ltac:(simpl; lia)).
    + exact (Hrow 4 ltac:(simpl; lia)).
Defined.

(** ** The store *)

Lemma length_update (st : store) (r : ref) (f : frame) :
  length (update st r f) = length st.
Proof.
  revert r. induction st as [|g st IH]; intros [|r]; simpl;
    try reflexivity. now rewrite IH.
Qed.

Lemma deref_update_same (st : store) (r : ref) (f : frame) :
  r < length st -> deref (update st r f) r = f.
Proof.
  unfold deref. revert r. induction st as [|g st IH]; intros [|r] H;
    simpl in *; try lia; [reflexivity|]. apply IH. lia.
Qed.

Lemma deref_update_other (st : store) (r r' : ref) (f : frame) :
  r <> r' -> deref (update st r f) r' = deref st r'.
Proof.
  unfold deref. revert r r'.
  induction st as [|g st IH]; intros [|r] [|r'] H; simpl;
    try reflexivity; try congruence.
  apply IH. congruence.
Qed.

Lemma update_update (st : store) (r : ref) (f g : frame) :
  update (update st r f) r g = update st r g.
Proof.
  revert r. induction st as [|h st IH]; intros [|r]; simpl;
    try reflexivity. now rewrite IH.
Qed.

Lemma update_deref (st : store) (r : ref) :
  r < length st -> update st r (deref st r) = st.
Proof.
  unfold deref. revert r. induction st as [|g st IH]; intros [|r] H;
    simpl in *; try lia; [reflexivity|]. f_equal. apply IH. lia.
Qed.

Lemma deref_app_old (st : store) (l : list frame) (r : ref) :
  r < length st -> deref (st ++ l) r = deref st r.
Proof. intros H. unfold deref. now apply app_nth1. Qed.

Lemma deref_app_new (st : store) (f : frame) :
  deref (st ++ [f]) (length st) = f.
Proof. unfold deref. rewrite app_nth2 by lia. now rewrite Nat.sub_diag. Qed.

Lemma update_app_new (st : store) (f g : frame) :
  update (st ++ [f]) (length st) g = st ++ [g].
Proof. induction st as [|h st IH]; simpl; [reflexivity|]. now rewrite IH. Qed.

(** ** Columns by label *)

Lemma labels_apply_col (g : column -> column) (col : string) (f : frame) :
  labels (apply_col g col f) = labels f.
Proof.
  unfold labels, apply_col. simpl. rewrite map_map. apply map_ext.
  intros [l c]. simpl. now destruct (String.eqb l col).
Qed.

Lemma mem_filter_label (col : string) (cs : list (string * column)) :
  mem col (map fst cs) = false <->
  filter (fun lc => String.eqb (fst lc) col) cs = [].
Proof.
  induction cs as [|[l c] cs IH]; simpl; [tauto|].
  rewrite (String.eqb_sym col l). destruct (String.eqb l col); simpl.
  - split; discriminate.
  - exact IH.
Qed.

Lemma filter_label_apply (g : column -> column) (col : string)
    (cs : list (string * column)) :
  filter (fun lc => String.eqb (fst lc) col)
    (map (fun lc => if String.eqb (fst lc) col then (fst lc, g (snd lc)) else lc) cs)
  = map (fun lc => (fst lc, g (snd lc)))
      (filter (fun lc => String.eqb (fst lc) col) cs).
Proof.
  induction cs as [|[l c] cs IH]; simpl; [reflexivity|].
  destruct (String.eqb l col) eqn:E; simpl; rewrite E; simpl; now rewrite IH.
Qed.

Lemma setitem_present (f : frame) (col : string) (c : column) :
  mem col (labels f) = true -> setitem f col c = apply_col (fun _ => c) col f.
Proof. intros H. unfold setitem. now rewrite H. Qed.

Lemma apply_col_twice (g h : column -> column) (col : string) (f : frame) :
  apply_col h col (apply_col g col f) = apply_col (fun c => h (g c)) col f.
Proof.
  unfold apply_col. simpl. f_equal. rewrite map_map. apply map_ext.
  intros [l c]. simpl. destruct (String.eqb l col) eqn:E; simpl; now rewrite E.
Qed.

Lemma apply_col_unique (g h : column -> column) (col : string) (f : frame)
    (lc : string * column) :
  filter (fun lc => String.eqb (fst lc) col) (columns f) = [lc] ->
  (forall c, c = snd lc -> g c = h c) ->
  apply_col g col f = apply_col h col f.
Proof.
  intros Hf Hgh. unfold apply_col. f_equal. apply map_ext_in.
  intros [l c] Hin. simpl. destruct (String.eqb l col) eqn:E; [|reflexivity].
  assert (Hin' : In (l, c) (filter (fun lc => String.eqb (fst lc) col) (columns f))).
  { apply filter_In. split; [exact Hin | exact E]. }
  rewrite Hf in Hin'. destruct Hin' as [E'|[]].
  rewrite (Hgh c); [reflexivity|]. now rewrite E'.
Qed.

(** ** [clean_numeric_columns] on the frame it copies *)

Lemma clean_column_run (r : ref) (col : string) (st : store) :
  r < length st ->
  clean_column r col st
  = match clean_frame_column (deref st r) col with
    | Ok f' => (update st r f', Ok tt)
    | Stop w => (st, Stop w)
    | Raise e => (st, Raise e)
    end.
Proof.
  intros Hr. unfold clean_column, clean_frame_column, mbind, read.
  set (f := deref st r).
  destruct (filter (fun lc => String.eqb (fst lc) col) (columns f))
    as [|lc [|lc' cs]] eqn:Hf.
  - apply mem_filter_label in Hf. unfold labels. rewrite Hf.
    unfold ret, f. now rewrite update_deref.
  - assert (Hm : mem col (labels f) = true).
    { destruct (mem col (labels f)) eqn:E; [reflexivity|].
      apply mem_filter_label in E. congruence. }
    rewrite Hm. unfold lift, getitem. rewrite Hf. simpl str_replace.
    unfold write. rewrite deref_update_same by exact Hr.
    rewrite (setitem_present f col _ Hm).
    set (c1 := ObjCol (map (fun s => PyStr (strip_non_numeric s))
                         (astype_str (snd lc)))).
    pose proof (filter_label_apply (fun _ => c1) col (columns f)) as Hfl.
    rewrite Hf in Hfl. simpl in Hfl.
    change (columns (apply_col (fun _ => c1) col f))
      with (map (fun lc0 : string * column =>
                   if String.eqb (fst lc0) col then (fst lc0, c1) else lc0)
              (columns f)).
    rewrite Hfl. simpl to_numeric_sel. cbv iota beta.
    rewrite update_update. f_equal. f_equal.
    rewrite setitem_present by (now rewrite labels_apply_col).
    rewrite apply_col_twice.
    apply (apply_col_unique _ _ col f lc Hf). intros c ->. reflexivity.
  - assert (Hm : mem col (labels f) = true).
    { destruct (mem col (labels f)) eqn:E; [reflexivity|].
      apply mem_filter_label in E. congruence. }
    rewrite Hm. unfold lift, getitem. rewrite Hf. reflexivity.
Qed.

Lemma labels_clean_frame_column (f f' : frame) (col : string) :
  clean_frame_column f col = Ok f' -> labels f' = labels f.
Proof.
  unfold clean_frame_column.
  destruct (filter (fun lc => String.eqb (fst lc) col) (columns f))
    as [|lc [|lc' cs]]; intros H; inversion H; subst;
    [reflexivity | apply labels_apply_col].
Qed.

Lemma index_len_clean_frame_column (f f' : frame) (col : string) :
  clean_frame_column f col = Ok f' -> index_len f' = index_len f.
Proof.
  unfold clean_frame_column.
  destruct (filter (fun lc => String.eqb (fst lc) col) (columns f))
    as [|lc [|lc' cs]]; intros H; inversion H; subst; reflexivity.
Qed.

Lemma clean_frame_column_never_stops (f : frame) (col : string) (w : warning) :
  clean_frame_column f col <> Stop w.
Proof.
  unfold clean_frame_column.
  now destruct (filter (fun lc => String.eqb (fst lc) col) (columns f))
    as [|lc [|lc' cs]].
Qed.

Lemma clean_frame_column_absent (f : frame) (col : string) :
  mem col (labels f) = false -> clean_frame_column f col = Ok f.
Proof.
  intros H. apply mem_filter_label in H. unfold clean_frame_column.
  now rewrite H.
Qed.

Lemma labels_clean_frame (cols : list string) (f f' : frame) :
  clean_frame f cols = Ok f' -> labels f' = labels f.
Proof.
  revert f. induction cols as [|c cols IH]; intros f H; simpl in H.
  - now inversion H.
  - destruct (clean_frame_column f c) as [f1| |] eqn:E; simpl in H;
      try discriminate.
    rewrite (IH f1 H). exact (labels_clean_frame_column f f1 c E).
Qed.

Lemma for_each_clean_run (cols : list string) (r : ref) (st : store) :
  r < length st ->
  let (st', o) := for_each cols (clean_column r) st in
  length st' = length st
  /\ (forall r0, r0 <> r -> deref st' r0 = deref st r0)
  /\ match clean_frame (deref st r) cols with
     | Ok f' => o = Ok tt /\ deref st' r = f'
     | Stop w => o = Stop w
     | Raise e => o = Raise e
     end.
Proof.
  revert st. induction cols as [|c cols IH]; intros st Hr.
  - simpl. auto.
  - simpl for_each. unfold mbind. rewrite (clean_column_run r c st Hr).
    simpl clean_frame.
    destruct (clean_frame_column (deref st r) c) as [f1|w|e] eqn:E; simpl bind.
    + specialize (IH (update st r f1)).
      rewrite length_update in IH. specialize (IH Hr).
      destruct (for_each cols (clean_column r) (update st r f1)) as [st' o].
      destruct IH as (Hlen & Hother & Hres).
      rewrite deref_update_same in Hres by exact Hr.
      split; [exact Hlen|]. split; [|exact Hres].
      intros r0 Hne. rewrite (Hother r0 Hne). now apply deref_update_other.
    + auto.
    + auto.
Qed.

Lemma clean_numeric_columns_run (cols : list string) (df : ref) (st : store) :
  let (st', o) := clean_numeric_columns df cols st in
  length st' = S (length st)
  /\ (forall r, r < length st -> deref st' r = deref st r)
  /\ match clean_frame (deref st df) cols with
     | Ok f' => o = Ok (length st) /\ deref st' (length st) = f'
     | Stop w => o = Stop w
     | Raise e => o = Raise e
     end.
Proof.
  unfold clean_numeric_columns, mbind, copy.
  pose proof (for_each_clean_run cols (length st) (st ++ [deref st df])) as H.
  rewrite length_app in H. simpl in H. specialize (H ltac:(lia)).
  destruct (for_each cols (clean_column (length st)) (st ++ [deref st df]))
    as [st' o].
  destruct H as (Hlen & Hother & Hres). rewrite deref_app_new in Hres.
  assert (Hold : forall r, r < length st -> deref st' r = deref st r).
  { intros r Hr. rewrite Hother by lia. now apply deref_app_old. }
  destruct (clean_frame (deref st df) cols) as [f'|w|e].
  - destruct Hres as [-> Hd]. unfold ret. repeat split; trivial. lia.
  - subst o. repeat split; trivial. lia.
  - subst o. repeat split; trivial. lia.
Qed.

Lemma clean_frame_present (cols : list string) (f : frame) :
  clean_frame f cols = clean_frame f (filter (fun c => mem c (labels f)) cols).
Proof.
  revert f. induction cols as [|c cols IH]; intros f; [reflexivity|].
  simpl filter. destruct (mem c (labels f)) eqn:E.
  - simpl. destruct (clean_frame_column f c) as [f1| |] eqn:E1;
      simpl; try reflexivity.
    rewrite (IH f1). now rewrite (labels_clean_frame_column f f1 c E1).
  - simpl. rewrite (clean_frame_column_absent f c E). simpl. apply IH.
Qed.

Lemma for_each_clean_present (cols : list string) (r : ref) (st : store) :
  r < length st ->
  for_each cols (clean_column r) st
  = for_each (filter (fun c => mem c (labels (deref st r))) cols)
      (clean_column r) st.
Proof.
  revert st. induction cols as [|c cols IH]; intros st Hr; [reflexivity|].
  simpl filter. destruct (mem c (labels (deref st r))) eqn:E.
  - simpl for_each. unfold mbind. rewrite (clean_column_run r c st Hr).
    destruct (clean_frame_column (deref st r) c) as [f1|w|e] eqn:E1;
      try reflexivity.
    rewrite IH by (now rewrite length_update).
    rewrite deref_update_same by exact Hr.
    now rewrite (labels_clean_frame_column _ f1 c E1).
  - simpl for_each. unfold mbind. rewrite (clean_column_run r c st Hr).
    rewrite (clean_frame_column_absent _ c E), update_deref by exact Hr.
    now apply IH.
Qed.

Lemma clean_numeric_columns_present (cols : list string) (df : ref) (st : store) :
  clean_numeric_columns df cols st
  = clean_numeric_columns df
      (filter (fun c => mem c (labels (deref st df))) cols) st.
Proof.
  unfold clean_numeric_columns, mbind, copy.
  rewrite for_each_clean_present by (rewrite length_app; simpl; lia).
  now rewrite deref_app_new.
Qed.

(** ** Names that are no column, and the input frame *)

(** C10. [clean_numeric_columns] on an allocated frame: the names of
    [col_names] that are no label of the frame play no part (the run is the
    run on the names that are labels, so they raise nothing and touch
    nothing); when no name is a label the result is a new frame equal to
    the input; a result always has the labels of the input; and no frame
    that was in the store before the call, the input among them, is
    changed: the work is done on a copy. *)
Theorem absent_names_are_ignored (st : store) (df : ref) (col_names : list string) :
  df < length st ->
  let f := deref st df in
  let present := filter (fun c => mem c (labels f)) col_names in
  clean_numeric_columns df col_names st = clean_numeric_columns df present st
  /\ ((forall c, In c col_names -> ~ In c (labels f)) ->
      exists st', clean_numeric_columns df col_names st = (st', Ok (length st))
                  /\ deref st' (length st) = f)
  /\ forall st' o, clean_numeric_columns df col_names st = (st', o) ->
       (forall r, r < length st -> deref st' r = deref st r)
       /\ (forall out, o = Ok out ->
             out <> df /\ labels (deref st' out) = labels f).
Proof.
  intros Hdf f present. split; [apply clean_numeric_columns_present|].
  pose proof (clean_numeric_columns_run col_names df st) as Hrun.
  split.
  - intros Habs.
    assert (Hp : present = []).
    { unfold present. clear - Habs. induction col_names as [|c cols IH];
        [reflexivity|]. simpl.
      destruct (mem c (labels f)) eqn:E.
      - apply mem_In in E. exfalso. apply (Habs c); [now left | exact E].
      - apply IH. intros c' Hc'. apply Habs. now right. }
    rewrite (clean_frame_present col_names (deref st df)) in Hrun.
    fold f in Hrun. fold present in Hrun. rewrite Hp in Hrun. simpl in Hrun.
    destruct (clean_numeric_columns df col_names st) as [st' o].
    destruct Hrun as (_ & _ & -> & Hd). now exists st'.
  - intros st' o E. rewrite E in Hrun. destruct Hrun as (Hlen & Hold & Hres).
    split; [exact Hold|]. intros out ->.
    destruct (clean_frame (deref st df) col_names) as [f'|w|e] eqn:Ef;
      try discriminate.
    destruct Hres as [Hout Hd]. inversion Hout; subst out.
    split; [lia|]. rewrite Hd. exact (labels_clean_frame col_names _ f' Ef).
Qed.

Lemma absent_names_are_ignored_witness :
  let f := Frame 1 [("a", ObjCol [PyStr "1"])] in
  clean_numeric_columns 0 ["zz"] [f] = ([f; f], Ok 1).
Proof.
  intros f.
  destruct (absent_names_are_ignored [f] 0 ["zz"]) as (_ & Habs & _).
  - simpl. lia.
  - destruct Habs as (st' & Hrun & Hd).
    + intros c [<-|[]] [E|[]]. discriminate E.
    + reflexivity.
Defined.

(** ** The columns that cleaning leaves alone *)

Lemma apply_col_absent (g : column -> column) (col : string) (f : frame) :
  mem col (labels f) = false -> apply_col g col f = f.
Proof.
  destruct f as [n cs]. unfold apply_col, labels. simpl. intros H. f_equal.
  induction cs as [|[l c] cs IH]; simpl in *; [reflexivity|].
  rewrite (String.eqb_sym col l) in H. destruct (String.eqb l col); simpl in H;
    [discriminate|]. now rewrite IH.
Qed.

Lemma filter_label_nodup (col : string) (cs : list (string * column)) :
  NoDup (map fst cs) ->
  length (filter (fun lc => String.eqb (fst lc) col) cs) <= 1.
Proof.
  induction cs as [|[l c] cs IH]; simpl; intros H; [lia|].
  inversion H as [|? ? Hnotin Hnd]; subst. specialize (IH Hnd).
  destruct (String.eqb_spec l col) as [->|_]; [|exact IH]. simpl.
  destruct (filter (fun lc => String.eqb (fst lc) col) cs) as [|[l' c'] rest] eqn:E;
    [simpl; lia|].
  exfalso. apply Hnotin.
  assert (Hin : In (l', c') (filter (fun lc => String.eqb (fst lc) col) cs))
    by (rewrite E; now left).
  apply filter_In in Hin. destruct Hin as [Hin Heq]. simpl in Heq.
  apply String.eqb_eq in Heq. subst l'.
  change col with (fst (col, c')). now apply in_map.
Qed.

Lemma clean_frame_column_nodup (f : frame) (col : string) :
  NoDup (labels f) -> clean_frame_column f col = Ok (apply_col clean_col col f).
Proof.
  intros Hnd. pose proof (filter_label_nodup col (columns f) Hnd) as Hlen.
  unfold clean_frame_column.
  destruct (filter (fun lc => String.eqb (fst lc) col) (columns f))
    as [|lc [|lc' cs]] eqn:E; simpl in Hlen; try lia; [|reflexivity].
  apply mem_filter_label in E. now rewrite apply_col_absent.
Qed.

Lemma clean_frame_column_cases (f f' : frame) (col : string) :
  clean_frame_column f col = Ok f' -> f' = apply_col clean_col col f.
Proof.
  unfold clean_frame_column.
  destruct (filter (fun lc => String.eqb (fst lc) col) (columns f))
    as [|lc [|lc' cs]] eqn:E; intros H; inversion H; subst; [|reflexivity].
  apply mem_filter_label in E. now rewrite apply_col_absent.
Qed.

Lemma clean_frame_total (cols : list string) (f : frame) :
  NoDup (labels f) -> exists f', clean_frame f cols = Ok f'.
Proof.
  revert f. induction cols as [|c cols IH]; intros f Hnd; simpl.
  - now exists f.
  - rewrite (clean_frame_column_nodup f c Hnd). simpl. apply IH.
    now rewrite labels_apply_col.
Qed.

Lemma nth_error_apply_col (g : column -> column) (col : string) (f : frame)
    (k : nat) (l : string) (c : column) :
  nth_error (columns f) k = Some (l, c) ->
  nth_error (columns (apply_col g col f)) k
  = Some (l, if String.eqb l col then g c else c).
Proof.
  intros H. unfold apply_col. simpl. rewrite nth_error_map, H. simpl.
  now destruct (String.eqb l col).
Qed.

Lemma index_len_clean_frame (cols : list string) (f f' : frame) :
  clean_frame f cols = Ok f' -> index_len f' = index_len f.
Proof.
  revert f. induction cols as [|c cols IH]; intros f H; simpl in H.
  - now inversion H.
  - destruct (clean_frame_column f c) as [f1| |] eqn:E; simpl in H;
      try discriminate.
    rewrite (IH f1 H). exact (index_len_clean_frame_column f f1 c E).
Qed.

Lemma clean_frame_other (cols : list string) (f f' : frame) (k : nat)
    (l : string) (c : column) :
  clean_frame f cols = Ok f' ->
  nth_error (columns f) k = Some (l, c) ->
  ~ In l cols ->
  nth_error (columns f') k = Some (l, c).
Proof.
  revert f. induction cols as [|c0 cols IH]; intros f H Hk Hl; simpl in H.
  - inversion H; now subst.
  - destruct (clean_frame_column f c0) as [f1| |] eqn:E; simpl in H;
      try discriminate.
    apply clean_frame_column_cases in E. subst f1.
    apply (IH _ H).
    + rewrite (nth_error_apply_col _ _ _ _ _ _ Hk).
      destruct (String.eqb_spec l c0) as [->|_]; [|reflexivity].
      exfalso. apply Hl. now left.
    + intros Hin. apply Hl. now right.
Qed.

Lemma is_number_clean_col (c : column) : is_number (clean_col c) = true.
Proof.
  unfold clean_col, to_numeric.
  destruct (all_ints _) as [zs|]; [destruct (ints_fit zs)|]; reflexivity.
Qed.

Lemma clean_frame_designated (cols : list string) (f f' : frame) (k : nat)
    (l : string) (c : column) :
  clean_frame f cols = Ok f' ->
  nth_error (columns f) k = Some (l, c) ->
  In l cols ->
  exists c', nth_error (columns f') k = Some (l, c') /\ is_number c' = true.
Proof.
  revert f c. induction cols as [|c0 cols IH]; intros f c H Hk Hl;
    [contradiction|].
  simpl in H. destruct (clean_frame_column f c0) as [f1| |] eqn:E; simpl in H;
    try discriminate.
  apply clean_frame_column_cases in E. subst f1.
  pose proof (nth_error_apply_col clean_col c0 f k l c Hk) as Hk1.
  destruct (in_dec string_dec l cols) as [Hin|Hnotin].
  - exact (IH _ _ H Hk1 Hin).
  - destruct Hl as [->|Hin]; [|contradiction].
    rewrite String.eqb_refl in Hk1.
    exists (clean_col c). split; [|apply is_number_clean_col].
    exact (clean_frame_other cols _ f' k l (clean_col c) H Hk1 Hnotin).
Qed.

(** C9. On a frame without repeated labels [clean_numeric_columns] returns
    a new frame with the labels and the index of the input; every column
    whose label is not designated is there at its place, the very column of
    the input (so each of its cells is the cell of the input), and every
    designated column is there with a numeric dtype. *)
Theorem cleaning_frame_property (st : store) (df : ref) (col_names : list string) :
  let f := deref st df in
  NoDup (labels f) ->
  exists st',
    clean_numeric_columns df col_names st = (st', Ok (length st))
    /\ let out := deref st' (length st) in
       labels out = labels f
       /\ index_len out = index_len f
       /\ (forall k l c, nth_error (columns f) k = Some (l, c) ->
             ~ In l col_names -> nth_error (columns out) k = Some (l, c))
       /\ (forall k l c, nth_error (columns f) k = Some (l, c) ->
             In l col_names ->
             exists c', nth_error (columns out) k = Some (l, c')
                        /\ is_number c' = true).
Proof.
  intros f Hnd.
  destruct (clean_frame_total col_names f Hnd) as [f' Hf'].
  pose proof (clean_numeric_columns_run col_names df st) as Hrun.
  fold f in Hrun. rewrite Hf' in Hrun.
  destruct (clean_numeric_columns df col_names st) as [st' o].
  destruct Hrun as (_ & _ & -> & Hd).
  exists st'. split; [reflexivity|]. rewrite Hd. simpl.
  split; [exact (labels_clean_frame col_names f f' Hf')|].
  split; [exact (index_len_clean_frame col_names f f' Hf')|].
  split.
  - intros k l c. exact (clean_frame_other col_names f f' k l c Hf').
  - intros k l c. exact (clean_frame_designated col_names f f' k l c Hf').
Qed.

Lemma cleaning_frame_property_witness :
  let f := Frame 2 [("name", ObjCol [PyStr "1st"; PyStr "2nd"]);
                    ("n", ObjCol [PyStr "1,5"; PyStr "x"])] in
  exists st',
    clean_numeric_columns 0 ["n"] [f] = (st', Ok 1)
    /\ nth_error (columns (deref st' 1)) 0
       = Some ("name", ObjCol [PyStr "1st"; PyStr "2nd"]).
Proof.
  intros f.
  destruct (cleaning_frame_property [f] 0 ["n"]) as (st' & Hrun & _ & _ & Hother & _).
  - simpl. repeat constructor; simpl; intuition discriminate.
  - exists st'. split; [exact Hrun|].
    apply (Hother 0 "name" (ObjCol [PyStr "1st"; PyStr "2nd"]) eq_refl).
    simpl. intuition discriminate.
Defined.

(** ** The object in a cleaned cell *)

Lemma all_ints_nth (es : list (option (pyfloat * option Z))) (zs : list Z)
    (i : nat) (e : option (pyfloat * option Z)) :
  all_ints es = Some zs -> nth_error es i = Some e ->
  exists y z, e = Some (y, Some z) /\ nth_error zs i = Some z.
Proof.
  revert zs i. induction es as [|e0 es IH]; intros zs [|i] H Hi;
    simpl in *; try discriminate.
  - inversion Hi; subst. destruct e as [[y [z|]]|]; try discriminate.
    destruct (all_ints es); inversion H. now exists y, z.
  - destruct e0 as [[y0 [z0|]]|]; try discriminate.
    destruct (all_ints es) as [zs'|] eqn:E; inversion H; subst.
    simpl. now apply IH.
Qed.

Lemma col_objs_round (r_err : N) (c : column) :
  is_number c = true ->
  col_objs (round_column r_err c) = map (round_obj r_err) (col_objs c).
Proof.
  destruct c as [xs|xs|xs]; simpl; intros H; try discriminate.
  - rewrite map_map. reflexivity.
  - rewrite !map_map. reflexivity.
Qed.

Lemma guard_no_NA (t : Z) (ys : list pyobj) :
  Forall (fun y => y <> PdNA) ys ->
  existsb (fun y => match y with PdNA => true | _ => false end)
    (map (guard_obj t) ys) = false ->
  map (guard_obj t) ys = ys.
Proof.
  induction ys as [|y ys IH]; simpl; intros Hn H; [reflexivity|].
  inversion Hn as [|? ? Hy Hys]; subst. apply orb_false_iff in H.
  destruct H as [H1 H2]. rewrite (IH Hys H2). f_equal.
  destruct y as [s| |z|x|]; simpl in *; try reflexivity.
  - now destruct (exceeds t (inject_Z z)).
  - now destruct (exceeds_float t x).
Qed.

Lemma col_objs_guard (t : Z) (c : column) :
  is_number c = true ->
  col_objs (guard_column t c) = map (guard_obj t) (col_objs c).
Proof.
  destruct c as [xs|xs|xs]; intros H; try discriminate; unfold guard_column.
  - destruct (existsb _ (map (guard_obj t) (col_objs (IntCol xs)))) eqn:E;
      [reflexivity|].
    symmetry. apply guard_no_NA; [|exact E]. simpl. apply Forall_map.
    apply Forall_forall. intros z _. discriminate.
  - destruct (existsb _ (map (guard_obj t) (col_objs (FloatCol xs)))) eqn:E;
      [reflexivity|].
    symmetry. apply guard_no_NA; [|exact E]. simpl. apply Forall_map.
    apply Forall_forall. intros z _. discriminate.
Qed.


Lemma finish_objs_numeric (r_err : N) (t : Z) (c : column) :
  is_number c = true ->
  col_objs (finish_col r_err t c)
  = map (fun y => guard_obj t (round_obj r_err y)) (col_objs c).
Proof.
  intros Hn. unfold finish_col. rewrite Hn.
  rewrite col_objs_guard by (now destruct c).
  rewrite col_objs_round by exact Hn. now rewrite map_map.
Qed.

Lemma frame_eta (f : frame) :
  Frame (index_len f) (map (fun lc => (fst lc, snd lc)) (columns f)) = f.
Proof.
  destruct f as [n cs]. simpl. f_equal.
  induction cs as [|[l c] cs IH]; simpl; [|rewrite IH]; reflexivity.
Qed.

Lemma mem_cons (x y : string) (l : list string) :
  mem x (y :: l) = String.eqb x y || mem x l.
Proof. reflexivity. Qed.

Lemma clean_frame_nodup (cols : list string) (f : frame) :
  NoDup (labels f) -> NoDup cols ->
  clean_frame f cols
  = Ok (Frame (index_len f)
          (map (fun lc => (fst lc, if mem (fst lc) cols then clean_col (snd lc)
                                   else snd lc))
             (columns f))).
Proof.
  revert f. induction cols as [|c cols IH]; intros f Hf Hc.
  - simpl. now rewrite frame_eta.
  - simpl clean_frame. rewrite (clean_frame_column_nodup f c Hf). simpl bind.
    inversion Hc as [|? ? Hnotin Hc']; subst.
    rewrite IH by (try rewrite labels_apply_col; assumption).
    f_equal. unfold apply_col. simpl. f_equal. rewrite map_map.
    apply map_ext. intros [l c0]. cbn [fst snd].
    destruct (String.eqb_spec l c) as [->|Hne]; cbn [fst snd orb]; [|reflexivity].
    destruct (mem c cols) eqn:E; [|reflexivity].
    apply mem_In in E. contradiction.
Qed.

Lemma filter_label_map (G : string -> column -> column) (col : string)
    (cs : list (string * column)) :
  filter (fun lc => String.eqb (fst lc) col)
    (map (fun lc => (fst lc, G (fst lc) (snd lc))) cs)
  = map (fun lc => (fst lc, G (fst lc) (snd lc)))
      (filter (fun lc => String.eqb (fst lc) col) cs).
Proof.
  induction cs as [|[l c] cs IH]; simpl; [reflexivity|].
  destruct (String.eqb l col); simpl; now rewrite IH.
Qed.

Lemma column_of_mapped (G : string -> column -> column) (n : nat) (f : frame)
    (col : string) :
  column_of (Frame n (map (fun lc => (fst lc, G (fst lc) (snd lc))) (columns f))) col
  = option_map (G col) (column_of f col).
Proof.
  unfold column_of, getitem. simpl columns. rewrite filter_label_map.
  destruct (filter (fun lc => String.eqb (fst lc) col) (columns f))
    as [|[l c] [|lc' cs]] eqn:E; try reflexivity.
  simpl. do 2 f_equal.
  assert (Hin : In (l, c) (filter (fun lc => String.eqb (fst lc) col) (columns f)))
    by (rewrite E; now left).
  apply filter_In in Hin. destruct Hin as [_ Hl]. now apply String.eqb_eq in Hl.
Qed.

Lemma numeric_char_class (c : ascii) :
  numeric_char c = existsb (Ascii.eqb c) (list_ascii_of_string "0123456789.-").
Proof. destruct c as [[] [] [] [] [] [] [] []]; reflexivity. Qed.


(** ** Rounding and the magnitude guard on the frame *)

Lemma nodupb_NoDup (l : list string) : nodupb l = true <-> NoDup l.
Proof.
  induction l as [|x l IH]; simpl.
  - split; [constructor | reflexivity].
  - rewrite andb_true_iff, negb_true_iff, IH. split.
    + intros [Hm Hnd]. constructor; [|exact Hnd].
      intros Hin. apply mem_In in Hin. congruence.
    + intros H. inversion H as [|? ? Hnotin Hnd]; subst. split; [|exact Hnd].
      destruct (mem x l) eqn:E; [|reflexivity]. apply mem_In in E. contradiction.
Qed.

Lemma NoDup_numeric_labels (f : frame) :
  NoDup (labels f) -> NoDup (numeric_labels f).
Proof.
  unfold labels, numeric_labels. induction (columns f) as [|[l c] cs IH];
    simpl; intros H; [constructor|].
  inversion H as [|? ? Hnotin Hnd]; subst. specialize (IH Hnd).
  destruct (is_number c); simpl; [|exact IH].
  constructor; [|exact IH]. intros Hin. apply Hnotin.
  apply in_map_iff in Hin. destruct Hin as ([l' c'] & E & Hin). simpl in E.
  subst l'. apply filter_In in Hin. destruct Hin as [Hin _].
  change l with (fst (l, c')). now apply in_map.
Qed.

Lemma mem_numeric_labels (f : frame) (l : string) (c : column) :
  NoDup (labels f) -> In (l, c) (columns f) ->
  mem l (numeric_labels f) = is_number c.
Proof.
  unfold labels, numeric_labels. induction (columns f) as [|[l0 c0] cs IH];
    simpl; intros Hnd Hin; [contradiction|].
  inversion Hnd as [|? ? Hnotin Hnd']; subst.
  destruct Hin as [E|Hin].
  - inversion E; subst. destruct (is_number c) eqn:Ec; simpl.
    + now rewrite String.eqb_refl.
    + destruct (mem l (map fst (filter (fun lc => is_number (snd lc)) cs))) eqn:Em;
        [|reflexivity].
      apply mem_In in Em. exfalso. apply Hnotin.
      apply in_map_iff in Em. destruct Em as ([l' c'] & E' & Hin). simpl in E'.
      subst l'. apply filter_In in Hin. destruct Hin as [Hin _].
      change l with (fst (l, c')). now apply in_map.
  - assert (Hne : l <> l0).
    { intros ->. apply Hnotin. change l0 with (fst (l0, c)). now apply in_map. }
    destruct (is_number c0); simpl.
    + destruct (String.eqb_spec l l0); [contradiction|]. simpl. now apply IH.
    + now apply IH.
Qed.

Lemma round_numeric_run (df2 : ref) (r_err : N) (st : store) :
  let f := deref st df2 in
  NoDup (labels f) ->
  round_numeric df2 (numeric_labels f) r_err st
  = (update st df2
       (Frame (index_len f)
          (map (fun lc => (fst lc, round_column r_err (snd lc))) (columns f))),
     Ok tt).
Proof.
  intros f Hnd. unfold round_numeric, mbind, read. fold f.
  replace (nodupb (numeric_labels f)) with true
    by (symmetry; now apply nodupb_NoDup, NoDup_numeric_labels).
  unfold write. do 3 f_equal. apply map_ext_in. intros [l c] Hin. simpl.
  rewrite (mem_numeric_labels f l c Hnd Hin).
  now destruct c.
Qed.

Lemma guard_label_run (df2 : ref) (thresh_err : Z) (col : string) (st : store) :
  let f := deref st df2 in
  NoDup (labels f) -> In col (labels f) ->
  guard_label df2 thresh_err col st
  = (update st df2 (apply_col (guard_column thresh_err) col f), Ok tt).
Proof.
  intros f Hnd Hin. unfold guard_label, mbind, read, lift. fold f.
  pose proof (filter_label_nodup col (columns f) Hnd) as Hlen.
  assert (Hm : mem col (labels f) = true) by now apply mem_In.
  unfold getitem.
  destruct (filter (fun lc => String.eqb (fst lc) col) (columns f))
    as [|lc [|lc' cs]] eqn:E; simpl in Hlen; try lia.
  - apply mem_filter_label in E. unfold labels in Hm. congruence.
  - unfold write. rewrite (setitem_present f col _ Hm). do 2 f_equal.
    apply (apply_col_unique _ _ col f lc E). intros c ->. reflexivity.
Qed.

Section Loop.
Variable g : column -> column.
Variable body : string -> M unit.
Variable r : ref.
Variable L : list string.
Hypothesis body_run :
  forall col st, In col L -> r < length st -> labels (deref st r) = L ->
    body col st = (update st r (apply_col g col (deref st r)), Ok tt).

Lemma for_each_apply_col (ls : list string) (st : store) :
  NoDup ls -> (forall col, In col ls -> In col L) ->
  r < length st -> labels (deref st r) = L ->
  for_each ls body st
  = (update st r
       (Frame (index_len (deref st r))
          (map (fun lc => if mem (fst lc) ls then (fst lc, g (snd lc)) else lc)
             (columns (deref st r)))),
     Ok tt).
Proof.
  revert st. induction ls as [|c ls IH]; intros st Hls Hsub Hr HL.
  - simpl. unfold ret. rewrite map_id.
    destruct (deref st r) as [n cs] eqn:E. simpl. rewrite <- E.
    now rewrite update_deref.
  - simpl for_each. unfold mbind.
    rewrite (body_run c st (Hsub c (or_introl eq_refl)) Hr HL).
    inversion Hls as [|? ? Hnotin Hls']; subst.
    rewrite IH; try assumption.
    + rewrite deref_update_same by exact Hr. rewrite update_update.
      do 2 f_equal. unfold apply_col. simpl. f_equal. rewrite map_map.
      apply map_ext. intros [l c0]. cbn [fst snd].
      destruct (String.eqb_spec l c) as [->|Hne]; cbn [fst snd orb];
        [|reflexivity].
      destruct (mem c ls) eqn:E; [|reflexivity].
      apply mem_In in E. contradiction.
    + intros col Hc. apply Hsub. now right.
    + now rewrite length_update.
    + rewrite deref_update_same by exact Hr. apply labels_apply_col.
Qed.
End Loop.

Lemma labels_mapped (G : string -> column -> column) (n : nat)
    (cs : list (string * column)) :
  labels (Frame n (map (fun lc => (fst lc, G (fst lc) (snd lc))) cs))
  = map fst cs.
Proof. unfold labels. simpl. rewrite map_map. reflexivity. Qed.

Lemma numeric_labels_round (n : nat) (r_err : N) (f : frame) :
  numeric_labels
    (Frame n (map (fun lc => (fst lc, round_column r_err (snd lc))) (columns f)))
  = numeric_labels f.
Proof.
  unfold numeric_labels. simpl. induction (columns f) as [|[l c] cs IH];
    simpl; [reflexivity|].
  replace (is_number (round_column r_err c)) with (is_number c)
    by now destruct c.
  destruct (is_number c); simpl; now rewrite IH.
Qed.

Lemma numeric_labels_sub (f : frame) (l : string) :
  In l (numeric_labels f) -> In l (labels f).
Proof.
  unfold numeric_labels, labels. intros H. apply in_map_iff in H.
  destruct H as (lc & <- & Hin). apply filter_In in Hin. apply in_map, Hin.
Qed.

(** [clean_step] on a frame without repeated labels. *)
Lemma clean_step_run (st : store) (df : ref) (cols : list string)
    (r_err : N) (thresh_err : Z) :
  let f := deref st df in
  NoDup (labels f) -> NoDup cols -> cols <> [] ->
  exists st',
    clean_step df cols r_err thresh_err st = (st', Ok (length st))
    /\ deref st' (length st) = cleaned_frame cols r_err thresh_err f
    /\ forall r, r < length st -> deref st' r = deref st r.
Proof.
  intros f Hf Hc Hne. unfold clean_step.
  destruct cols as [|c0 cols0] eqn:Ecols; [congruence|]. rewrite <- Ecols in *.
  clear Ecols Hne c0 cols0.
  unfold mbind at 1.
  pose proof (clean_numeric_columns_run cols df st) as Hrun. fold f in Hrun.
  rewrite (clean_frame_nodup cols f Hf Hc) in Hrun.
  destruct (clean_numeric_columns df cols st) as [st1 o].
  destruct Hrun as (Hlen1 & Hold1 & -> & Hd1).
  set (df2 := length st) in *.
  set (f1 := Frame (index_len f)
               (map (fun lc => (fst lc, if mem (fst lc) cols
                                        then clean_col (snd lc) else snd lc))
                  (columns f))) in *.
  assert (Hl1 : labels f1 = labels f).
  { unfold f1. apply (labels_mapped (fun l c => if mem l cols then clean_col c else c)). }
  assert (Hr1 : df2 < length st1) by (unfold df2; lia).
  unfold mbind at 1. unfold read at 1. rewrite Hd1.
  unfold mbind at 1.
  pose proof (round_numeric_run df2 r_err st1) as Hround.
  cbv zeta in Hround. rewrite Hd1 in Hround.
  rewrite Hround by (now rewrite Hl1).
  clear Hround.
  set (f2 := Frame (index_len f1)
               (map (fun lc => (fst lc, round_column r_err (snd lc))) (columns f1))).
  set (st2 := update st1 df2 f2).
  assert (Hl2 : labels f2 = labels f).
  { unfold f2. rewrite (labels_mapped (fun _ c => round_column r_err c)).
    exact Hl1. }
  assert (Hd2 : deref st2 df2 = f2) by (apply deref_update_same; exact Hr1).
  unfold mbind.
  assert (Hbody : forall col st0, In col (labels f) -> df2 < length st0 ->
            labels (deref st0 df2) = labels f ->
            guard_label df2 thresh_err col st0
            = (update st0 df2
                 (apply_col (guard_column thresh_err) col (deref st0 df2)), Ok tt)).
  { intros col st0 Hin Hr0 HL0. apply guard_label_run; rewrite HL0; assumption. }
  rewrite (for_each_apply_col (guard_column thresh_err)
             (guard_label df2 thresh_err) df2 (labels f) Hbody).
  - unfold ret. eexists. split; [reflexivity|]. split.
    + rewrite deref_update_same by (unfold st2; now rewrite length_update).
      rewrite Hd2. unfold cleaned_frame, f2. simpl index_len. f_equal.
      cbn [columns]. change (columns f1)
        with (map (fun lc : string * column =>
                     (fst lc, if mem (fst lc) cols then clean_col (snd lc)
                              else snd lc)) (columns f)).
      rewrite !map_map.
      apply map_ext_in. intros [l c] Hin. cbn [fst snd].
      set (c1 := if mem l cols then clean_col c else c).
      assert (Hin1 : In (l, c1) (columns f1)).
      { unfold f1. simpl. apply in_map_iff. exists (l, c). now split. }
      rewrite (mem_numeric_labels f1 l c1) by (try rewrite Hl1; assumption).
      unfold finish_col. destruct (is_number c1) eqn:En; [reflexivity|].
      f_equal. now destruct c1.
    + intros r Hr. rewrite deref_update_other by (unfold df2; lia).
      unfold st2. rewrite deref_update_other by (unfold df2; lia).
      now apply Hold1.
  - apply NoDup_numeric_labels. now rewrite Hl1.
  - intros col Hin. rewrite <- Hl1. now apply numeric_labels_sub.
  - unfold st2. now rewrite length_update.
  - rewrite Hd2. exact Hl2.
Qed.

(** ** Binary64 arithmetic that is exact or stays finite *)

Local Open Scope Z_scope.

Lemma digits2_size (p : positive) : digits2_pos p = Pos.size p.
Proof. induction p; simpl; congruence. Qed.

Lemma digits2_bounds (p : positive) :
  2 ^ (Zpos (digits2_pos p) - 1) <= Zpos p < 2 ^ Zpos (digits2_pos p).
Proof.
  rewrite digits2_size.
  pose proof (Pos.size_gt p) as Hgt. pose proof (Pos.size_le p) as Hle.
  split.
  - assert (H : (2 ^ Pos.size p <= p~0)%positive) by exact Hle.
    apply Pos2Z.pos_le_pos in H. rewrite Pos2Z.inj_pow in H.
    change (Zpos p~0) with (2 * Zpos p) in H.
    replace (Zpos (Pos.size p)) with (Zpos (Pos.size p) - 1 + 1) in H by lia.
    rewrite Z.pow_add_r in H by lia. lia.
  - apply Pos2Z.pos_lt_pos in Hgt. now rewrite Pos2Z.inj_pow in Hgt.
Qed.

Lemma digits2_unique (p : positive) (d : Z) :
  2 ^ (d - 1) <= Zpos p < 2 ^ d -> Zpos (digits2_pos p) = d.
Proof.
  intros [H1 H2]. pose proof (digits2_bounds p) as [H3 H4].
  destruct (Z.lt_trichotomy (Zpos (digits2_pos p)) d) as [H|[H|H]]; [|exact H|].
  - exfalso. assert (2 ^ Zpos (digits2_pos p) <= 2 ^ (d - 1))
      by (apply Z.pow_le_mono_r; lia). lia.
  - exfalso. assert (0 <= d).
    { destruct (Z.leb_spec 0 d); [assumption|]. rewrite (Z.pow_neg_r 2 d) in H2 by lia. lia. }
    assert (2 ^ d <= 2 ^ (Zpos (digits2_pos p) - 1))
      by (apply Z.pow_le_mono_r; lia). lia.
Qed.

Lemma iter_pos_nat {A : Type} (f : A -> A) (p : positive) (x : A) :
  iter_pos f p x = Nat.iter (Pos.to_nat p) f x.
Proof.
  revert x. induction p as [p IH|p IH|]; intros x; cbn [iter_pos].
  - rewrite !IH. rewrite Pos2Nat.inj_xI.
    replace (S (2 * Pos.to_nat p)) with (Pos.to_nat p + S (Pos.to_nat p))%nat by lia.
    rewrite Nat.iter_add. now rewrite Nat.iter_succ_r.
  - rewrite !IH. rewrite Pos2Nat.inj_xO.
    replace (2 * Pos.to_nat p)%nat with (Pos.to_nat p + Pos.to_nat p)%nat by lia.
    now rewrite Nat.iter_add.
  - reflexivity.
Qed.

Lemma shr_1_double (z : Z) :
  0 <= z ->
  shr_1 {| shr_m := 2 * z; shr_r := false; shr_s := false |}
  = {| shr_m := z; shr_r := false; shr_s := false |}.
Proof. destruct z as [|p|p]; intros H; [reflexivity | reflexivity | lia]. Qed.

Lemma shr_exact (n : nat) (z : Z) :
  0 <= z ->
  Nat.iter n shr_1 {| shr_m := z * 2 ^ Z.of_nat n; shr_r := false; shr_s := false |}
  = {| shr_m := z; shr_r := false; shr_s := false |}.
Proof.
  intros Hz. induction n as [|n IH].
  - simpl. now rewrite Z.mul_1_r.
  - rewrite Nat.iter_succ_r.
    replace (z * 2 ^ Z.of_nat (S n)) with (2 * (z * 2 ^ Z.of_nat n))
      by (rewrite Nat2Z.inj_succ, Z.pow_succ_r by lia; lia).
    rewrite shr_1_double by (apply Z.mul_nonneg_nonneg; [lia | apply Z.pow_nonneg; lia]).
    exact IH.
Qed.

Lemma shr_exact_Z (m : Z) (e n : Z) :
  0 <= m -> 0 <= n ->
  shr {| shr_m := m * 2 ^ n; shr_r := false; shr_s := false |} e n
  = ({| shr_m := m; shr_r := false; shr_s := false |}, e + n).
Proof.
  intros Hm Hn. destruct n as [|p|p]; [| |lia].
  - simpl. now rewrite Z.mul_1_r, Z.add_0_r.
  - unfold shr. rewrite iter_pos_nat.
    rewrite <- (positive_nat_Z p) at 1. now rewrite shr_exact.
Qed.

(** Rounding a value that a float with a mantissa of 53 bits holds. *)
Lemma round_aux_exact (s : bool) (p : positive) (ex n : Z) :
  Zpos (digits2_pos p) = 53 -> 0 <= n -> -1074 <= ex + n <= 971 ->
  binary_round_aux 53 1024 s (Zpos p * 2 ^ n) ex loc_Exact
  = S754_finite s p (ex + n).
Proof.
  intros Hd Hn He. unfold binary_round_aux.
  assert (Hpos : 0 < Zpos p * 2 ^ n) by (apply Z.mul_pos_pos; [lia | apply Z.pow_pos_nonneg; lia]).
  assert (Hdig : Zdigits2 (Zpos p * 2 ^ n) = 53 + n).
  { destruct (Zpos p * 2 ^ n) as [|q|q] eqn:E; try lia.
    cbn [Zdigits2]. apply digits2_unique. rewrite <- E.
    pose proof (digits2_bounds p) as [H1 H2]. rewrite Hd in H1, H2.
    replace (53 + n - 1) with (53 - 1 + n) by lia.
    rewrite !Z.pow_add_r by lia.
    assert (0 < 2 ^ n) by (apply Z.pow_pos_nonneg; lia). nia. }
  unfold shr_fexp. rewrite Hdig. unfold fexp, emin.
  replace (Z.max (53 + n + ex - 53) (3 - 1024 - 53) - ex) with n by lia.
  cbn [shr_record_of_loc]. rewrite shr_exact_Z by lia.
  cbn [shr_m loc_of_shr_record round_nearest_even].
  cbn [Zdigits2]. rewrite Hd.
  replace (Z.max (53 + (ex + n) - 53) (3 - 1024 - 53) - (ex + n)) with 0 by lia.
  cbn [shr shr_m].
  replace (ex + n <=? 1024 - 53) with true by (symmetry; apply Z.leb_le; lia).
  reflexivity.
Qed.

Lemma fl_m_val (z : Z) :
  0 < z < 2 ^ 53 -> Zpos (fl_m z) = z * 2 ^ (52 - Z.log2 z).
Proof.
  intros [H1 H2]. unfold fl_m. rewrite Z2Pos.id; [reflexivity|].
  assert (Z.log2 z < 53) by (apply Z.log2_lt_pow2; lia).
  apply Z.mul_pos_pos; [lia | apply Z.pow_pos_nonneg; lia].
Qed.

Lemma fl_m_digits (z : Z) :
  0 < z < 2 ^ 53 -> Zpos (digits2_pos (fl_m z)) = 53.
Proof.
  intros Hz. apply digits2_unique. rewrite fl_m_val by exact Hz.
  assert (HL : Z.log2 z < 53) by (apply Z.log2_lt_pow2; lia).
  pose proof (Z.log2_nonneg z) as HL0.
  pose proof (Z.log2_spec z ltac:(lia)) as [H1 H2].
  assert (E1 : 2 ^ (53 - 1) = 2 ^ Z.log2 z * 2 ^ (52 - Z.log2 z)).
  { rewrite <- Z.pow_add_r by lia. f_equal. lia. }
  assert (E2 : 2 ^ 53 = 2 ^ Z.succ (Z.log2 z) * 2 ^ (52 - Z.log2 z)).
  { rewrite <- Z.pow_add_r by lia. f_equal. lia. }
  rewrite E1, E2.
  assert (0 < 2 ^ (52 - Z.log2 z)) by (apply Z.pow_pos_nonneg; lia). nia.
Qed.

Lemma fl_e_range (z : Z) : 0 < z < 2 ^ 53 -> -52 <= fl_e z <= 0.
Proof.
  intros Hz. unfold fl_e.
  assert (HL : Z.log2 z < 53) by (apply Z.log2_lt_pow2; lia).
  pose proof (Z.log2_nonneg z). lia.
Qed.

Lemma iter_xO (p k : positive) :
  Zpos (Pos.iter xO p k) = Zpos p * 2 ^ Zpos k.
Proof.
  induction k as [|k IH] using Pos.peano_ind.
  - simpl. lia.
  - rewrite Pos.iter_succ. rewrite Pos2Z.inj_xO, IH, Pos2Z.inj_succ.
    rewrite Z.pow_succ_r by lia. lia.
Qed.

Lemma binary_round_int (z : Z) (p : positive) :
  z = Zpos p -> 0 < z < 2 ^ 53 ->
  binary_round 53 1024 false p 0 = fl z.
Proof.
  intros Hp Hz. unfold binary_round.
  assert (HL : Z.log2 z < 53) by (apply Z.log2_lt_pow2; lia).
  pose proof (Z.log2_nonneg z) as HL0.
  pose proof (Z.log2_spec z ltac:(lia)) as [H1 H2].
  assert (Hd : Zpos (digits2_pos p) = Z.log2 z + 1).
  { apply digits2_unique. rewrite <- Hp.
    replace (Z.log2 z + 1 - 1) with (Z.log2 z) by lia.
    replace (Z.log2 z + 1) with (Z.succ (Z.log2 z)) by lia. lia. }
  rewrite Hd. unfold fexp, emin.
  replace (Z.max (Z.log2 z + 1 + 0 - 53) (3 - 1024 - 53)) with (Z.log2 z - 52) by lia.
  unfold shl_align.
  destruct (Z.log2 z - 52 - 0) as [|k|k] eqn:Ek.
  - pose proof (round_aux_exact false p 0 0) as H.
    rewrite Z.pow_0_r, Z.mul_1_r in H. rewrite H by lia.
    unfold fl. f_equal.
    + unfold fl_m.
      replace (52 - Z.log2 z) with 0 by lia.
      rewrite Z.pow_0_r, Z.mul_1_r, Hp. reflexivity.
    + unfold fl_e. lia.
  - lia.
  - assert (Hm : Zpos (Pos.iter xO p k) = Zpos (fl_m z)).
    { rewrite iter_xO, fl_m_val by exact Hz. rewrite <- Hp. f_equal. f_equal. lia. }
    injection Hm as Hm. rewrite Hm.
    pose proof (round_aux_exact false (fl_m z) (Z.log2 z - 52) 0) as H.
    rewrite Z.pow_0_r, Z.mul_1_r in H. rewrite H.
    + unfold fl, fl_e. f_equal. lia.
    + now apply fl_m_digits.
    + lia.
    + lia.
Qed.

Lemma float_of_Z_fl (z : Z) : 0 < z < 2 ^ 53 -> float_of_Z z = fl z.
Proof.
  intros Hz. unfold float_of_Z, binary_normalize.
  destruct z as [|p|p]; try lia. now apply binary_round_int.
Qed.

Lemma fmul_fl (a b : Z) :
  0 < a -> 0 < b -> a * b < 2 ^ 53 -> fmul (fl a) (fl b) = fl (a * b).
Proof.
  intros Ha Hb Hab.
  assert (Ha' : 0 < a < 2 ^ 53) by nia.
  assert (Hb' : 0 < b < 2 ^ 53) by nia.
  assert (Hab' : 0 < a * b < 2 ^ 53) by nia.
  unfold fl at 1 2. unfold fmul, SFmul. cbn [xorb].
  pose proof (Z.log2_mul_below a b Ha Hb) as Hlow.
  pose proof (Z.log2_nonneg a). pose proof (Z.log2_nonneg b).
  assert (HLab : Z.log2 (a * b) < 53) by (apply Z.log2_lt_pow2; lia).
  assert (HLa : Z.log2 a < 53) by (apply Z.log2_lt_pow2; lia).
  assert (HLb : Z.log2 b < 53) by (apply Z.log2_lt_pow2; lia).
  set (n := Z.log2 (a * b) - Z.log2 a - Z.log2 b + 52).
  assert (Hprod : Zpos (fl_m a * fl_m b) = Zpos (fl_m (a * b)) * 2 ^ n).
  { rewrite Pos2Z.inj_mul, !fl_m_val by assumption. unfold n.
    assert (Hpow : 2 ^ (52 - Z.log2 a) * 2 ^ (52 - Z.log2 b)
                   = 2 ^ (52 - Z.log2 (a * b))
                     * 2 ^ (Z.log2 (a * b) - Z.log2 a - Z.log2 b + 52)).
    { rewrite <- !Z.pow_add_r by lia. f_equal. lia. }
    transitivity (a * b * (2 ^ (52 - Z.log2 a) * 2 ^ (52 - Z.log2 b)));
      [ring | rewrite Hpow; ring]. }
  rewrite Hprod.
  rewrite round_aux_exact.
  - unfold fl, fl_e, n. f_equal. lia.
  - now apply fl_m_digits.
  - unfold n. lia.
  - unfold fl_e, n. lia.
Qed.

Lemma binary_round_val (s : bool) (z : Z) (p : positive) (ex : Z) :
  0 < z < 2 ^ 53 -> ex <= 0 -> Zpos p = z * 2 ^ (- ex) ->
  binary_round 53 1024 s p ex = S754_finite s (fl_m z) (fl_e z).
Proof.
  intros Hz Hex Hp. unfold binary_round.
  assert (HL : Z.log2 z < 53) by (apply Z.log2_lt_pow2; lia).
  pose proof (Z.log2_nonneg z) as HL0.
  pose proof (Z.log2_spec z ltac:(lia)) as [H1 H2].
  assert (Hd : Zpos (digits2_pos p) = Z.log2 z + 1 - ex).
  { apply digits2_unique. rewrite Hp.
    assert (E1 : 2 ^ (Z.log2 z + 1 - ex - 1) = 2 ^ Z.log2 z * 2 ^ (- ex)).
    { rewrite <- Z.pow_add_r by lia. f_equal; lia. }
    assert (E2 : 2 ^ (Z.log2 z + 1 - ex) = 2 ^ Z.succ (Z.log2 z) * 2 ^ (- ex)).
    { rewrite <- Z.pow_add_r by lia. f_equal; lia. }
    rewrite E1, E2.
    assert (0 < 2 ^ (- ex)) by (apply Z.pow_pos_nonneg; lia). nia. }
  rewrite Hd. unfold fexp, emin.
  replace (Z.max (Z.log2 z + 1 - ex + ex - 53) (3 - 1024 - 53))
    with (Z.log2 z - 52) by lia.
  unfold shl_align.
  destruct (Z.log2 z - 52 - ex) as [|k|k] eqn:Ek.
  - assert (Hm : Zpos p = Zpos (fl_m z) * 2 ^ 0).
    { rewrite Hp, fl_m_val by exact Hz. rewrite Z.pow_0_r, Z.mul_1_r.
      f_equal. f_equal; lia. }
    rewrite Hm, round_aux_exact.
    + unfold fl_e. f_equal. lia.
    + now apply fl_m_digits.
    + lia.
    + lia.
  - assert (Hm : Zpos p = Zpos (fl_m z) * 2 ^ Zpos k).
    { rewrite Hp, fl_m_val by exact Hz. rewrite <- Z.mul_assoc.
      rewrite <- Z.pow_add_r by lia. f_equal. f_equal; lia. }
    rewrite Hm, round_aux_exact.
    + unfold fl_e. f_equal. lia.
    + now apply fl_m_digits.
    + lia.
    + lia.
  - assert (Hm : Zpos (Pos.iter xO p k) = Zpos (fl_m z) * 2 ^ 0).
    { rewrite iter_xO, Hp, fl_m_val by exact Hz. rewrite Z.pow_0_r, Z.mul_1_r.
      rewrite <- Z.mul_assoc. rewrite <- Z.pow_add_r by lia.
      f_equal. f_equal; lia. }
    rewrite Hm, round_aux_exact.
    + unfold fl_e. f_equal. lia.
    + now apply fl_m_digits.
    + lia.
    + lia.
Qed.

Lemma shl_align_val (mx : positive) (ex ez : Z) :
  ez <= ex -> Zpos (fst (shl_align mx ex ez)) = Zpos mx * 2 ^ (ex - ez).
Proof.
  intros H. unfold shl_align. destruct (ez - ex) as [|k|k] eqn:E.
  - replace (ex - ez) with 0 by lia. simpl fst. lia.
  - lia.
  - simpl fst. rewrite iter_xO. f_equal. f_equal. lia.
Qed.

Lemma fadd_fl (a b : Z) :
  0 < a -> 0 < b -> a + b < 2 ^ 53 -> fadd (fl a) (fl b) = fl (a + b).
Proof.
  intros Ha Hb Hab.
  assert (Ha' : 0 < a < 2 ^ 53) by lia.
  assert (Hb' : 0 < b < 2 ^ 53) by lia.
  pose proof (fl_e_range a Ha') as Hea. pose proof (fl_e_range b Hb') as Heb.
  unfold fl at 1 2. unfold fadd, SFadd. cbn [cond_Zopp].
  set (ez := Z.min (fl_e a) (fl_e b)).
  rewrite !shl_align_val by (unfold ez; lia).
  rewrite !fl_m_val by assumption.
  assert (Hsum : a * 2 ^ (52 - Z.log2 a) * 2 ^ (fl_e a - ez)
                 + b * 2 ^ (52 - Z.log2 b) * 2 ^ (fl_e b - ez)
                 = (a + b) * 2 ^ (- ez)).
  { rewrite <- !Z.mul_assoc. rewrite <- !Z.pow_add_r by (unfold fl_e in *; lia).
    replace (52 - Z.log2 a + (fl_e a - ez)) with (- ez) by (unfold fl_e; lia).
    replace (52 - Z.log2 b + (fl_e b - ez)) with (- ez) by (unfold fl_e; lia).
    ring. }
  rewrite Hsum.
  assert (Hpos : 0 < (a + b) * 2 ^ (- ez)).
  { apply Z.mul_pos_pos; [lia | apply Z.pow_pos_nonneg; unfold ez; lia]. }
  unfold binary_normalize.
  destruct ((a + b) * 2 ^ (- ez)) as [|p|p] eqn:E; try lia.
  apply (binary_round_val false); [lia | unfold ez; lia | now rewrite <- E].
Qed.

Lemma float_of_Z_0 : float_of_Z 0 = S754_zero false.
Proof. reflexivity. Qed.

(** Gathering one more digit is exact below [2^53]. *)
Lemma push_digit_exact (n : Z) (c : ascii) :
  0 <= n -> 10 * n + Z.of_N (digit_val c) < 2 ^ 53 ->
  push_digit (float_of_Z n) c = float_of_Z (10 * n + Z.of_N (digit_val c)).
Proof.
  intros Hn Hlt. unfold push_digit.
  set (d := Z.of_N (digit_val c)) in *.
  assert (Hd : 0 <= d) by (unfold d; lia).
  assert (H10 : float_of_Z 10 = fl 10) by (apply float_of_Z_fl; lia).
  destruct (Z.eq_dec n 0) as [->|Hn0].
  - rewrite float_of_Z_0. cbn [fmul SFmul]. rewrite H10. unfold fl at 1. cbn [SFmul xorb].
    replace (10 * 0 + d) with d by lia.
    destruct (Z.eq_dec d 0) as [->|Hd0]; [reflexivity|].
    rewrite float_of_Z_fl by lia. reflexivity.
  - rewrite (float_of_Z_fl n) by lia. rewrite H10.
    rewrite fmul_fl by lia.
    destruct (Z.eq_dec d 0) as [->|Hd0].
    + rewrite float_of_Z_0. replace (10 * n + 0) with (n * 10) by lia.
      rewrite (float_of_Z_fl (n * 10)) by lia. reflexivity.
    + rewrite (float_of_Z_fl d) by lia. rewrite fadd_fl by lia.
      rewrite float_of_Z_fl by lia. f_equal. lia.
Qed.

Lemma Zdigits2_nonneg (m : Z) : 0 <= Zdigits2 m.
Proof. destruct m; simpl; lia. Qed.

Lemma Zdigits2_lt (m : Z) : 0 <= m -> m < 2 ^ Zdigits2 m.
Proof.
  destruct m as [|p|p]; intros H; [simpl; lia | | lia].
  cbn [Zdigits2]. apply digits2_bounds.
Qed.

Lemma Zdigits2_le_bound (m d : Z) : 0 <= d -> 0 <= m < 2 ^ d -> Zdigits2 m <= d.
Proof.
  intros Hd [H1 H2]. destruct m as [|p|p]; [simpl; lia | | lia].
  cbn [Zdigits2]. pose proof (digits2_bounds p) as [H3 _].
  destruct (Z.leb_spec (Zpos (digits2_pos p)) d) as [|Hlt]; [assumption|].
  exfalso. assert (2 ^ d <= 2 ^ (Zpos (digits2_pos p) - 1))
    by (apply Z.pow_le_mono_r; lia). lia.
Qed.

Lemma shr_1_m (r : shr_record) : 0 <= shr_m r -> shr_m (shr_1 r) = shr_m r / 2.
Proof.
  destruct r as [m r s]. cbn [shr_m]. intros H.
  destruct m as [|[p|p|]|p]; cbn [shr_1 shr_m].
  - reflexivity.
  - rewrite Pos2Z.inj_xI. apply Z.div_unique with 1; lia.
  - rewrite Pos2Z.inj_xO. apply Z.div_unique with 0; lia.
  - reflexivity.
  - lia.
Qed.

Lemma shr_iter_m (n : nat) (r : shr_record) :
  0 <= shr_m r -> shr_m (Nat.iter n shr_1 r) = shr_m r / 2 ^ Z.of_nat n.
Proof.
  intros H. induction n as [|n IH].
  - simpl. now rewrite Z.div_1_r.
  - change (Nat.iter (S n) shr_1 r) with (shr_1 (Nat.iter n shr_1 r)).
    rewrite shr_1_m.
    + rewrite IH. rewrite Nat2Z.inj_succ, Z.pow_succ_r by lia.
      rewrite Z.div_div by (try lia; apply Z.pow_pos_nonneg; lia).
      f_equal. lia.
    + rewrite IH. apply Z.div_pos; [lia | apply Z.pow_pos_nonneg; lia].
Qed.

(** Where [shr_fexp] leaves the mantissa and the exponent. *)
Lemma shr_fexp_bounds (m e : Z) (l : location) :
  0 <= m ->
  let r := shr_fexp 53 1024 m e l in
  0 <= shr_m (fst r)
  /\ (snd r = e \/ snd r = fexp 53 1024 (Zdigits2 m + e))
  /\ Zdigits2 (shr_m (fst r)) + snd r <= Z.max (Zdigits2 m + e) (snd r).
Proof.
  intros Hm r. unfold r, shr_fexp, shr.
  set (n := fexp 53 1024 (Zdigits2 m + e) - e).
  assert (Hrec : shr_m (shr_record_of_loc m l) = m) by (destruct l as [|[]]; reflexivity).
  destruct n as [|p|p] eqn:En; cbn [fst snd].
  - rewrite Hrec. split; [lia|]. split; [now left|]. lia.
  - rewrite iter_pos_nat, shr_iter_m by (rewrite Hrec; lia). rewrite Hrec.
    rewrite positive_nat_Z.
    assert (Hp : 0 < 2 ^ Zpos p) by (apply Z.pow_pos_nonneg; lia).
    split; [apply Z.div_pos; lia|].
    split; [right; unfold n in En; lia|].
    pose proof (Zdigits2_lt m Hm) as Hlt.
    pose proof (Zdigits2_nonneg m) as Hd0.
    destruct (Z.leb_spec (Zpos p) (Zdigits2 m)) as [Hle|Hgt].
    + assert (Zdigits2 (m / 2 ^ Zpos p) <= Zdigits2 m - Zpos p).
      { apply Zdigits2_le_bound; [lia|]. split; [apply Z.div_pos; lia|].
        apply Z.div_lt_upper_bound; [lia|].
        rewrite <- Z.pow_add_r by lia.
        replace (Zpos p + (Zdigits2 m - Zpos p)) with (Zdigits2 m) by lia.
        exact Hlt. }
      lia.
    + assert (E0 : m / 2 ^ Zpos p = 0).
      { apply Z.div_small. split; [lia|].
        assert (2 ^ Zdigits2 m <= 2 ^ Zpos p) by (apply Z.pow_le_mono_r; lia). lia. }
      rewrite E0. cbn [Zdigits2]. lia.
  - rewrite Hrec. split; [lia|]. split; [now left|]. lia.
Qed.

Lemma round_nearest_even_bounds (m : Z) (l : location) :
  0 <= m -> m <= round_nearest_even m l <= m + 1.
Proof.
  intros H. destruct l as [|[]]; cbn [round_nearest_even]; try lia.
  destruct (Z.even m); lia.
Qed.

Lemma Zdigits2_succ (m : Z) : 0 <= m -> forall m', m <= m' <= m + 1 -> Zdigits2 m' <= Zdigits2 m + 1.
Proof.
  intros Hm m' Hm'. pose proof (Zdigits2_nonneg m) as Hd.
  apply Zdigits2_le_bound; [lia|]. split; [lia|].
  pose proof (Zdigits2_lt m Hm) as Hlt.
  rewrite Z.pow_add_r by lia. change (2 ^ 1) with 2. lia.
Qed.

(** No overflow when the value stays below [2^1023]. *)
Lemma round_aux_not_inf (s : bool) (mx ex : Z) (lx : location) :
  0 <= mx -> Zdigits2 mx + ex <= 1023 -> ex <= 971 ->
  is_inf (binary_round_aux 53 1024 s mx ex lx) = false.
Proof.
  intros Hm Hd He. unfold binary_round_aux.
  pose proof (shr_fexp_bounds mx ex lx Hm) as H1. cbn zeta in H1.
  destruct (shr_fexp 53 1024 mx ex lx) as [mrs' e'] eqn:E1.
  cbn [fst snd] in H1. destruct H1 as (Hm' & He' & Hd').
  set (m1 := round_nearest_even (shr_m mrs') (loc_of_shr_record mrs')).
  pose proof (round_nearest_even_bounds (shr_m mrs') (loc_of_shr_record mrs') Hm')
    as Hm1. fold m1 in Hm1.
  pose proof (Zdigits2_succ (shr_m mrs') Hm' m1 Hm1) as Hd1.
  assert (Hm1' : 0 <= m1) by lia.
  pose proof (shr_fexp_bounds m1 e' loc_Exact Hm1') as H2. cbn zeta in H2.
  destruct (shr_fexp 53 1024 m1 e' loc_Exact) as [mrs'' e''] eqn:E2.
  cbn [fst snd] in H2. destruct H2 as (Hm'' & He'' & _).
  assert (Hb : e'' <= 971).
  { unfold fexp, emin in He', He''. lia. }
  destruct (shr_m mrs'') as [|p|p]; [reflexivity | | reflexivity].
  replace (e'' <=? 1024 - 53) with true by (symmetry; apply Z.leb_le; lia).
  reflexivity.
Qed.

Lemma Zdigits2_mono (a b : Z) : 0 <= a <= b -> Zdigits2 a <= Zdigits2 b.
Proof.
  intros [Ha Hab]. apply Zdigits2_le_bound; [apply Zdigits2_nonneg|].
  split; [lia|]. pose proof (Zdigits2_lt b ltac:(lia)). lia.
Qed.

Lemma Zdigits2_shift (m k : Z) : 0 < m -> 0 <= k -> Zdigits2 (m * 2 ^ k) = Zdigits2 m + k.
Proof.
  intros Hm Hk.
  assert (Hp : 0 < 2 ^ k) by (apply Z.pow_pos_nonneg; lia).
  destruct m as [|p|p]; try lia.
  destruct (Zpos p * 2 ^ k) as [|q|q] eqn:E; try lia.
  cbn [Zdigits2]. apply digits2_unique. rewrite <- E.
  pose proof (digits2_bounds p) as [H1 H2].
  assert (E1 : 2 ^ (Zpos (digits2_pos p) + k - 1) = 2 ^ (Zpos (digits2_pos p) - 1) * 2 ^ k).
  { rewrite <- Z.pow_add_r by lia. f_equal; lia. }
  rewrite E1, Z.pow_add_r by lia. nia.
Qed.

(** The quotient of two floats of moderate size is no infinity. *)
Lemma fdiv_not_inf (sx sy : bool) (mx my : positive) (ex ey : Z) :
  Zpos (digits2_pos mx) + ex - ey <= 1023 -> ex - ey <= 971 ->
  is_inf (fdiv (S754_finite sx mx ex) (S754_finite sy my ey)) = false.
Proof.
  intros Hd He. unfold fdiv, SFdiv, SFdiv_core_binary.
  set (e' := Z.min _ (ex - ey)).
  set (s := ex - ey - e').
  assert (Hs : 0 <= s) by (unfold s, e'; lia).
  set (m' := match s with
             | 0 => Zpos mx
             | Zpos _ => Z.shiftl (Zpos mx) s
             | Zneg _ => 0
             end).
  assert (Hm' : m' = Zpos mx * 2 ^ s).
  { unfold m'. destruct s as [|p|p]; try lia.
    now rewrite Z.shiftl_mul_pow2 by lia. }
  pose proof (Z_div_mod m' (Zpos my) ltac:(lia)) as Hdm.
  destruct (Z.div_eucl m' (Zpos my)) as [q r]. destruct Hdm as [Hq Hr].
  assert (Hp : 0 < 2 ^ s) by (apply Z.pow_pos_nonneg; lia).
  assert (Hq0 : 0 <= q) by nia.
  assert (Hqm : q <= m') by nia.
  apply round_aux_not_inf.
  - exact Hq0.
  - pose proof (Zdigits2_mono q m' ltac:(lia)) as Hmono.
    rewrite Hm', Zdigits2_shift in Hmono by lia. cbn [Zdigits2] in Hmono.
    unfold s in Hmono. lia.
  - unfold e'. lia.
Qed.

Local Close Scope Z_scope.

(** ** Rounding to an integer *)

Local Open Scope Q_scope.

Lemma Qabs_inject_Z (z : Z) : Qabs (inject_Z z) = inject_Z (Z.abs z).
Proof. reflexivity. Qed.

Lemma inject_Z_pos (p : Z) : (0 < p)%Z -> 0 < inject_Z p.
Proof. intros H. unfold Qlt. simpl. lia. Qed.

Lemma Q_pos_nonzero (x : Q) : 0 < x -> ~ x == 0.
Proof. intros H E. rewrite E in H. exact (Qlt_irrefl 0 H). Qed.

(** The distance from the integer [a] to [b / p]. *)
Lemma integer_distance (a b p : Z) :
  (0 < p)%Z ->
  Qabs (inject_Z a - inject_Z b * / inject_Z p)
  == / inject_Z p * inject_Z (Z.abs (a * p - b)).
Proof.
  intros Hp.
  assert (HP : ~ inject_Z p == 0) by now apply Q_pos_nonzero, inject_Z_pos.
  assert (E : inject_Z a - inject_Z b * / inject_Z p
              == / inject_Z p * inject_Z (a * p - b)).
  { unfold Z.sub. rewrite inject_Z_plus, inject_Z_mult, inject_Z_opp. field.
    exact HP. }
  rewrite E, Qabs_Qmult, Qabs_inject_Z.
  rewrite Qabs_pos; [reflexivity|].
  apply Qlt_le_weak, Qinv_lt_0_compat. now apply inject_Z_pos.
Qed.

Lemma half_bound (z p : Z) :
  (0 < p)%Z ->
  ((2 * z <= p)%Z <-> / inject_Z p * inject_Z z <= 1 # 2)
  /\ ((2 * z = p)%Z <-> / inject_Z p * inject_Z z == 1 # 2).
Proof.
  intros Hp.
  assert (HP : 0 < inject_Z p) by now apply inject_Z_pos.
  assert (HP0 : ~ inject_Z p == 0) by now apply Q_pos_nonzero.
  assert (Hc : 0 < / inject_Z p) by now apply Qinv_lt_0_compat.
  assert (Hc0 : ~ / inject_Z p == 0) by now apply Q_pos_nonzero.
  assert (Hh : (1 # 2) == / inject_Z p * ((1 # 2) * inject_Z p))
    by (field; exact HP0).
  split.
  - rewrite Hh, (Qmult_le_l _ _ _ Hc).
    assert (E2 : inject_Z z <= (1 # 2) * inject_Z p
                 <-> inject_Z (2 * z) <= inject_Z p).
    { rewrite inject_Z_mult.
      rewrite <- (Qmult_le_l (inject_Z z) ((1 # 2) * inject_Z p) (inject_Z 2))
        by reflexivity.
      assert (E3 : inject_Z 2 * ((1 # 2) * inject_Z p) == inject_Z p) by ring.
      now rewrite E3. }
    rewrite E2, <- Zle_Qle. reflexivity.
  - rewrite Hh, (Qmult_inj_l _ _ _ Hc0).
    assert (E2 : inject_Z z == (1 # 2) * inject_Z p
                 <-> inject_Z (2 * z) == inject_Z p).
    { rewrite inject_Z_mult.
      rewrite <- (Qmult_inj_l (inject_Z z) ((1 # 2) * inject_Z p) (inject_Z 2))
        by discriminate.
      assert (E3 : inject_Z 2 * ((1 # 2) * inject_Z p) == inject_Z p) by ring.
      now rewrite E3. }
    rewrite E2, inject_Z_injective. reflexivity.
Qed.

Local Close Scope Q_scope.
Local Open Scope Z_scope.

(** The neighbour that [rint] takes. *)
Lemma rint_choice (m p : Z) :
  0 <= m -> 0 < p ->
  let q := m / p in
  let r := m mod p in
  let k := match 2 * r ?= p with
           | Lt => q
           | Gt => q + 1
           | Eq => if Z.even q then q else q + 1
           end in
  0 <= k <= q + 1
  /\ 2 * Z.abs (k * p - m) <= p
  /\ (2 * Z.abs (k * p - m) = p -> Z.even k = true).
Proof.
  intros Hm Hp q r k.
  pose proof (Z.div_mod m p ltac:(lia)) as Hdm. fold q in Hdm. fold r in Hdm.
  pose proof (Z.mod_pos_bound m p Hp) as Hlt. fold r in Hlt.
  assert (Hq : 0 <= q) by (apply Z.div_pos; lia).
  unfold k. destruct (Z.compare_spec (2 * r) p) as [E|E|E].
  - destruct (Z.even q) eqn:Ev.
    + split; [lia|]. split; [nia | auto].
    + split; [lia|]. split; [nia|]. intros _.
      rewrite Z.add_1_r, Z.even_succ. rewrite <- Z.negb_even. now rewrite Ev.
  - split; [lia|]. split; [nia | nia].
  - split; [lia|]. split; [nia | nia].
Qed.

Lemma pow2_Q (n : Z) : 0 <= n -> (inject_Z (2 ^ n) == inject_Z 2 ^ n)%Q.
Proof. apply Zpower_Qpower. Qed.

Lemma pow2_neg_Q (e : Z) :
  e <= 0 -> (inject_Z 2 ^ e == / inject_Z (2 ^ (- e)))%Q.
Proof.
  intros He. rewrite pow2_Q by lia. rewrite <- Qpower_opp.
  now rewrite Z.opp_involutive.
Qed.

Lemma signed_mantissa (s : bool) (m : positive) :
  (if s then Zneg m else Zpos m) = cond_Zopp s (Zpos m).
Proof. now destruct s. Qed.

(** The value of the float that holds an integer. *)
Lemma float_Q_holds (s : bool) (k : Z) :
  0 < k < 2 ^ 53 ->
  (float_Q (S754_finite s (fl_m k) (fl_e k)) == inject_Z (cond_Zopp s k))%Q.
Proof.
  intros Hk. unfold float_Q. rewrite signed_mantissa.
  pose proof (fl_e_range k Hk) as He.
  rewrite pow2_neg_Q by lia.
  assert (Hv : cond_Zopp s (Zpos (fl_m k)) = cond_Zopp s k * 2 ^ (- fl_e k)).
  { rewrite fl_m_val by exact Hk. unfold fl_e.
    replace (- (Z.log2 k - 52)) with (52 - Z.log2 k) by lia.
    destruct s; cbn [cond_Zopp]; lia. }
  rewrite Hv, inject_Z_mult.
  assert (Hp : (0 < inject_Z (2 ^ (- fl_e k)))%Q)
    by (apply inject_Z_pos, Z.pow_pos_nonneg; lia).
  field. now apply Q_pos_nonzero.
Qed.

(** [rint] of a float gives the float that holds the nearest integer, the
    even one of two that are as near. *)
Lemma rint_nearest (s : bool) (m : positive) (e : Z) :
  Zpos m < 2 ^ 53 ->
  let x := S754_finite s m e in
  exists k : Z,
    (rint x = S754_zero s \/ exists m' e', rint x = S754_finite s m' e')
    /\ (float_Q (rint x) == inject_Z k)%Q
    /\ (Qabs (inject_Z k - float_Q x) <= 1 # 2)%Q
    /\ ((Qabs (inject_Z k - float_Q x) == 1 # 2)%Q -> Z.even k = true).
Proof.
  intros Hm x. unfold x. cbn [rint].
  destruct (Z.leb_spec 0 e) as [He|He].
  - exists (cond_Zopp s (Zpos m) * 2 ^ e).
    split; [right; eauto|].
    assert (Hv : (float_Q (S754_finite s m e)
                  == inject_Z (cond_Zopp s (Zpos m) * 2 ^ e))%Q).
    { unfold float_Q. rewrite signed_mantissa, inject_Z_mult, pow2_Q by lia.
      reflexivity. }
    split; [exact Hv|].
    assert (Hd : (Qabs (inject_Z (cond_Zopp s (Zpos m) * 2 ^ e)
                        - float_Q (S754_finite s m e)) == 0)%Q).
    { rewrite Hv. setoid_replace (inject_Z (cond_Zopp s (Zpos m) * 2 ^ e)
                             - inject_Z (cond_Zopp s (Zpos m) * 2 ^ e))%Q
        with 0%Q by ring. reflexivity. }
    split.
    + rewrite Hd. discriminate.
    + intros H. rewrite Hd in H. discriminate.
  - set (p := 2 ^ (- e)).
    assert (Hp : 0 < p) by (apply Z.pow_pos_nonneg; lia).
    pose proof (rint_choice (Zpos m) p ltac:(lia) Hp) as Hc. cbn zeta in Hc.
    set (k := match 2 * (Zpos m mod p) ?= p with
              | Lt => Zpos m / p
              | Gt => Zpos m / p + 1
              | Eq => if Z.even (Zpos m / p) then Zpos m / p else Zpos m / p + 1
              end) in *.
    destruct Hc as (Hk & Hhalf & Heven).
    assert (Hq : Zpos m / p <= Zpos m / 2).
    { apply Z.div_le_compat_l; [lia|]. split; [lia|].
      unfold p. replace (- e) with (Z.succ (- e - 1)) by lia.
      rewrite Z.pow_succ_r by lia.
      assert (0 < 2 ^ (- e - 1)) by (apply Z.pow_pos_nonneg; lia). lia. }
    assert (Hk53 : k < 2 ^ 53).
    { assert (Zpos m / 2 < 2 ^ 52).
      { apply Z.div_lt_upper_bound; [lia|]. change (2 * 2 ^ 52) with (2 ^ 53). lia. }
      change (2 ^ 53) with (2 * 2 ^ 52). lia. }
    exists (cond_Zopp s k).
    assert (Hx : (float_Q (S754_finite s m e)
                  == inject_Z (cond_Zopp s (Zpos m)) * / inject_Z p)%Q).
    { unfold float_Q. rewrite signed_mantissa, pow2_neg_Q by lia. reflexivity. }
    assert (Hdist : (Qabs (inject_Z (cond_Zopp s k) - float_Q (S754_finite s m e))
                     == / inject_Z p * inject_Z (Z.abs (k * p - Zpos m)))%Q).
    { rewrite Hx, integer_distance by exact Hp.
      replace (Z.abs (cond_Zopp s k * p - cond_Zopp s (Zpos m)))
        with (Z.abs (k * p - Zpos m)) by (destruct s; cbn [cond_Zopp]; lia).
      reflexivity. }
    destruct (half_bound (Z.abs (k * p - Zpos m)) p Hp) as [Hle Heq].
    assert (Hval : (rint (S754_finite s m e) = S754_zero s
                    \/ exists m' e', rint (S754_finite s m e) = S754_finite s m' e')
                   /\ (float_Q (rint (S754_finite s m e))
                       == inject_Z (cond_Zopp s k))%Q).
    { cbn [rint]. replace (0 <=? e) with false by (symmetry; apply Z.leb_gt; lia).
      fold p. fold k.
      destruct (Z.eq_dec k 0) as [E0|Hk0].
      - rewrite E0. replace (if s then - 0 else 0) with 0 by (now destruct s).
        cbn [binary_normalize float_Q]. split; [now left|].
        destruct s; reflexivity.
      - assert (Hkpos : 0 < k < 2 ^ 53) by lia.
        assert (Hn : binary_normalize 53 1024 (if s then - k else k) 0 s
                     = S754_finite s (fl_m k) (fl_e k)).
        { destruct k as [|pk|pk] eqn:Ek; try lia.
          destruct s; cbn [Z.opp binary_normalize];
            apply binary_round_val; try lia;
            rewrite Z.pow_0_r, Z.mul_1_r; reflexivity. }
        rewrite Hn. split; [right; eauto|]. now apply float_Q_holds. }
    cbn [rint] in Hval.
    replace (0 <=? e) with false in Hval by (symmetry; apply Z.leb_gt; lia).
    fold p in Hval. fold k in Hval.
    destruct Hval as [Hform Hv].
    split; [exact Hform|]. split; [exact Hv|]. split.
    + rewrite Hdist. now apply Hle.
    + intros H. rewrite Hdist in H. apply Heq in H.
      destruct s; cbn [cond_Zopp]; [rewrite Z.even_opp|]; now apply Heven.
Qed.

Local Close Scope Z_scope.

(** ** Decimal digits *)

Lemma digit_char_is_digit (d : N) : (d < 10)%N -> is_digit (digit_char d) = true.
Proof.
  intros H. unfold is_digit, digit_char.
  rewrite nat_ascii_embedding by lia.
  apply andb_true_iff. split; apply Nat.leb_le; lia.
Qed.

Lemma digit_val_char (d : N) : (d < 10)%N -> digit_val (digit_char d) = d.
Proof.
  intros H. unfold digit_val, digit_char.
  rewrite nat_ascii_embedding by lia. lia.
Qed.

Lemma digits_val_app (a : N) (s1 s2 : string) :
  digits_val a (s1 ++ s2) = digits_val (digits_val a s1) s2.
Proof. revert a. induction s1 as [|c s1 IH]; intros a; simpl; [reflexivity|apply IH]. Qed.

Lemma string_forall_app (p : ascii -> bool) (s1 s2 : string) :
  string_forall p (s1 ++ s2) = string_forall p s1 && string_forall p s2.
Proof.
  induction s1 as [|c s1 IH]; simpl; [reflexivity|].
  now rewrite IH, andb_assoc.
Qed.

Lemma length_append (s1 s2 : string) :
  String.length (s1 ++ s2) = String.length s1 + String.length s2.
Proof. induction s1 as [|c s1 IH]; simpl; [|rewrite IH]; reflexivity. Qed.

Lemma append_assoc (s1 s2 s3 : string) :
  ((s1 ++ s2) ++ s3 = s1 ++ (s2 ++ s3))%string.
Proof. induction s1 as [|c s1 IH]; simpl; [|rewrite IH]; reflexivity. Qed.

Lemma digits_of_S (k : nat) (n : N) (acc : string) :
  digits_of (S k) n acc
  = if (n <? 10)%N then String (digit_char (n mod 10)) acc
    else digits_of k (n / 10)%N (String (digit_char (n mod 10)) acc).
Proof. reflexivity. Qed.

(** The digits that [digits_of] puts in front of [acc]. *)
Lemma digits_of_spec (k : nat) (n : N) (acc : string) :
  (n < 2 ^ N.of_nat (S k))%N ->
  exists ds,
    digits_of (S k) n acc = (ds ++ acc)%string
    /\ string_forall is_digit ds = true
    /\ Py.truthy ds = true
    /\ forall a, digits_val a ds = (a * 10 ^ N.of_nat (String.length ds) + n)%N.
Proof.
  revert n acc. induction k as [|k IH]; intros n acc Hn.
  - assert (Hlt : (n < 10)%N) by (change (2 ^ N.of_nat 1)%N with 2%N in Hn; lia).
    rewrite digits_of_S, N.mod_small by exact Hlt.
    replace (n <? 10)%N with true by (symmetry; now apply N.ltb_lt).
    exists (String (digit_char n) EmptyString). split; [reflexivity|].
    split; [cbn [string_forall]; now rewrite digit_char_is_digit|].
    split; [reflexivity|].
    intros a. cbn [digits_val String.length]. rewrite digit_val_char by exact Hlt.
    change (N.of_nat 1) with 1%N. lia.
  - rewrite digits_of_S. destruct (N.ltb_spec n 10) as [Hlt|Hge].
    + rewrite N.mod_small by exact Hlt.
      exists (String (digit_char n) EmptyString). split; [reflexivity|].
      split; [cbn [string_forall]; now rewrite digit_char_is_digit|].
      split; [reflexivity|].
      intros a. cbn [digits_val String.length]. rewrite digit_val_char by exact Hlt.
      change (N.of_nat 1) with 1%N. lia.
    + assert (Hdiv : (n / 10 < 2 ^ N.of_nat (S k))%N).
      { rewrite Nat2N.inj_succ, N.pow_succ_r' in Hn.
        apply N.Div0.div_lt_upper_bound. lia. }
      destruct (IH (n / 10)%N (String (digit_char (n mod 10)) acc) Hdiv)
        as (ds & Hds & Hall & Hne & Hval).
      exists (ds ++ String (digit_char (n mod 10)) EmptyString)%string.
      assert (Hmod : (n mod 10 < 10)%N) by (apply N.mod_lt; discriminate).
      split; [rewrite Hds; now rewrite append_assoc|].
      split.
      { rewrite string_forall_app, Hall. cbn [string_forall andb].
        now rewrite digit_char_is_digit. }
      split; [now destruct ds|].
      intros a. rewrite digits_val_app, Hval. cbn [digits_val].
      rewrite digit_val_char by exact Hmod. rewrite length_append.
      cbn [String.length].
      rewrite Nat.add_1_r, Nat2N.inj_succ, N.pow_succ_r'.
      pose proof (N.div_mod n 10 ltac:(discriminate)) as Hdm. lia.
Qed.

Lemma append_empty (s : string) : (s ++ EmptyString)%string = s.
Proof. induction s as [|c s IH]; simpl; [|rewrite IH]; reflexivity. Qed.

Lemma str_N_spec (n : N) :
  string_forall is_digit (str_N n) = true
  /\ Py.truthy (str_N n) = true
  /\ forall a, digits_val a (str_N n)
               = (a * 10 ^ N.of_nat (String.length (str_N n)) + n)%N.
Proof.
  unfold str_N.
  assert (Hn : (n < 2 ^ N.of_nat (S (N.to_nat (N.log2 n))))%N).
  { rewrite Nat2N.inj_succ, N2Nat.id. destruct n as [|p]; [reflexivity|].
    apply N.log2_spec. reflexivity. }
  destruct (digits_of_spec (N.to_nat (N.log2 n)) n EmptyString Hn)
    as (ds & Hds & Hall & Hne & Hval).
  rewrite Hds, append_empty. auto.
Qed.

Lemma digits_val_str_N (n : N) : digits_val 0 (str_N n) = n.
Proof. destruct (str_N_spec n) as (_ & _ & H). rewrite H. lia. Qed.

(** ** Reading a printed number back *)



Lemma span_digits_all (ds : string) :
  string_forall is_digit ds = true -> span_digits ds = (ds, EmptyString).
Proof.
  induction ds as [|c ds IH]; simpl; [reflexivity|].
  intros H. apply andb_true_iff in H. destruct H as [H1 H2].
  now rewrite H1, IH.
Qed.

Lemma span_digits_stop (ds : string) (c : ascii) (rest : string) :
  string_forall is_digit ds = true -> is_digit c = false ->
  span_digits (ds ++ String c rest) = (ds, String c rest).
Proof.
  intros Hds Hc. induction ds as [|c0 ds IH]; simpl.
  - now rewrite Hc.
  - simpl in Hds. apply andb_true_iff in Hds. destruct Hds as [H1 H2].
    now rewrite H1, IH.
Qed.


(** ** The parser on a literal with few digits *)

Lemma digit_val_le (c : ascii) : is_digit c = true -> (digit_val c <= 9)%N.
Proof.
  unfold is_digit, digit_val. intros H. apply andb_true_iff in H.
  destruct H as [H1 H2]. apply Nat.leb_le in H1, H2. lia.
Qed.

Lemma digits_val_ge (s : string) (a : N) : (a <= digits_val a s)%N.
Proof.
  revert a. induction s as [|c s IH]; intros a; cbn [digits_val]; [lia|].
  specialize (IH (10 * a + digit_val c)%N). lia.
Qed.

Lemma digits_val_lt (s : string) (a : N) :
  string_forall is_digit s = true ->
  (digits_val a s < (a + 1) * 10 ^ N.of_nat (String.length s))%N.
Proof.
  revert a. induction s as [|c s IH]; intros a H.
  - cbn [digits_val String.length]. simpl N.of_nat. lia.
  - cbn [string_forall] in H. apply andb_true_iff in H. destruct H as [Hc Hs].
    cbn [digits_val String.length]. specialize (IH (10 * a + digit_val c)%N Hs).
    pose proof (digit_val_le c Hc) as Hd.
    rewrite Nat2N.inj_succ, N.pow_succ_r'.
    assert (Hp : (0 < 10 ^ N.of_nat (String.length s))%N)
      by (apply N.neq_0_lt_0, N.pow_nonzero; discriminate).
    nia.
Qed.

Lemma pow10_15 : (10 ^ 15 < 2 ^ 53)%Z.
Proof. reflexivity. Qed.

Lemma digits_val_small (s : string) :
  string_forall is_digit s = true -> String.length s <= 15 ->
  (Z.of_N (digits_val 0 s) < 10 ^ 15)%Z.
Proof.
  intros Hs Hlen. pose proof (digits_val_lt s 0 Hs) as H.
  assert (Hp : (10 ^ N.of_nat (String.length s) <= 10 ^ 15)%N)
    by (apply N.pow_le_mono_r; [discriminate | lia]).
  change (10 ^ 15)%Z with (Z.of_N (10 ^ 15)). lia.
Qed.

Lemma int_part_exact (ds : string) (n : N) (k : nat) (e : Z) :
  string_forall is_digit ds = true ->
  k + String.length ds <= 17 ->
  (Z.of_N (digits_val n ds) < 2 ^ 53)%Z ->
  int_part ds (float_of_Z (Z.of_N n)) k e
  = (float_of_Z (Z.of_N (digits_val n ds)), k + String.length ds, e).
Proof.
  revert n k. induction ds as [|c ds IH]; intros n k Hd Hk Hlt.
  - cbn [int_part digits_val String.length]. now rewrite Nat.add_0_r.
  - cbn [string_forall] in Hd. apply andb_true_iff in Hd. destruct Hd as [Hc Hd].
    cbn [int_part digits_val String.length] in *.
    replace (k <? max_digits) with true
      by (symmetry; apply Nat.ltb_lt; unfold max_digits; lia).
    pose proof (digits_val_ge ds (10 * n + digit_val c)%N) as Hge.
    rewrite push_digit_exact by lia.
    replace (10 * Z.of_N n + Z.of_N (digit_val c))%Z
      with (Z.of_N (10 * n + digit_val c)) by lia.
    rewrite IH by (try assumption; lia).
    f_equal. f_equal. lia.
Qed.

Lemma frac_part_exact (ds : string) (n : N) (k : nat) (dec : Z) :
  string_forall is_digit ds = true ->
  k + String.length ds <= 17 ->
  (Z.of_N (digits_val n ds) < 2 ^ 53)%Z ->
  frac_part ds (float_of_Z (Z.of_N n)) k dec
  = (float_of_Z (Z.of_N (digits_val n ds)), k + String.length ds,
     (dec + Z.of_nat (String.length ds))%Z).
Proof.
  revert n k dec. induction ds as [|c ds IH]; intros n k dec Hd Hk Hlt.
  - cbn [frac_part digits_val String.length]. rewrite Nat.add_0_r.
    f_equal. simpl. lia.
  - cbn [string_forall] in Hd. apply andb_true_iff in Hd. destruct Hd as [Hc Hd].
    cbn [frac_part digits_val String.length] in *.
    replace (k <? max_digits) with true
      by (symmetry; apply Nat.ltb_lt; unfold max_digits; lia).
    pose proof (digits_val_ge ds (10 * n + digit_val c)%N) as Hge.
    rewrite push_digit_exact by lia.
    replace (10 * Z.of_N n + Z.of_N (digit_val c))%Z
      with (Z.of_N (10 * n + digit_val c)) by lia.
    rewrite IH by (try assumption; lia).
    f_equal; [f_equal; lia | lia].
Qed.

Lemma split_sign_literal (neg point : bool) (ip fp : string) :
  string_forall is_digit ip = true ->
  split_sign (literal_text neg point ip fp)
  = (neg, (ip ++ (if point then String "." fp else ""))%string).
Proof.
  intros Hip. unfold literal_text. destruct neg; [reflexivity|].
  cbn [append]. destruct ip as [|c ip].
  - destruct point; reflexivity.
  - cbn [string_forall] in Hip. apply andb_true_iff in Hip. destruct Hip as [Hc _].
    cbn [append split_sign].
    destruct (Ascii.eqb_spec c "-") as [->|_]; [discriminate | reflexivity].
Qed.

Lemma span_digits_literal (point : bool) (ip fp : string) :
  string_forall is_digit ip = true ->
  span_digits (ip ++ (if point then String "." fp else ""))
  = (ip, if point then String "." fp else "").
Proof.
  intros Hip. destruct point.
  - now apply span_digits_stop.
  - rewrite append_empty. now apply span_digits_all.
Qed.

Lemma pow10_fl (k : nat) :
  k <= 15 -> float_of_Z (10 ^ Z.of_nat k) = fl (10 ^ Z.of_nat k).
Proof.
  intros Hk. apply float_of_Z_fl. split; [apply Z.pow_pos_nonneg; lia|].
  apply Z.le_lt_trans with (10 ^ 15)%Z; [apply Z.pow_le_mono_r; lia | reflexivity].
Qed.

(** The quotient by the power of ten is no infinity. *)
Lemma literal_quotient_finite (neg : bool) (m : Z) (k : nat) :
  (0 <= m < 2 ^ 53)%Z -> k <= 15 ->
  is_inf (fdiv (if neg then fneg (float_of_Z m) else float_of_Z m)
            (float_of_Z (10 ^ Z.of_nat k))) = false.
Proof.
  intros Hm Hk. rewrite (pow10_fl k Hk).
  assert (H10 : (0 < 10 ^ Z.of_nat k < 2 ^ 53)%Z).
  { split; [apply Z.pow_pos_nonneg; lia|].
    apply Z.le_lt_trans with (10 ^ 15)%Z; [apply Z.pow_le_mono_r; lia | reflexivity]. }
  pose proof (fl_e_range _ H10) as He10.
  destruct (Z.eq_dec m 0) as [->|Hm0].
  - rewrite float_of_Z_0. unfold fl. destruct neg; reflexivity.
  - rewrite (float_of_Z_fl m) by lia.
    pose proof (fl_e_range m ltac:(lia)) as Hem.
    pose proof (fl_m_digits m ltac:(lia)) as Hdm.
    unfold fl. destruct neg; cbn [fneg SFopp]; apply fdiv_not_inf; lia.
Qed.

(** On a literal of at most 15 digits the parser gives the quotient of the
    integer that the digits spell by the power of ten of the decimals. *)
Lemma floatify_short (t : string) (neg point : bool) (ip fp : string) :
  is_literal t neg point ip fp ->
  String.length ip + String.length fp <= 15 ->
  floatify t = Some (literal_float neg ip fp, negb point).
Proof.
  intros (-> & Hip & Hfp & Hne & Hpt) Hlen. unfold floatify.
  rewrite (split_sign_literal neg point ip fp Hip).
  rewrite (span_digits_literal point ip fp Hip).
  assert (Hall : string_forall is_digit (ip ++ fp) = true)
    by (rewrite string_forall_app, Hip, Hfp; reflexivity).
  assert (Hlen' : String.length (ip ++ fp) <= 15) by (rewrite length_append; lia).
  pose proof (digits_val_small (ip ++ fp) Hall Hlen') as HM.
  pose proof pow10_15 as H53.
  assert (HM1 : (Z.of_N (digits_val 0 ip) < 2 ^ 53)%Z).
  { pose proof (digits_val_ge fp (digits_val 0 ip)) as Hge.
    rewrite digits_val_app in HM. lia. }
  change (S754_zero false) with (float_of_Z (Z.of_N 0)).
  rewrite (int_part_exact ip 0 0 0 Hip) by (try assumption; lia).
  cbn [Nat.add].
  assert (Hfin : forall k, k <= 15 ->
            is_inf (fdiv (if neg
                          then fneg (float_of_Z (Z.of_N (digits_val 0 (ip ++ fp))))
                          else float_of_Z (Z.of_N (digits_val 0 (ip ++ fp))))
                      (float_of_Z (10 ^ Z.of_nat k))) = false).
  { intros k Hk. apply literal_quotient_finite; [lia | exact Hk]. }
  destruct point.
  - rewrite (span_digits_all fp Hfp).
    rewrite (frac_part_exact fp (digits_val 0 ip) (String.length ip) 0 Hfp)
      by (rewrite <- ?digits_val_app; lia).
    rewrite <- digits_val_app.
    unfold finish_number.
    destruct (String.length ip + String.length fp) as [|n] eqn:En.
    { exfalso. apply Hne. destruct ip; [|discriminate]. destruct fp; [reflexivity | discriminate]. }
    cbn [Nat.eqb]. unfold scale.
    replace (0 - (0 + Z.of_nat (String.length fp)))%Z
      with (- Z.of_nat (String.length fp))%Z by lia.
    replace (308 <? - Z.of_nat (String.length fp))%Z with false
      by (symmetry; apply Z.ltb_ge; lia).
    replace (0 <? - Z.of_nat (String.length fp))%Z with false
      by (symmetry; apply Z.ltb_ge; lia).
    replace (- Z.of_nat (String.length fp) <? -308)%Z with false
      by (symmetry; apply Z.ltb_ge; lia).
    rewrite Z.opp_involutive. unfold e_table.
    rewrite (Hfin (String.length fp)) by lia. reflexivity.
  - rewrite (Hpt eq_refl) in *. rewrite append_empty in *.
    unfold finish_number.
    destruct (String.length ip) as [|n] eqn:En.
    { exfalso. apply Hne. destruct ip; [reflexivity | discriminate]. }
    cbn [Nat.eqb]. unfold scale. cbn [Z.ltb Z.compare Z.opp].
    unfold e_table. pose proof (Hfin 0 ltac:(lia)) as H0.
    cbn [String.length Z.of_nat] in H0. rewrite H0.
    unfold literal_float. rewrite append_empty. reflexivity.
Qed.

Lemma int_of_literal (neg : bool) (ip : string) :
  string_forall is_digit ip = true ->
  int_of_text (literal_text neg false ip "") = signed neg (digits_val 0 ip).
Proof.
  intros Hip. unfold int_of_text.
  rewrite (split_sign_literal neg false ip "" Hip). now rewrite append_empty.
Qed.


(** ** What the stripping keeps and what the parser reads *)

Lemma filter_chars_list (p : ascii -> bool) (s : string) :
  list_ascii_of_string (filter_chars p s) = filter p (list_ascii_of_string s).
Proof.
  induction s as [|c s IH]; [reflexivity|]. simpl.
  destruct (p c); simpl; now rewrite IH.
Qed.

Lemma strip_keeps (s : string) :
  list_ascii_of_string (strip_non_numeric s)
  = filter kept_char (list_ascii_of_string s).
Proof.
  unfold strip_non_numeric. rewrite filter_chars_list.
  apply filter_ext. intros c. apply numeric_char_class.
Qed.

Lemma span_digits_parts (s : string) :
  string_forall is_digit (fst (span_digits s)) = true
  /\ s = (fst (span_digits s) ++ snd (span_digits s))%string.
Proof.
  induction s as [|c s [IH1 IH2]]; [now split|]. simpl.
  destruct (is_digit c) eqn:E; [|now split].
  destruct (span_digits s) as [ds rest]. simpl in *.
  rewrite E, IH1. split; [reflexivity | now rewrite IH2 at 1].
Qed.

Lemma split_sign_parts (s : string) :
  s = ((if fst (split_sign s) then "-" else "") ++ snd (split_sign s))%string.
Proof.
  destruct s as [|c s]; [reflexivity|]. simpl.
  destruct (Ascii.eqb_spec c "-") as [->|_]; reflexivity.
Qed.

Lemma finish_number_digits (neg : bool) (number : pyfloat) (k : nat)
    (exponent : Z) (b : bool) :
  finish_number neg number k exponent b <> None -> k <> 0.
Proof. unfold finish_number. destruct k; simpl; [congruence | discriminate]. Qed.

Lemma int_part_digits (ds : string) (number : pyfloat) (k : nat) (e : Z) :
  snd (fst (int_part ds number k e)) <> 0 -> k <> 0 \/ ds <> "".
Proof. destruct ds; [simpl; auto | right; discriminate]. Qed.

Lemma frac_part_digits (ds : string) (number : pyfloat) (k : nat) (e : Z) :
  snd (fst (frac_part ds number k e)) <> 0 -> k <> 0 \/ ds <> "".
Proof. destruct ds; [simpl; auto | right; discriminate]. Qed.

(** The parser reads decimal literals only, and takes for an integer one
    only a literal without point. *)
Lemma floatify_parts (t : string) (v : pyfloat) (b : bool) :
  floatify t = Some (v, b) ->
  exists neg ip fp, is_literal t neg (negb b) ip fp.
Proof.
  unfold floatify. intros H.
  pose proof (split_sign_parts t) as Ht.
  destruct (split_sign t) as [neg s1]. simpl in Ht.
  destruct (span_digits_parts s1) as [Hip Hs1].
  destruct (span_digits s1) as [ip s2]. simpl in Hip, Hs1.
  pose proof (int_part_digits ip (S754_zero false) 0 0) as Hk1.
  destruct (int_part ip (S754_zero false) 0 0) as [[n1 k1] e1]. simpl in Hk1.
  destruct s2 as [|c s3].
  - assert (Hb : b = true).
    { unfold finish_number in H. destruct (k1 =? 0); [discriminate|].
      destruct (scale _ e1); [|discriminate]. now inversion H. }
    assert (Hn : finish_number neg n1 k1 e1 true <> None) by congruence.
    apply finish_number_digits in Hn. subst b. exists neg, ip, "".
    split; [unfold literal_text; cbn [negb]; now rewrite Ht, Hs1|].
    split; [exact Hip|]. split; [reflexivity|]. split; [|reflexivity].
    destruct (Hk1 Hn) as [|Hne]; [congruence|].
    destruct ip; [congruence | discriminate].
  - destruct (Ascii.eqb_spec c ".") as [->|]; [|discriminate].
    destruct (span_digits_parts s3) as [Hfp Hs3].
    destruct (span_digits s3) as [fp s4]. simpl in Hfp, Hs3.
    pose proof (frac_part_digits fp n1 k1 0) as Hk2.
    destruct (frac_part fp n1 k1 0) as [[n2 k2] decimals]. simpl in Hk2.
    destruct s4; [|discriminate].
    assert (Hb : b = false).
    { unfold finish_number in H. destruct (k2 =? 0); [discriminate|].
      destruct (scale _ _); [|discriminate]. now inversion H. }
    assert (Hn : finish_number neg n2 k2 (e1 - decimals) false <> None)
      by congruence.
    apply finish_number_digits in Hn. subst b. exists neg, ip, fp.
    split.
    { unfold literal_text. cbn [negb]. rewrite Ht, Hs1, Hs3.
      now rewrite append_empty. }
    split; [exact Hip|]. split; [exact Hfp|]. split; [|discriminate].
    destruct (Hk2 Hn) as [Hk|Hne].
    + destruct (Hk1 Hk) as [|Hne]; [congruence|].
      destruct ip; [congruence | discriminate].
    + destruct ip; [exact Hne | discriminate].
Qed.

Lemma floatify_literal (t : string) :
  floatify t <> None -> decimal_literal t.
Proof.
  destruct (floatify t) as [[v b]|] eqn:E; [|congruence]. intros _.
  destruct (floatify_parts t v b E) as (neg & ip & fp & H).
  now exists neg, (negb b), ip, fp.
Qed.

Lemma empty_not_literal : ~ decimal_literal "".
Proof.
  intros (neg & point & ip & fp & Ht & _ & _ & Hne & Hpt).
  unfold literal_text in Ht.
  destruct neg; [discriminate|]. destruct ip; [|discriminate].
  destruct point; [discriminate|]. apply Hne. now rewrite (Hpt eq_refl).
Qed.

(** What the parser's answer says about the object in the cell. *)
Lemma parsed_object (t : string) (y : pyobj) :
  match floatify t with
  | Some (v, maybe_int) =>
      y = PyFloat v \/ (maybe_int = true /\ y = PyInt (int_of_text t))
  | None => y = PyFloat NaN
  end ->
  ((exists v, y = PyFloat v) \/ (exists z, y = PyInt z))
  /\ (forall z, y = PyInt z ->
        exists neg ip,
          is_literal t neg false ip "" /\ z = signed neg (digits_val 0 ip))
  /\ (~ decimal_literal t -> y = PyFloat NaN)
  /\ (forall neg point ip fp,
        is_literal t neg point ip fp ->
        String.length ip + String.length fp <= 15 ->
        y = PyFloat (literal_float neg ip fp)
        \/ (point = false /\ y = PyInt (signed neg (digits_val 0 ip)))).
Proof.
  intros H. split; [|split; [|split]].
  - destruct (floatify t) as [[v b]|]; [|left; eauto].
    destruct H as [->|[_ ->]]; [left | right]; eauto.
  - intros z Hz. destruct (floatify t) as [[v b]|] eqn:E.
    + destruct H as [->|[-> Hy]]; [discriminate|].
      destruct (floatify_parts t v true E) as (neg & ip & fp & Hlit).
      cbn [negb] in Hlit. pose proof Hlit as (Ht & Hip & _ & _ & Hfp).
      rewrite (Hfp eq_refl) in *. exists neg, ip. split; [exact Hlit|].
      rewrite Hz in Hy. inversion Hy. subst t. now apply int_of_literal.
    + subst y. discriminate.
  - intros Hn. destruct (floatify t) as [[v b]|] eqn:E; [|exact H].
    exfalso. apply Hn, floatify_literal. congruence.
  - intros neg point ip fp Hlit Hlen.
    rewrite (floatify_short t neg point ip fp Hlit Hlen) in H.
    destruct H as [->|[Hb ->]]; [now left|]. right.
    destruct point; [discriminate|]. split; [reflexivity|].
    destruct Hlit as (-> & Hip & _ & _ & Hfp). rewrite (Hfp eq_refl).
    f_equal. now apply int_of_literal.
Qed.

(** The object that [clean_col] leaves in a cell: the float read from the
    stripped text, or the [int] it spells when the whole column is
    integral; NaN when the parser refuses the text. *)
Lemma clean_col_obj (c : column) (i : nat) (x : pyobj) :
  nth_error (col_objs c) i = Some x ->
  let t := strip_non_numeric (py_str x) in
  exists y,
    nth_error (col_objs (clean_col c)) i = Some y
    /\ match floatify t with
       | Some (v, maybe_int) =>
           y = PyFloat v \/ (maybe_int = true /\ y = PyInt (int_of_text t))
       | None => y = PyFloat NaN
       end.
Proof.
  intros Hx t. unfold clean_col, to_numeric, astype_str.
  set (es := map convert_elem _).
  assert (He : nth_error es i = Some (convert_elem (PyStr t))).
  { unfold es. rewrite !nth_error_map, Hx. reflexivity. }
  assert (Hfloat : nth_error (col_objs (FloatCol (map elem_float es))) i
                   = Some (PyFloat (parse_float t))).
  { cbn [col_objs]. now rewrite !nth_error_map, He. }
  assert (Hpf : match floatify t with
                | Some (v, maybe_int) =>
                    PyFloat (parse_float t) = PyFloat v
                    \/ (maybe_int = true
                        /\ PyFloat (parse_float t) = PyInt (int_of_text t))
                | None => PyFloat (parse_float t) = PyFloat NaN
                end).
  { unfold parse_float. cbn [convert_elem].
    destruct (floatify t) as [[v [|]]|]; cbn [elem_float]; auto. }
  destruct (all_ints es) as [zs|] eqn:Ea.
  - destruct (ints_fit zs).
    + destruct (all_ints_nth es zs i _ Ea He) as (v & z & Hc & Hz).
      exists (PyInt z). split.
      * cbn [col_objs]. now rewrite nth_error_map, Hz.
      * cbn [convert_elem] in Hc.
        destruct (floatify t) as [[v' [|]]|]; try discriminate.
        inversion Hc; subst. right. now split.
    + eexists. split; [exact Hfloat | exact Hpf].
  - eexists. split; [exact Hfloat | exact Hpf].
Qed.

Lemma cleaned_cell_obj (cols : list string) (f : frame) (col : string)
    (i : nat) (x : pyobj) :
  NoDup (labels f) -> NoDup cols -> In col cols ->
  cell f col i = Some x ->
  forall (st : store) (df : ref), deref st df = f ->
  let t := strip_non_numeric (py_str x) in
  exists st' y,
    clean_numeric_columns df cols st = (st', Ok (length st))
    /\ cell (deref st' (length st)) col i = Some y
    /\ match floatify t with
       | Some (v, maybe_int) =>
           y = PyFloat v \/ (maybe_int = true /\ y = PyInt (int_of_text t))
       | None => y = PyFloat NaN
       end.
Proof.
  intros Hf Hc Hin Hcell st df Hd t.
  pose proof (clean_numeric_columns_run cols df st) as Hrun.
  rewrite Hd in Hrun. rewrite (clean_frame_nodup cols f Hf Hc) in Hrun.
  destruct (clean_numeric_columns df cols st) as [st' o].
  destruct Hrun as (_ & _ & -> & Hd').
  unfold cell in Hcell.
  destruct (column_of f col) as [c|] eqn:Ecol; [|discriminate].
  destruct (clean_col_obj c i x Hcell) as (y & Hy & Hcase).
  exists st', y. split; [reflexivity|]. split; [|exact Hcase].
  rewrite Hd'. unfold cell.
  rewrite (column_of_mapped
             (fun l c => if mem l cols then clean_col c else c)).
  rewrite Ecol. simpl option_map.
  replace (mem col cols) with true by (symmetry; now apply mem_In).
  exact Hy.
Qed.

(** C3. On a frame without repeated labels and for a selection without
    repetition, [clean_numeric_columns] returns normally, and for a text
    cell of a designated column: the stripped text is made of the
    characters of the cell that are digits, ['.'] or ['-'], in their
    order; the cell of the returned frame holds a float or an [int], never
    a text; an [int] is the one that the stripped text spells, a literal
    without point; when the stripped text is no decimal literal the cell
    holds NaN, a missing value; and when it is a decimal literal of at
    most 15 digits the cell holds the binary64 quotient of the integer
    that its digits spell by the power of ten of its decimals, or, the
    literal having no point, that integer itself (when the whole column is
    integral).  So ["$ 12.50"] becomes 12.5, ["1,234"] becomes 1234,
    ["0.1"] the float nearest to one tenth, and ["N/A"], of which nothing
    is left, a missing value. *)
Theorem numeric_cleaning_of_a_cell (st : store) (df : ref)
    (col_names : list string) (col : string) (i : nat) (s : string) :
  let f := deref st df in
  NoDup (labels f) -> NoDup col_names -> In col col_names ->
  cell f col i = Some (PyStr s) ->
  let t := strip_non_numeric s in
  list_ascii_of_string t
  = filter (fun c => existsb (Ascii.eqb c)
                       (list_ascii_of_string "0123456789.-"))
      (list_ascii_of_string s)
  /\ (exists st' y,
        clean_numeric_columns df col_names st = (st', Ok (length st))
        /\ cell (deref st' (length st)) col i = Some y
        /\ ((exists v, y = PyFloat v) \/ (exists z, y = PyInt z))
        /\ (forall z, y = PyInt z ->
              exists neg ip,
                is_literal t neg false ip ""
                /\ z = signed neg (digits_val 0 ip))
        /\ (~ decimal_literal t -> y = PyFloat NaN)
        /\ (forall neg point ip fp,
              is_literal t neg point ip fp ->
              String.length ip + String.length fp <= 15 ->
              y = PyFloat (literal_float neg ip fp)
              \/ (point = false
                  /\ y = PyInt (signed neg (digits_val 0 ip)))))
  /\ col_values (clean_col (ObjCol [PyStr "$ 12.50"; PyStr "N/A";
                                    PyStr "1,234"; PyStr "0.1"]))
     = [Number (25 # 2); Null; Number 1234;
        Number (3602879701896397 # 36028797018963968)]
  /\ clean_col (ObjCol [PyStr "1,234"; PyStr "-7 kg"]) = IntCol [1234%Z; (-7)%Z]
  /\ strip_non_numeric "N/A" = ""
  /\ ~ decimal_literal "".
Proof.
  intros f Hf Hc Hin Hcell t.
  split; [exact (strip_keeps s)|]. split.
  - destruct (cleaned_cell_obj col_names f col i (PyStr s) Hf Hc Hin Hcell
                st df eq_refl) as (st' & y & Hrun & Hy & Hcase).
    exists st', y. split; [exact Hrun|]. split; [exact Hy|].
    exact (parsed_object _ y Hcase).
  - split; [vm_compute; reflexivity|]. split; [vm_compute; reflexivity|].
    split; [reflexivity | exact empty_not_literal].
Qed.

Lemma numeric_cleaning_of_a_cell_witness :
  let f := Frame 2 [("n", ObjCol [PyStr "$ 12.50"; PyStr "N/A"])] in
  (exists st' y,
     clean_numeric_columns 0 ["n"] [f] = (st', Ok 1)
     /\ cell (deref st' 1) "n" 0 = Some y
     /\ obj_value y = Number (25 # 2))
  /\ (exists st' y,
        clean_numeric_columns 0 ["n"] [f] = (st', Ok 1)
        /\ cell (deref st' 1) "n" 1 = Some y
        /\ obj_value y = Null).
Proof.
  intros f. split.
  - destruct (numeric_cleaning_of_a_cell [f] 0 ["n"] "n" 0 "$ 12.50")
      as (_ & (st' & y & Hrun & Hy & _ & _ & _ & Hv) & _).
    + simpl. repeat constructor; simpl; intuition discriminate.
    + repeat constructor; simpl; intuition discriminate.
    + now left.
    + reflexivity.
    + exists st', y. split; [exact Hrun|]. split; [exact Hy|].
      destruct (Hv false true "12" "50") as [->|[Hb _]].
      * repeat split; try reflexivity; discriminate.
      * simpl. lia.
      * vm_compute. reflexivity.
      * discriminate.
  - destruct (numeric_cleaning_of_a_cell [f] 0 ["n"] "n" 1 "N/A")
      as (_ & (st' & y & Hrun & Hy & _ & _ & Hv & _) & _ & _ & _ & Hno).
    + simpl. repeat constructor; simpl; intuition discriminate.
    + repeat constructor; simpl; intuition discriminate.
    + now left.
    + reflexivity.
    + exists st', y. split; [exact Hrun|]. split; [exact Hy|].
      rewrite (Hv Hno). reflexivity.
Defined.

(** ** Rounding and the magnitude guard on a cell *)












Lemma labels_cleaned_frame (cols : list string) (r_err : N) (t : Z) (f : frame) :
  labels (cleaned_frame cols r_err t f) = labels f.
Proof.
  unfold cleaned_frame.
  apply (labels_mapped
           (fun l c => finish_col r_err t (if mem l cols then clean_col c else c))).
Qed.

Lemma has_char_app (c : ascii) (s1 s2 : string) :
  has_char c (s1 ++ s2) = has_char c s1 || has_char c s2.
Proof.
  induction s1 as [|c1 s1 IH]; simpl; [reflexivity|].
  now rewrite IH, orb_assoc.
Qed.

(** ** Rounding without decimals *)

(** X10. With 0 decimals, the default of the widget, rounding a finite
    float (line 170) gives the float that holds the nearest integer, and
    of two integers that are as near the even one; the result has the sign
    of the float and the distance is at most one half, exactly. *)
Theorem rounding_to_integer (sx : bool) (m : positive) (e : Z) :
  (Zpos m < 2 ^ 53)%Z ->
  let x := S754_finite sx m e in
  exists k : Z,
    (round_float 0 x = S754_zero sx
     \/ exists m' e', round_float 0 x = S754_finite sx m' e')
    /\ (float_Q (round_float 0 x) == inject_Z k)%Q
    /\ (Qabs (inject_Z k - float_Q x) <= 1 # 2)%Q
    /\ ((Qabs (inject_Z k - float_Q x) == 1 # 2)%Q -> Z.even k = true).
Proof.
  intros Hm x. change (round_float 0 x) with (rint x).
  exact (rint_nearest sx m e Hm).
Qed.

Lemma rounding_to_integer_witness :
  exists k : Z,
    (float_Q (round_float 0 (S754_finite false 5 (-1))) == inject_Z k)%Q
    /\ (Qabs (inject_Z k - (5 # 2)) == 1 # 2)%Q
    /\ k = 2%Z.
Proof.
  destruct (rounding_to_integer false 5 (-1) eq_refl) as (k & _ & Hv & _ & _).
  exists k.
  assert (E : (float_Q (round_float 0 (S754_finite false 5 (-1))) == 2)%Q)
    by (vm_compute; reflexivity).
  assert (Hk : k = 2%Z).
  { rewrite E in Hv. unfold Qeq in Hv. simpl in Hv. lia. }
  subst k. split; [exact E|]. split; reflexivity.
Defined.

(** ** Cleaning twice *)




















(** ** A designated label that several columns have *)

Lemma length_filter_label (col : string) (cs : list (string * column)) :
  length (filter (fun lc => String.eqb (fst lc) col) cs)
  = count_occ string_dec (map fst cs) col.
Proof.
  induction cs as [|[l c] cs IH]; simpl; [reflexivity|].
  destruct (string_dec l col) as [->|Hne].
  - rewrite String.eqb_refl. simpl. now rewrite IH.
  - destruct (String.eqb_spec l col); [contradiction|exact IH].
Qed.

Lemma clean_frame_column_repeated (f : frame) (col : string) :
  2 <= count_occ string_dec (labels f) col ->
  clean_frame_column f col = Raise AttributeError.
Proof.
  unfold labels. rewrite <- length_filter_label. unfold clean_frame_column.
  destruct (filter (fun lc => String.eqb (fst lc) col) (columns f))
    as [|lc [|lc' cs]]; simpl; intros H; try lia. reflexivity.
Qed.

Lemma clean_frame_column_outcome (f : frame) (col : string) :
  (exists f', clean_frame_column f col = Ok f')
  \/ clean_frame_column f col = Raise AttributeError.
Proof.
  unfold clean_frame_column.
  destruct (filter (fun lc => String.eqb (fst lc) col) (columns f))
    as [|lc [|lc' cs]]; eauto.
Qed.

Lemma clean_frame_repeated (cols : list string) (f : frame) (col : string) :
  In col cols -> 2 <= count_occ string_dec (labels f) col ->
  clean_frame f cols = Raise AttributeError.
Proof.
  revert f. induction cols as [|c cols IH]; intros f Hin Hc; [contradiction|].
  simpl. destruct (clean_frame_column_outcome f c) as [[f1 E]|E]; rewrite E;
    [|reflexivity].
  simpl. destruct Hin as [->|Hin].
  - rewrite (clean_frame_column_repeated f col Hc) in E. discriminate.
  - apply IH; [exact Hin|].
    now rewrite (labels_clean_frame_column f f1 c E).
Qed.

(** X2. When a designated name is the label of two or more columns,
    [clean_numeric_columns] raises [AttributeError] (a DataFrame has no
    [.str]); no result is returned and the frames that were in the store
    before the call are as they were. *)
Theorem repeated_label_raises (st : store) (df : ref) (col_names : list string)
    (col : string) :
  In col col_names ->
  2 <= count_occ string_dec (labels (deref st df)) col ->
  exists st',
    clean_numeric_columns df col_names st = (st', Raise AttributeError)
    /\ forall r, r < length st -> deref st' r = deref st r.
Proof.
  intros Hin Hc.
  pose proof (clean_numeric_columns_run col_names df st) as Hrun.
  rewrite (clean_frame_repeated col_names _ col Hin Hc) in Hrun.
  destruct (clean_numeric_columns df col_names st) as [st' o].
  destruct Hrun as (_ & Hold & ->). now exists st'.
Qed.

Lemma repeated_label_raises_witness :
  let f := Frame 1 [("A_1", ObjCol [PyStr "1"]); ("A_1", ObjCol [PyStr "2"]);
                    ("A_2", ObjCol [PyStr "3"])] in
  exists st', clean_numeric_columns 0 ["A_2"; "A_1"] [f] = (st', Raise AttributeError).
Proof.
  intros f.
  destruct (repeated_label_raises [f] 0 ["A_2"; "A_1"] "A_1") as (st' & Hrun & _).
  - simpl. tauto.
  - simpl. lia.
  - now exists st'.
Defined.

(** ** What Step 3 leaves alone *)

Lemma writes_only_ret (A : Type) (r : ref) (a : A) : writes_only r (ret a).
Proof. intros st. simpl. auto. Qed.

Lemma writes_only_raise (A : Type) (r : ref) (e : exn) :
  writes_only r (@raise A e).
Proof. intros st. simpl. auto. Qed.

Lemma writes_only_lift (A : Type) (r : ref) (o : outcome A) :
  writes_only r (lift o).
Proof. intros st. simpl. auto. Qed.

Lemma writes_only_read (r r' : ref) : writes_only r (read r').
Proof. intros st. simpl. auto. Qed.

Lemma writes_only_write (r : ref) (f : frame) : writes_only r (write r f).
Proof.
  intros st. simpl. split; [apply length_update|].
  intros r0 Hne. apply deref_update_other. congruence.
Qed.

Lemma writes_only_bind (A B : Type) (r : ref) (m : M A) (k : A -> M B) :
  writes_only r m -> (forall a, writes_only r (k a)) ->
  writes_only r (mbind m k).
Proof.
  intros Hm Hk st. unfold mbind. specialize (Hm st).
  destruct (m st) as [st1 [a|w|e]]; simpl in *; try exact Hm.
  specialize (Hk a st1). destruct Hm as [Hl1 Hd1]. destruct Hk as [Hl2 Hd2].
  split; [congruence|]. intros r0 Hne. rewrite Hd2 by exact Hne. now apply Hd1.
Qed.

Lemma writes_only_for_each (A : Type) (r : ref) (l : list A) (body : A -> M unit) :
  (forall a, writes_only r (body a)) -> writes_only r (for_each l body).
Proof.
  intros Hb. induction l as [|a l IH]; simpl.
  - apply writes_only_ret.
  - apply writes_only_bind; [apply Hb | intros _; exact IH].
Qed.

Lemma writes_only_round (df2 : ref) (numeric_cols : list string) (r_err : N) :
  writes_only df2 (round_numeric df2 numeric_cols r_err).
Proof.
  unfold round_numeric. apply writes_only_bind; [apply writes_only_read|].
  intros f. destruct (nodupb numeric_cols);
    [apply writes_only_write | apply writes_only_raise].
Qed.

Lemma writes_only_guard (df2 : ref) (thresh_err : Z) (col : string) :
  writes_only df2 (guard_label df2 thresh_err col).
Proof.
  unfold guard_label. apply writes_only_bind; [apply writes_only_read|].
  intros f. apply writes_only_bind; [apply writes_only_lift|].
  intros [c|cs]; [apply writes_only_write | apply writes_only_ret].
Qed.

(** X3. Step 3 changes no frame that was in the store before it ran,
    whatever its outcome: with no selected column it returns the input
    frame itself and leaves the store as it is ([df2 = df]); with a
    selection, a returned frame is a new one (the copy made by
    [clean_numeric_columns]), and rounding and the guard write to that copy
    only. *)
Theorem step3_leaves_frames (st : store) (df : ref) (cols : list string)
    (r_err : N) (thresh_err : Z) :
  let (st', o) := clean_step df cols r_err thresh_err st in
  (forall r, r < length st -> deref st' r = deref st r)
  /\ (cols = [] -> st' = st /\ o = Ok df)
  /\ (cols <> [] -> forall out, o = Ok out -> out = length st).
Proof.
  unfold clean_step. destruct cols as [|c0 cols0] eqn:Ecols.
  - simpl. repeat split; congruence.
  - rewrite <- Ecols. assert (Hne : cols <> []) by (rewrite Ecols; discriminate).
    clear Ecols c0 cols0. unfold mbind at 1.
    pose proof (clean_numeric_columns_run cols df st) as Hrun.
    destruct (clean_numeric_columns df cols st) as [st1 o1].
    destruct Hrun as (Hlen & Hold & Hres).
    destruct o1 as [df2|w|e].
    + assert (Hdf2 : df2 = length st).
      { destruct (clean_frame (deref st df) cols); try discriminate.
        destruct Hres as [E _]. now inversion E. }
      subst df2. cbv beta iota.
      match goal with
      | |- (let (_, _) := ?m st1 in _) => set (rest := m)
      end.
      assert (Hw : writes_only (length st) rest).
      { unfold rest. apply writes_only_bind; [apply writes_only_read|].
        intros f. apply writes_only_bind; [apply writes_only_round|].
        intros _. apply writes_only_bind.
        - apply writes_only_for_each. intros col. apply writes_only_guard.
        - intros _. apply writes_only_ret. }
      assert (Hok : forall out, snd (rest st1) = Ok out -> out = length st).
      { intros out. unfold rest, mbind, read.
        destruct (round_numeric (length st) _ r_err st1) as [st2 [[]|w|e]];
          simpl; try discriminate.
        destruct (for_each _ (guard_label (length st) thresh_err) st2)
          as [st3 [[]|w|e]]; simpl; try discriminate.
        intros E. now inversion E. }
      specialize (Hw st1). destruct (rest st1) as [st' o]. simpl in *.
      destruct Hw as [_ Hd]. split; [|split].
      * intros r Hr. rewrite Hd by lia. now apply Hold.
      * intros E. contradiction.
      * intros _ out E. now apply Hok.
    + split; [exact Hold|]. split; [contradiction|]. intros _ out E. discriminate.
    + split; [exact Hold|]. split; [contradiction|]. intros _ out E. discriminate.
Qed.

(** ** From the resolved header to the frame *)

Lemma resolve_row_header_rect (R : list row) (h : Z) (hdr : list string)
    (body : list row) :
  resolve_row_header R h = Ok (hdr, body) ->
  Forall (fun r => length r = length hdr) body.
Proof.
  unfold resolve_row_header.
  destruct (Py.getitem R (h - 1)) as [headers| |]; simpl; try discriminate.
  destruct (forallb (fun row => length headers =? length row)
              (Py.slice_from R (h - 1 + 1))) eqn:E; [|discriminate].
  intros H. inversion H; subst. now apply forallb_length_eq in E.
Qed.

Lemma wf_rect_columns (rows : list row) (H : list string)
    (p : string * column -> bool) :
  wf_frame (Frame (length rows) (filter p (rect_columns rows H))).
Proof.
  unfold wf_frame. simpl. apply Forall_forall. intros [l c] Hin.
  apply filter_In in Hin. destruct Hin as [Hin _]. unfold rect_columns in Hin.
  apply in_map_iff in Hin. destruct Hin as ([j h] & E & _). inversion E; subst.
  unfold col_len. simpl. now rewrite length_map.
Qed.

Lemma text_rect_columns (rows : list row) (H : list string) (l : string)
    (c : column) :
  Forall (fun r => length r = length H) rows ->
  In (l, c) (rect_columns rows H) -> text_column c.
Proof.
  intros Hrect Hin. unfold rect_columns in Hin. apply in_map_iff in Hin.
  destruct Hin as ([j h] & E & Hjh). inversion E; subst. simpl.
  assert (Hj : j < length H).
  { apply in_combine_l in Hjh. apply in_seq in Hjh. exact (proj2 Hjh). }
  exists (map (fun r => nth j r EmptyString) rows). f_equal. rewrite map_map.
  apply map_ext_Forall. eapply Forall_impl; [|exact Hrect].
  intros r Hr. cbv beta in Hr. unfold cell_at.
  destruct (nth_error r j) as [s|] eqn:En.
  - now rewrite (nth_error_nth _ _ _ En).
  - apply nth_error_None in En. lia.
Qed.

(** X4. When the header row is accepted (whatever the index that chose
    it), the frame of lines 143-146 is always built: no exception, one row
    for each row after the header row, every column with one cell for each
    row, and text in every cell. *)
Theorem accepted_header_builds_frame (R : list row) (h : Z)
    (hdr : list string) (body : list row) (D : list string) :
  resolve_row_header R h = Ok (hdr, body) ->
  (forall d, In d D -> In d hdr) ->
  exists df,
    select_columns body hdr D = Ok df
    /\ index_len df = length body
    /\ wf_frame df
    /\ forall l c, In (l, c) (columns df) -> text_column c.
Proof.
  intros Hres HD. pose proof (resolve_row_header_rect R h hdr body Hres) as Hrect.
  eexists. split; [apply (select_columns_rect body hdr D Hrect HD)|].
  split; [reflexivity|]. split; [apply wf_rect_columns|].
  intros l c Hin. simpl in Hin. apply filter_In in Hin.
  exact (text_rect_columns body hdr l c Hrect (proj1 Hin)).
Qed.

Lemma accepted_header_builds_frame_witness :
  exists df,
    select_columns [["a"; "1"]; ["b"; "2"]] ["k"; "v"] ["k"] = Ok df
    /\ index_len df = 2.
Proof.
  destruct (accepted_header_builds_frame
              [["k"; "v"]; ["a"; "1"]; ["b"; "2"]] 1 ["k"; "v"]
              [["a"; "1"]; ["b"; "2"]] ["k"]) as (df & Hs & Hn & _).
  - reflexivity.
  - intros d [<-|[]]. simpl. tauto.
  - exists df. split; [exact Hs | exact Hn].
Defined.

Lemma getitem_slice_from (A : Type) (l : list A) (i : Z) (a : A) :
  Py.getitem l i = Ok a -> exists rest, Py.slice_from l i = a :: rest.
Proof.
  unfold Py.getitem, Py.slice_from, Py.clamp.
  set (n := Z.of_nat (length l)).
  destruct (Z.ltb_spec i 0) as [Hneg|Hpos].
  - destruct ((0 <=? i + n) && (i + n <? n))%Z eqn:E; [|discriminate].
    apply andb_true_iff in E. destruct E as [E1 E2].
    apply Z.leb_le in E1. apply Z.ltb_lt in E2.
    replace (Z.to_nat (Z.max (i + n) 0)) with (Z.to_nat (i + n)) by lia.
    destruct (nth_error l (Z.to_nat (i + n))) as [a'|] eqn:En; [|discriminate].
    intros H. inversion H; subst a'.
    apply nth_error_split in En. destruct En as (l1 & l2 & -> & Hl).
    exists l2. rewrite <- Hl. rewrite skipn_app, Nat.sub_diag, skipn_all. reflexivity.
  - destruct ((0 <=? i) && (i <? n))%Z eqn:E; [|discriminate].
    apply andb_true_iff in E. destruct E as [E1 E2].
    apply Z.leb_le in E1. apply Z.ltb_lt in E2.
    replace (Nat.min (Z.to_nat i) (length l)) with (Z.to_nat i) by (unfold n in *; lia).
    destruct (nth_error l (Z.to_nat i)) as [a'|] eqn:En; [|discriminate].
    intros H. inversion H; subst a'.
    apply nth_error_split in En. destruct En as (l1 & l2 & -> & Hl).
    exists l2. rewrite <- Hl. rewrite skipn_app, Nat.sub_diag, skipn_all. reflexivity.
Qed.

Lemma resolve_custom_header_first (R : list row) (f : Z) (L : string)
    (hdr : list string) (body : list row) :
  resolve_custom_header R f L = Ok (hdr, body) ->
  exists r rest, body = r :: rest /\ length r = length hdr.
Proof.
  unfold resolve_custom_header.
  destruct (Py.getitem R (f - 1)) as [first| |] eqn:Eg; simpl; try discriminate.
  destruct (Py.truthy L); [|discriminate].
  destruct (Nat.eqb_spec (length (map Py.strip (Py.split "," L))) (length first))
    as [E|E]; simpl; [|discriminate].
  intros H. inversion H; subst.
  destruct (getitem_slice_from _ R (f - 1) first Eg) as [rest Hr].
  exists first, rest. split; [exact Hr | now symmetry].
Qed.

Lemma max_width_le (n : nat) (rows : list row) :
  Forall (fun r => length r <= n) rows ->
  fold_right (fun r w => Nat.max (length r) w) 0 rows <= n.
Proof.
  induction rows as [|r rows IH]; simpl; intros H; [lia|].
  inversion H; subst. specialize (IH ltac:(assumption)). lia.
Qed.

Lemma max_width_ge (r : row) (rows : list row) :
  In r rows -> length r <= fold_right (fun r w => Nat.max (length r) w) 0 rows.
Proof.
  induction rows as [|r' rows IH]; simpl; intros H; [contradiction|].
  destruct H as [->|H]; [lia|]. specialize (IH H). lia.
Qed.

Lemma map_combine_seq_fst (A B : Type) (g : nat -> B) (l : list A) (k : nat) :
  map (fun jh : nat * A => g (fst jh)) (combine (seq k (length l)) l)
  = map g (seq k (length l)).
Proof.
  revert k. induction l as [|a l IH]; intros k; simpl; [reflexivity|].
  f_equal. apply IH.
Qed.

Lemma padded_row (r : row) (n : nat) :
  length r <= n ->
  map (fun j => Some (cell_at j r)) (seq 0 n)
  = map (fun s => Some (PyStr s)) r ++ repeat (Some PyNone) (n - length r).
Proof.
  intros Hle. replace n with (length r + (n - length r)) at 1 by lia.
  rewrite seq_app, map_app. f_equal.
  - clear. unfold cell_at.
    assert (H : forall pre, map (fun j => Some match nth_error (pre ++ r) j with
                                          | Some s => PyStr s
                                          | None => PyNone
                                          end) (seq (length pre) (length r))
                            = map (fun s => Some (PyStr s)) r).
    { induction r as [|s r IH]; intros pre; [reflexivity|]. simpl. f_equal.
      - rewrite nth_error_app2 by lia. now rewrite Nat.sub_diag.
      - specialize (IH (pre ++ [s])). rewrite length_app in IH. simpl in IH.
        rewrite Nat.add_1_r, <- app_assoc in IH. exact IH. }
    exact (H []).
  - assert (H : forall k a, length r <= a ->
                map (fun j => Some (cell_at j r)) (seq a k) = repeat (Some PyNone) k).
    { clear. induction k as [|k IH]; intros a Ha; [reflexivity|]. simpl. f_equal.
      - unfold cell_at. replace (nth_error r a) with (@None string);
          [reflexivity|]. symmetry. now apply nth_error_None.
      - apply IH. lia. }
    apply H. lia.
Qed.

Lemma frame_row_rect (rows : list row) (H : list string) (i : nat) (r : row) :
  nth_error rows i = Some r ->
  frame_row (Frame (length rows) (rect_columns rows H)) i
  = map (fun j => Some (cell_at j r)) (seq 0 (length H)).
Proof.
  intros Hi. unfold frame_row, rect_columns. simpl columns. rewrite map_map.
  cbn [snd col_objs].
  rewrite <- (map_combine_seq_fst string _ (fun j => Some (cell_at j r)) H 0).
  apply map_ext. intros [j h]. cbn [fst]. now rewrite nth_error_map, Hi.
Qed.

(** X5. With custom labels nothing checks the rows after the first one:
    when some row of the body has more cells than there are labels the
    construction of the frame raises [ValueError], and otherwise the frame
    is built with the labels, one row for each row of the body, and every
    row shorter than the labels filled up with [None]. *)
Theorem custom_header_ragged_rows (R : list row) (f : Z) (L : string)
    (hdr : list string) (body : list row) :
  resolve_custom_header R f L = Ok (hdr, body) ->
  (Exists (fun r => length hdr < length r) body ->
   DataFrame body hdr = Raise ValueError)
  /\ (Forall (fun r => length r <= length hdr) body ->
      exists df,
        DataFrame body hdr = Ok df
        /\ labels df = hdr
        /\ index_len df = length body
        /\ wf_frame df
        /\ forall i r, nth_error body i = Some r ->
             frame_row df i
             = map (fun s => Some (PyStr s)) r
               ++ repeat (Some PyNone) (length hdr - length r)).
Proof.
  intros Hres.
  destruct (resolve_custom_header_first R f L hdr body Hres)
    as (r0 & rest & -> & Hr0).
  split.
  - intros Hex. apply Exists_exists in Hex. destruct Hex as (r & Hin & Hlt).
    unfold DataFrame.
    pose proof (max_width_ge r (r0 :: rest) Hin) as Hge.
    destruct (Nat.eqb_spec
                (fold_right (fun r w => Nat.max (length r) w) 0 (r0 :: rest))
                (length hdr)) as [E|E]; [lia | reflexivity].
  - intros Hall.
    pose proof (max_width_le (length hdr) (r0 :: rest) Hall) as Hle.
    pose proof (max_width_ge r0 (r0 :: rest) (or_introl eq_refl)) as Hge.
    exists (Frame (length (r0 :: rest)) (rect_columns (r0 :: rest) hdr)).
    split.
    { unfold DataFrame.
      replace (fold_right (fun r w => Nat.max (length r) w) 0 (r0 :: rest)
               =? length hdr) with true; [reflexivity|].
      symmetry. apply Nat.eqb_eq. lia. }
    split; [apply labels_rect|]. split; [reflexivity|]. split.
    { rewrite <- (filter_true _ (fun _ => true) (rect_columns (r0 :: rest) hdr))
        by reflexivity.
      apply wf_rect_columns. }
    intros i r Hi. rewrite (frame_row_rect _ hdr i r Hi).
    apply padded_row. rewrite Forall_forall in Hall. apply Hall.
    eapply nth_error_In, Hi.
Qed.

Lemma custom_header_ragged_rows_witness :
  DataFrame [["x"; "1"]; ["y"; "2"; "3"]] ["name"; "n"] = Raise ValueError
  /\ exists df,
       DataFrame [["x"; "1"]; ["y"]] ["name"; "n"] = Ok df
       /\ frame_row df 1 = [Some (PyStr "y"); Some PyNone].
Proof.
  split.
  - refine (proj1 (custom_header_ragged_rows
                     [["x"; "1"]; ["y"; "2"; "3"]] 1 "name,n" _ _ eq_refl) _).
    apply Exists_cons_tl, Exists_cons_hd. simpl. lia.
  - destruct (proj2 (custom_header_ragged_rows
                       [["x"; "1"]; ["y"]] 1 "name,n" _ _ eq_refl))
      as (df & Hd & _ & _ & _ & Hrow).
    + repeat constructor.
    + exists df. split; [exact Hd|]. exact (Hrow 1 ["y"] eq_refl).
Defined.

(** ** The frame of Step 2 *)

Lemma col_slice_all (n : nat) (c : column) :
  col_len c = n -> col_slice 0 (Z.of_nat n) c = c.
Proof.
  intros Hc. unfold col_len in Hc.
  assert (H : forall (A : Type) (xs : list A),
            length xs = n -> Py.slice xs 0 (Z.of_nat n) = xs).
  { intros A xs Hx. rewrite slice_in_range by lia. simpl.
    rewrite Nat2Z.id, Nat.sub_0_r, <- Hx. apply firstn_all. }
  destruct c as [xs|xs|xs]; simpl in *; rewrite ?length_map in Hc;
    f_equal; now apply H.
Qed.

(** X6. The window the slider offers at first, [(1, len(df))], keeps the
    frame as it is. *)
Theorem full_window_keeps_frame (df : frame) :
  wf_frame df -> keep_rows df (1%Z, Z.of_nat (index_len df)) = df.
Proof.
  intros Hwf. unfold keep_rows, iloc. simpl fst. simpl snd.
  change (1 - 1)%Z with 0%Z. rewrite !clamp_in_range by lia.
  destruct df as [n cs]. simpl in *. rewrite Nat2Z.id. f_equal; [lia|].
  unfold wf_frame in Hwf. simpl in Hwf.
  induction cs as [|[l c] cs IH]; simpl; [reflexivity|].
  apply Forall_cons_iff in Hwf. destruct Hwf as [Hc Hcs]. simpl in Hc.
  now rewrite (col_slice_all n c Hc), (IH Hcs).
Qed.

Lemma full_window_keeps_frame_witness :
  let df := Frame 2 [("k", ObjCol [PyStr "a"; PyStr "b"]); ("n", IntCol [1%Z; 2%Z])] in
  keep_rows df (1%Z, 2%Z) = df.
Proof.
  intros df. apply (full_window_keeps_frame df). repeat constructor.
Defined.

Lemma DataFrame_ok (rows : list row) (H : list string) (df : frame) :
  DataFrame rows H = Ok df -> df = Frame (length rows) (rect_columns rows H).
Proof.
  unfold DataFrame. destruct rows as [|r rows].
  - intros E. inversion E. unfold rect_columns. simpl.
    now rewrite (map_combine_seq_snd _ _ (fun h => (h, ObjCol [])) H 0).
  - destruct (_ =? length H); intros E; inversion E. reflexivity.
Qed.

Lemma select_columns_ok (rows : list row) (H D : list string) (df : frame) :
  select_columns rows H D = Ok df ->
  df = Frame (length rows)
         (filter (fun lc => negb (mem (fst lc) D)) (rect_columns rows H)).
Proof.
  unfold select_columns. destruct D as [|d D].
  - intros E. apply DataFrame_ok in E. subst df.
    now rewrite filter_true by reflexivity.
  - destruct (DataFrame rows H) as [df0| |] eqn:E0; simpl; try discriminate.
    apply DataFrame_ok in E0. subst df0. unfold drop_columns.
    destruct (forallb _ (d :: D)); intros E; inversion E. reflexivity.
Qed.

Lemma duplicate_label_disambiguation_columns (df : frame) :
  map snd (columns (rename_duplicates df)) = map snd (columns df).
Proof.
  unfold rename_duplicates, set_labels. simpl. apply map_snd_combine.
  rewrite length_disambiguate. unfold labels. now rewrite !length_map.
Qed.

Lemma wf_rename_duplicates (df : frame) :
  wf_frame df -> wf_frame (rename_duplicates df).
Proof.
  unfold wf_frame. intros H.
  change (index_len (rename_duplicates df)) with (index_len df).
  apply (Forall_map snd (fun c => col_len c = index_len df)).
  rewrite duplicate_label_disambiguation_columns.
  now apply (Forall_map snd (fun c => col_len c = index_len df)).
Qed.

Lemma length_slice (A : Type) (l : list A) (a b : Z) :
  length (Py.slice l a b) = Py.clamp (length l) b - Py.clamp (length l) a.
Proof.
  unfold Py.slice. rewrite length_firstn, length_skipn.
  assert (Hb : Py.clamp (length l) b <= length l).
  { unfold Py.clamp. destruct (Z.ltb_spec b 0); lia. }
  lia.
Qed.

Lemma wf_iloc (df : frame) (a b : Z) : wf_frame df -> wf_frame (iloc df a b).
Proof.
  unfold wf_frame, iloc. simpl. intros H. rewrite Forall_map.
  eapply Forall_impl; [|exact H]. intros [l c] Hc. simpl in *.
  unfold col_len in *. rewrite col_objs_slice, length_slice. now rewrite Hc.
Qed.

Lemma labels_iloc (df : frame) (a b : Z) : labels (iloc df a b) = labels df.
Proof. unfold labels, iloc. simpl. now rewrite map_map. Qed.

(** The frame of lines 143-150. *)
Lemma step2_frame_shape (rows : list row) (H D : list string) (a b : Z) (df : frame) :
  build_frame rows H D (a, b) = Ok df ->
  wf_frame df
  /\ labels df = disambiguate (filter (fun l => negb (mem l D)) H)
  /\ index_len df = length (Py.slice rows (a - 1) b).
Proof.
  unfold build_frame.
  destruct (select_columns rows H D) as [df0| |] eqn:E; simpl; try discriminate.
  intros E1. inversion E1; subst df. clear E1.
  apply select_columns_ok in E.
  assert (Hwf0 : wf_frame df0) by (subst df0; apply wf_rect_columns).
  split; [|split].
  - unfold keep_rows. now apply wf_iloc, wf_rename_duplicates.
  - unfold keep_rows. rewrite labels_iloc, labels_rename_duplicates. f_equal.
    subst df0. unfold labels. simpl columns.
    rewrite (map_fst_filter _ _ (fun l => negb (mem l D))).
    change (map fst (rect_columns rows H))
      with (labels (Frame (length rows) (rect_columns rows H))).
    now rewrite labels_rect.
  - rewrite length_slice. subst df0. reflexivity.
Qed.

(** X7. Whenever lines 143-150 give a frame (for any rows, labels to drop
    and window), every column of it has one cell for each entry of its
    index, its labels are the renamed labels that were not dropped, and its
    number of rows is the length of the Python slice [a-1 : b] of the
    rows. *)
Theorem step2_frame (rows : list row) (H D : list string) (a b : Z) (df : frame) :
  build_frame rows H D (a, b) = Ok df ->
  wf_frame df
  /\ labels df = disambiguate (filter (fun l => negb (mem l D)) H)
  /\ index_len df = length (Py.slice rows (a - 1) b).
Proof. apply step2_frame_shape. Qed.

Lemma step2_frame_witness :
  exists df,
    build_frame [["a"; "1"]; ["b"; "2"]; ["c"; "3"]] ["k"; "k"] [] (2%Z, 3%Z) = Ok df
    /\ labels df = ["k_0"; "k_1"] /\ index_len df = 2.
Proof.
  eexists. split; [reflexivity|].
  destruct (step2_frame [["a"; "1"]; ["b"; "2"]; ["c"; "3"]] ["k"; "k"] []
              2%Z 3%Z _ eq_refl) as (_ & Hl & Hn).
  split; [exact Hl | exact Hn].
Defined.

(** ** The shape of the cleaned frame *)

Lemma length_all_ints (es : list (option (pyfloat * option Z))) (zs : list Z) :
  all_ints es = Some zs -> length zs = length es.
Proof.
  revert zs. induction es as [|e es IH]; intros zs H; simpl in H.
  - now inversion H.
  - destruct e as [[d [z|]]|]; try discriminate.
    destruct (all_ints es) as [zs'|]; [|discriminate].
    inversion H; subst. simpl. now rewrite (IH zs' eq_refl).
Qed.

Lemma col_len_clean_col (c : column) : col_len (clean_col c) = col_len c.
Proof.
  unfold clean_col, to_numeric, astype_str, col_len.
  set (es := map convert_elem _).
  assert (Hes : length es = length (col_objs c))
    by (unfold es; now rewrite !length_map).
  destruct (all_ints es) as [zs|] eqn:Ea.
  - apply length_all_ints in Ea.
    destruct (ints_fit zs); simpl; rewrite !length_map; congruence.
  - simpl. now rewrite !length_map.
Qed.

Lemma col_len_finish_col (r_err : N) (t : Z) (c : column) :
  col_len (finish_col r_err t c) = col_len c.
Proof.
  destruct (is_number c) eqn:Hn.
  - unfold col_len. rewrite (finish_objs_numeric r_err t c Hn).
    now rewrite length_map.
  - unfold finish_col. now rewrite Hn.
Qed.

Lemma wf_cleaned_frame (cols : list string) (r_err : N) (t : Z) (f : frame) :
  wf_frame f -> wf_frame (cleaned_frame cols r_err t f).
Proof.
  unfold wf_frame, cleaned_frame. simpl. intros H. rewrite Forall_map.
  eapply Forall_impl; [|exact H]. intros [l c] Hc. simpl in *.
  rewrite col_len_finish_col. destruct (mem l cols); [|exact Hc].
  now rewrite col_len_clean_col.
Qed.

(** The shape of the frame of Step 3. *)
Lemma step3_shape (st : store) (df : ref) (cols : list string)
    (r_err : N) (thresh_err : Z) :
  let f := deref st df in
  NoDup (labels f) -> NoDup cols -> wf_frame f ->
  exists st' out,
    clean_step df cols r_err thresh_err st = (st', Ok out)
    /\ labels (deref st' out) = labels f
    /\ index_len (deref st' out) = index_len f
    /\ wf_frame (deref st' out).
Proof.
  intros f Hf Hc Hwf. destruct cols as [|c0 cols0] eqn:Ecols.
  - exists st, df. simpl. auto.
  - rewrite <- Ecols in *.
    assert (Hne : cols <> []) by (rewrite Ecols; discriminate).
    destruct (clean_step_run st df cols r_err thresh_err Hf Hc Hne)
      as (st' & Hrun & Hd & _).
    exists st', (length st). split; [exact Hrun|]. rewrite Hd. fold f.
    split; [apply labels_cleaned_frame|]. split; [reflexivity|].
    now apply wf_cleaned_frame.
Qed.

(** X8. On a frame without repeated labels whose columns all have one cell
    for each entry of the index, Step 3 with a selection without repetition
    returns a frame with the same labels and the same index whose columns
    again have one cell for each entry: cleaning neither adds nor removes a
    row or a column. *)
Theorem step3_keeps_shape (st : store) (df : ref) (cols : list string)
    (r_err : N) (thresh_err : Z) :
  let f := deref st df in
  NoDup (labels f) -> NoDup cols -> wf_frame f ->
  exists st' out,
    clean_step df cols r_err thresh_err st = (st', Ok out)
    /\ labels (deref st' out) = labels f
    /\ index_len (deref st' out) = index_len f
    /\ wf_frame (deref st' out).
Proof. apply step3_shape. Qed.

Lemma step3_keeps_shape_witness :
  let f := Frame 2 [("k", ObjCol [PyStr "a"; PyStr "b"]);
                    ("n", ObjCol [PyStr "1"; PyStr "x"])] in
  exists st' out,
    clean_step 0 ["n"] 0%N 16%Z [f] = (st', Ok out)
    /\ labels (deref st' out) = ["k"; "n"]
    /\ index_len (deref st' out) = 2.
Proof.
  intros f.
  destruct (step3_keeps_shape [f] 0 ["n"] 0%N 16%Z)
    as (st' & out & Hrun & Hl & Hn & _).
  - simpl. repeat constructor; simpl; intuition discriminate.
  - repeat constructor; simpl; intuition discriminate.
  - repeat constructor.
  - exists st', out. split; [exact Hrun|]. split; [exact Hl | exact Hn].
Defined.

(** ** Labels after the renaming *)

Lemma digits_no_underscore (a d : string) :
  string_forall is_digit (a ++ String "_" d) = false.
Proof.
  rewrite string_forall_app. simpl. apply andb_false_r.
Qed.

Lemma append_underscore_inj (a b d1 d2 : string) :
  string_forall is_digit d1 = true -> string_forall is_digit d2 = true ->
  (a ++ String "_" d1 = b ++ String "_" d2)%string ->
  a = b /\ d1 = d2.
Proof.
  intros H1 H2. revert b. induction a as [|c a IH]; intros [|c' b] E; simpl in E.
  - inversion E. auto.
  - inversion E; subst. rewrite digits_no_underscore in H1. discriminate.
  - inversion E; subst. rewrite digits_no_underscore in H2. discriminate.
  - inversion E; subst. destruct (IH b ltac:(assumption)) as [-> ->]. auto.
Qed.

Lemma str_N_inj (n m : N) : str_N n = str_N m -> n = m.
Proof.
  intros E. rewrite <- (digits_val_str_N n), <- (digits_val_str_N m).
  now rewrite E.
Qed.

Lemma count_occ_two (H : list string) (i j : nat) (l : string) :
  nth_error H i = Some l -> nth_error H j = Some l -> i <> j ->
  2 <= count_occ string_dec H l.
Proof.
  revert i j. induction H as [|h H IH]; intros i j Hi Hj Hne.
  - destruct i; discriminate.
  - destruct i as [|i], j as [|j]; simpl in *; try congruence.
    + inversion Hi; subst h. destruct (string_dec l l); [|congruence].
      apply nth_error_In in Hj.
      apply (count_occ_In string_dec) in Hj. lia.
    + inversion Hj; subst h. destruct (string_dec l l); [|congruence].
      apply nth_error_In in Hi.
      apply (count_occ_In string_dec) in Hi. lia.
    + assert (Hij : i <> j) by congruence.
      specialize (IH i j Hi Hj Hij). destruct (string_dec h l); lia.
Qed.

Lemma nth_error_disambiguate (H : list string) (i : nat) (l : string) :
  nth_error H i = Some l ->
  nth_error (disambiguate H) i
  = Some (if 1 <? count_occ string_dec H l
          then (l ++ "_" ++ str_N (N.of_nat i))%string else l).
Proof.
  intros Hl. unfold disambiguate.
  rewrite nth_error_map, nth_error_enumerate_from, Hl. simpl.
  now rewrite count_count_occ.
Qed.

(** X9. When no label that occurs once is a name that the renaming makes
    (a repeated label, an underscore and the position of one of its
    columns), the labels after line 148 are distinct. *)
Theorem renamed_labels_distinct (H : list string) :
  (forall i j l l',
      nth_error H i = Some l -> nth_error H j = Some l' ->
      count_occ string_dec H l = 1 -> 1 < count_occ string_dec H l' ->
      l <> (l' ++ "_" ++ str_N (N.of_nat j))%string) ->
  NoDup (disambiguate H).
Proof.
  intros Hfree. apply NoDup_nth_error. intros i j Hi E.
  rewrite length_disambiguate in Hi.
  destruct (nth_error H i) as [l|] eqn:Hl;
    [|apply nth_error_None in Hl; lia].
  rewrite (nth_error_disambiguate H i l Hl) in E.
  destruct (nth_error H j) as [l'|] eqn:Hl'.
  2:{ assert (Hj : nth_error (disambiguate H) j = None).
      { apply nth_error_None. rewrite length_disambiguate.
        now apply nth_error_None. }
      rewrite Hj in E. discriminate. }
  rewrite (nth_error_disambiguate H j l' Hl') in E. inversion E as [E'].
  clear E.
  assert (Hc : 1 <= count_occ string_dec H l)
    by (apply (count_occ_In string_dec), nth_error_In with i; exact Hl).
  assert (Hc' : 1 <= count_occ string_dec H l')
    by (apply (count_occ_In string_dec), nth_error_In with j; exact Hl').
  destruct (Nat.ltb_spec 1 (count_occ string_dec H l)) as [Hd|Hu];
    destruct (Nat.ltb_spec 1 (count_occ string_dec H l')) as [Hd'|Hu'].
  - destruct (append_underscore_inj l l' (str_N (N.of_nat i)) (str_N (N.of_nat j)))
      as [_ Es]; try (apply str_N_spec); [exact E'|].
    apply str_N_inj in Es. lia.
  - exfalso. apply (Hfree j i l' l Hl' Hl); [lia | exact Hd | now symmetry].
  - exfalso. apply (Hfree i j l l' Hl Hl'); [lia | exact Hd' | exact E'].
  - subst l'. destruct (Nat.eq_dec i j) as [|Hne]; [assumption|].
    pose proof (count_occ_two H i j l Hl Hl' Hne). lia.
Qed.

Lemma renamed_labels_distinct_witness : NoDup (disambiguate ["A"; "B"; "A"]).
Proof.
  apply renamed_labels_distinct.
  intros i j l l' Hi Hj Hc Hc'.
  destruct i as [|[|[|i]]]; simpl in Hi; try (destruct i; discriminate);
    inversion Hi; subst l; simpl in Hc; try discriminate;
    destruct j as [|[|[|j]]]; simpl in Hj; try (destruct j; discriminate);
    inversion Hj; subst l'; simpl in Hc'; try lia; discriminate.
Defined.

(** ** The labels typed by the user *)

Lemma split_nonempty (sep : ascii) (s : string) : Py.split sep s <> [].
Proof.
  destruct s as [|c s]; simpl; [discriminate|].
  destruct (Ascii.eqb c sep); [discriminate|].
  destruct (Py.split sep s); discriminate.
Qed.

Lemma concat_cons (sep w : string) (ws : list string) :
  ws <> [] ->
  String.concat sep (w :: ws) = (w ++ sep ++ String.concat sep ws)%string.
Proof. destruct ws; [congruence | reflexivity]. Qed.

Lemma concat_split (sep : ascii) (s : string) :
  String.concat (String sep EmptyString) (Py.split sep s) = s.
Proof.
  induction s as [|c s IH]; [reflexivity|]. simpl Py.split.
  pose proof (split_nonempty sep s) as Hne.
  destruct (Ascii.eqb_spec c sep) as [->|Hc].
  - rewrite concat_cons by assumption. rewrite IH. reflexivity.
  - destruct (Py.split sep s) as [|w ws]; [congruence|].
    destruct ws as [|w' ws].
    + cbn [String.concat] in *. now rewrite IH.
    + rewrite concat_cons by discriminate.
      rewrite concat_cons in IH by discriminate.
      cbn [append]. f_equal. exact IH.
Qed.

Lemma length_split (sep : ascii) (s : string) :
  length (Py.split sep s) = S (count_char sep s).
Proof.
  unfold count_char. induction s as [|c s IH]; [reflexivity|].
  simpl Py.split. simpl list_ascii_of_string. simpl filter.
  rewrite (Ascii.eqb_sym sep c).
  pose proof (split_nonempty sep s) as Hne.
  destruct (Ascii.eqb c sep); simpl.
  - now rewrite IH.
  - destruct (Py.split sep s) as [|w ws]; [congruence|]. exact IH.
Qed.

Lemma split_no_sep (sep : ascii) (s : string) :
  Forall (fun w => has_char sep w = false) (Py.split sep s).
Proof.
  induction s as [|c s IH]; simpl.
  - repeat constructor.
  - destruct (Ascii.eqb c sep) eqn:E.
    + constructor; [reflexivity | exact IH].
    + destruct (Py.split sep s) as [|w ws]; [repeat constructor; simpl; now rewrite E|].
      inversion IH; subst. constructor; [|assumption]. simpl. now rewrite E.
Qed.

Lemma lstrip_parts (s : string) :
  exists a, s = (a ++ Py.lstrip s)%string /\ string_forall Py.isspace a = true.
Proof.
  induction s as [|c s IH]; simpl.
  - now exists EmptyString.
  - destruct (Py.isspace c) eqn:E.
    + destruct IH as (a & Ha & Hs). exists (String c a). simpl.
      now rewrite <- Ha, E, Hs.
    + now exists EmptyString.
Qed.

Lemma rstrip_cons (c : ascii) (s : string) :
  Py.rstrip (String c s)
  = match Py.rstrip s with
    | EmptyString => if Py.isspace c then EmptyString else String c EmptyString
    | t => String c t
    end.
Proof. reflexivity. Qed.

Lemma rstrip_parts (s : string) :
  exists b, s = (Py.rstrip s ++ b)%string /\ string_forall Py.isspace b = true.
Proof.
  induction s as [|c s IH].
  - now exists EmptyString.
  - destruct IH as (b & Hb & Hs). rewrite rstrip_cons.
    destruct (Py.rstrip s) as [|c' t] eqn:Er.
    + simpl in Hb. subst b. destruct (Py.isspace c) eqn:E.
      * exists (String c s). simpl. now rewrite E, Hs.
      * exists s. now split.
    + exists b. split; [|exact Hs]. simpl. now rewrite Hb at 1.
Qed.

Lemma rstrip_idem (s : string) : Py.rstrip (Py.rstrip s) = Py.rstrip s.
Proof.
  induction s as [|c s IH]; [reflexivity|]. rewrite rstrip_cons.
  destruct (Py.rstrip s) as [|c' t] eqn:Er.
  - destruct (Py.isspace c) eqn:E; [reflexivity|]. simpl. now rewrite E.
  - rewrite rstrip_cons, IH. reflexivity.
Qed.

Lemma lstrip_idem (s : string) : Py.lstrip (Py.lstrip s) = Py.lstrip s.
Proof.
  induction s as [|c s IH]; [reflexivity|]. simpl.
  destruct (Py.isspace c) eqn:E; [exact IH|]. simpl. now rewrite E.
Qed.

Lemma lstrip_rstrip (s : string) :
  Py.lstrip (Py.rstrip s) = Py.rstrip (Py.lstrip s).
Proof.
  induction s as [|c s IH]; [reflexivity|].
  cbn [Py.lstrip]. rewrite rstrip_cons.
  destruct (Py.isspace c) eqn:E.
  - rewrite <- IH. destruct (Py.rstrip s) as [|c' t]; [reflexivity|].
    simpl. now rewrite E.
  - rewrite rstrip_cons.
    destruct (Py.rstrip s) as [|c' t]; simpl; now rewrite E.
Qed.

Lemma strip_fixed (s : string) :
  Py.lstrip (Py.strip s) = Py.strip s /\ Py.rstrip (Py.strip s) = Py.strip s.
Proof.
  unfold Py.strip. split.
  - now rewrite lstrip_rstrip, lstrip_idem.
  - apply rstrip_idem.
Qed.

Lemma strip_parts (s : string) :
  exists a b, s = (a ++ Py.strip s ++ b)%string
              /\ string_forall Py.isspace a = true
              /\ string_forall Py.isspace b = true.
Proof.
  destruct (lstrip_parts s) as (a & Ha & Hsa).
  destruct (rstrip_parts (Py.lstrip s)) as (b & Hb & Hsb).
  exists a, b. unfold Py.strip. rewrite <- Hb. auto.
Qed.

(** Line 129 on any text. *)
Lemma custom_labels_text (L : string) :
  String.concat "," (Py.split "," L) = L
  /\ length (custom_labels L) = S (count_char "," L)
  /\ Forall2 (fun piece label =>
                exists a b, piece = (a ++ label ++ b)%string
                            /\ string_forall Py.isspace a = true
                            /\ string_forall Py.isspace b = true)
       (Py.split "," L) (custom_labels L)
  /\ Forall (fun label => has_char "," label = false
                          /\ Py.strip label = label)
       (custom_labels L).
Proof.
  split; [apply concat_split|]. unfold custom_labels.
  split; [rewrite length_map; apply length_split|]. split.
  - induction (Py.split "," L) as [|w ws IH]; simpl; constructor;
      [apply strip_parts | exact IH].
  - apply Forall_map. eapply Forall_impl; [|apply (split_no_sep "," L)].
    intros w Hw. cbv beta in Hw. split.
    + destruct (strip_parts w) as (a & b & Hab & _ & _).
      rewrite Hab, !has_char_app in Hw.
      apply orb_false_iff in Hw. destruct Hw as [_ Hw].
      apply orb_false_iff in Hw. tauto.
    + unfold Py.strip at 1. destruct (strip_fixed w) as [Hl Hr].
      now rewrite Hl, Hr.
Qed.

(** X11. When the typed labels are accepted (lines 120-137), the pieces of
    the text between its commas, joined by commas, are the text again; there
    is one label more than there are commas, and as many as the first data
    row has cells; every label is its piece without the white space at its
    two ends, so it has no comma and stripping it again changes nothing. *)
Theorem custom_labels_of_text (rows : list row) (n : Z) (L : string)
    (H : list string) (body : list row) :
  resolve_custom_header rows n L = Ok (H, body) ->
  String.concat "," (Py.split "," L) = L
  /\ length H = S (count_char "," L)
  /\ (exists first_row, Py.getitem rows (n - 1) = Ok first_row
                        /\ length first_row = length H)
  /\ Forall2 (fun piece label =>
                exists a b, piece = (a ++ label ++ b)%string
                            /\ string_forall Py.isspace a = true
                            /\ string_forall Py.isspace b = true)
       (Py.split "," L) H
  /\ Forall (fun label => has_char "," label = false
                          /\ Py.strip label = label) H.
Proof.
  unfold resolve_custom_header. intros Hres.
  destruct (Py.getitem rows (n - 1)) as [first_row| |] eqn:Hrow;
    try discriminate.
  cbn [bind] in Hres.
  destruct (Py.truthy L); [|discriminate].
  fold (custom_labels L) in Hres.
  destruct (length (custom_labels L) =? length first_row) eqn:Hlen;
    [|discriminate].
  cbn [negb] in Hres. injection Hres as <- _.
  apply Nat.eqb_eq in Hlen.
  destruct (custom_labels_text L) as (H1 & H2 & H3 & H4).
  repeat split; try assumption.
  exists first_row. split; [reflexivity | now symmetry].
Qed.

Lemma custom_labels_of_text_witness :
  let rows := [["x"; "y"]; ["1"; "2"]] in
  String.concat "," (Py.split "," " a , b") = " a , b"
  /\ length ["a"; "b"] = S (count_char "," " a , b")
  /\ (exists first_row, Py.getitem rows (2 - 1) = Ok first_row
                        /\ length first_row = length ["a"; "b"])
  /\ Forall2 (fun piece label =>
                exists a b, piece = (a ++ label ++ b)%string
                            /\ string_forall Py.isspace a = true
                            /\ string_forall Py.isspace b = true)
       (Py.split "," " a , b") ["a"; "b"]
  /\ Forall (fun label => has_char "," label = false
                          /\ Py.strip label = label) ["a"; "b"].
Proof.
  exact (custom_labels_of_text [["x"; "y"]; ["1"; "2"]] 2 " a , b"
           ["a"; "b"] [["1"; "2"]] eq_refl).
Defined.

(** ** The rows of the page *)

Lemma length_lstrip (s : string) :
  (String.length (Py.lstrip s) <= String.length s)%nat.
Proof.
  induction s as [|c s IH]; simpl; [lia|].
  destruct (Py.isspace c); simpl; lia.
Qed.

Lemma lstrip_fixed_head (c : ascii) (s : string) :
  Py.lstrip (String c s) = String c s -> Py.isspace c = false.
Proof.
  simpl. destruct (Py.isspace c); [|reflexivity]. intros H.
  pose proof (length_lstrip s) as Hl. rewrite H in Hl. simpl in Hl. lia.
Qed.

Lemma rstrip_app (p q : string) :
  Py.rstrip q <> EmptyString ->
  Py.rstrip (p ++ q) = (p ++ Py.rstrip q)%string.
Proof.
  intros Hq. induction p as [|c p IH]; [reflexivity|].
  cbn [append]. rewrite rstrip_cons, IH.
  destruct (p ++ Py.rstrip q)%string eqn:E; [|reflexivity].
  destruct p; simpl in E; congruence.
Qed.

Lemma trimmed_app (p q : string) :
  trimmed p -> trimmed q -> p <> EmptyString -> q <> EmptyString ->
  trimmed (p ++ q).
Proof.
  intros [Hpl _] [_ Hqr] Hp Hq. split.
  - destruct p as [|c p]; [congruence|].
    apply lstrip_fixed_head in Hpl. simpl. now rewrite Hpl.
  - rewrite rstrip_app; rewrite Hqr; [reflexivity | assumption].
Qed.

Lemma trimmed_strip (s : string) : trimmed (Py.strip s).
Proof. exact (strip_fixed s). Qed.

Lemma strip_trimmed (s : string) : trimmed s -> Py.strip s = s.
Proof. intros [Hl Hr]. unfold Py.strip. now rewrite Hl, Hr. Qed.

Lemma trimmed_concat (l : list string) :
  Forall (fun p => trimmed p /\ p <> EmptyString) l ->
  trimmed (String.concat "" l) /\ (l <> [] -> String.concat "" l <> EmptyString).
Proof.
  induction 1 as [|p l [Hp Hne] Hl IH].
  - split; [now split | congruence].
  - destruct l as [|p' l].
    + cbn [String.concat]. split; [exact Hp | intros _; exact Hne].
    + rewrite concat_cons by discriminate. cbn [append].
      destruct IH as [IH1 IH2]. split.
      * apply trimmed_app; auto. apply IH2. discriminate.
      * intros _ E. destruct p; [congruence | discriminate].
Qed.

Lemma get_text_strip_trimmed (n : node) : Py.strip (get_text_strip n) = get_text_strip n.
Proof.
  apply strip_trimmed. unfold get_text_strip. apply trimmed_concat.
  induction (text_strings (descendants n)) as [|s l IH]; simpl; [constructor|].
  destruct (Py.truthy (Py.strip s)) eqn:E; [|exact IH].
  constructor; [|exact IH]. split; [apply trimmed_strip|].
  intros E'. rewrite E' in E. discriminate.
Qed.

(** X12. Whatever the page (lines 80-105): when the chosen table gives
    rows, every cell of every row has no white space at its two ends, so the
    labels taken from a row and the texts handed to the cleaning are
    stripped already. *)
Theorem cells_are_stripped (soup : node) (number : Z) (rows : list row) :
  page_rows soup number = Chosen (Ok rows) ->
  Forall (Forall (fun cell => Py.strip cell = cell)) rows.
Proof.
  unfold page_rows. destruct (_ =? 0)%nat; [discriminate|].
  destruct (Py.getitem _ _) as [toi| |]; try discriminate.
  cbn [bind]. intros E. injection E as <-.
  unfold table_rows. apply Forall_map, Forall_forall. intros tr _.
  apply Forall_map, Forall_forall. intros c _.
  apply get_text_strip_trimmed.
Qed.

Lemma cells_are_stripped_witness :
  Forall (Forall (fun cell => Py.strip cell = cell)) [["a"; "bc"]].
Proof.
  exact (cells_are_stripped
           (Tag "[document]" []
              [Tag "table" ["wikitable"; "sortable"]
                 [Tag "tr" []
                    [Tag "th" [] [NavigableString " a "];
                     Tag "td" [] [NavigableString "b "; OtherString "x";
                        Tag "i" [] [NavigableString " c"]]]]])
           1 [["a"; "bc"]] eq_refl).
Defined.

(** ** A table without nesting *)

Lemma descendants_Tag (name : string) (cs : list string) (ch : list node) :
  descendants (Tag name cs ch) = flat_map (fun c => c :: descendants c) ch.
Proof.
  cbn [descendants]. induction ch as [|c ch IH]; [reflexivity|].
  cbn [flat_map app]. now rewrite IH.
Qed.

Lemma descendants_children (n : node) :
  descendants n = flat_map (fun c => c :: descendants c) (children n).
Proof. destruct n; [reflexivity | reflexivity | apply descendants_Tag]. Qed.

Lemma filter_flat_map {A B : Type} (f : B -> bool) (g : A -> list B)
    (l : list A) :
  filter f (flat_map g l) = flat_map (fun x => filter f (g x)) l.
Proof.
  induction l as [|x l IH]; [reflexivity|].
  cbn [flat_map]. now rewrite filter_app, IH.
Qed.

Lemma find_all_children (names : list string) (n : node) :
  find_all names n
  = flat_map (fun c => (if has_name names c then [c] else [])
                       ++ find_all names c) (children n).
Proof.
  unfold find_all. rewrite (descendants_children n), filter_flat_map.
  apply flat_map_ext. intros c. cbn [filter].
  destruct (has_name names c); reflexivity.
Qed.

Lemma row_in_grid (n : node) :
  has_name ["tr"] n = true -> has_name grid n = true.
Proof.
  destruct n as [| |name cs ch]; try discriminate.
  unfold has_name, grid, mem. cbn [existsb].
  destruct (String.eqb name "tr"); [reflexivity | discriminate].
Qed.

Lemma cell_in_grid (n : node) :
  has_name ["td"; "th"] n = true -> has_name grid n = true.
Proof.
  destruct n as [| |name cs ch]; try discriminate.
  unfold has_name, grid, mem. cbn [existsb].
  intros ->. apply orb_true_r.
Qed.

Lemma cell_not_row (n : node) :
  has_name ["td"; "th"] n = true -> has_name ["tr"] n = false.
Proof.
  destruct n as [| |name cs ch]; try discriminate.
  unfold has_name, mem. cbn [existsb].
  destruct (String.eqb_spec name "tr") as [->|]; [discriminate | reflexivity].
Qed.

Lemma off_grid (names : list string) (l : list node) :
  (forall d, has_name names d = true -> has_name grid d = true) ->
  forallb (fun d => negb (has_name grid d)) l = true ->
  filter (has_name names) l = [].
Proof.
  intros Hsub Hl. induction l as [|d l IH]; [reflexivity|].
  cbn [forallb] in Hl. apply andb_true_iff in Hl. destruct Hl as [Hd Hl].
  cbn [filter]. destruct (has_name names d) eqn:E; [|auto].
  apply Hsub in E. rewrite E in Hd. discriminate.
Qed.

Lemma gridless_off (names : list string) (n : node) :
  (forall d, has_name names d = true -> has_name grid d = true) ->
  gridless n = true ->
  has_name names n = false /\ find_all names n = [].
Proof.
  intros Hsub Hg. unfold gridless in Hg.
  pose proof (off_grid names _ Hsub Hg) as Hf. cbn [filter] in Hf.
  unfold find_all. destruct (has_name names n); [discriminate | auto].
Qed.

(** In a row without nesting, a child brings itself when it is a cell, and
    nothing else; it brings no row. *)
Lemma row_child (c : node) :
  plain_cell c || gridless c = true ->
  (if has_name ["td"; "th"] c then [c] else []) ++ find_all ["td"; "th"] c
  = (if has_name ["td"; "th"] c then [c] else [])
  /\ has_name ["tr"] c = false /\ find_all ["tr"] c = [].
Proof.
  intros H. apply orb_true_iff in H. destruct H as [H|H].
  - unfold plain_cell in H. apply andb_true_iff in H. destruct H as [Hc Hd].
    unfold find_all.
    rewrite (off_grid ["td"; "th"] _ cell_in_grid Hd).
    rewrite (off_grid ["tr"] _ row_in_grid Hd).
    rewrite app_nil_r. auto using cell_not_row.
  - destruct (gridless_off ["td"; "th"] c cell_in_grid H) as [-> ->].
    destruct (gridless_off ["tr"] c row_in_grid H) as [-> ->]. auto.
Qed.

Lemma plain_row_cells (r : node) :
  plain_row r = true ->
  find_all ["td"; "th"] r = direct_cells r /\ find_all ["tr"] r = [].
Proof.
  unfold plain_row, direct_cells. intros H.
  apply andb_true_iff in H. destruct H as [_ H].
  rewrite !find_all_children.
  induction (children r) as [|c ch IH]; [auto|].
  cbn [forallb] in H. apply andb_true_iff in H. destruct H as [Hc H].
  destruct (IH H) as [IH1 IH2].
  destruct (row_child c Hc) as (E1 & E2 & E3).
  cbn [flat_map filter]. rewrite E1, E2, E3, IH1, IH2.
  destruct (has_name ["td"; "th"] c); auto.
Qed.

Lemma plain_section_rows (s : node) :
  plain_section s = true ->
  has_name ["tr"] s = false
  /\ find_all ["tr"] s = filter (has_name ["tr"]) (children s)
  /\ Forall (fun r => plain_row r = true)
            (filter (has_name ["tr"]) (children s)).
Proof.
  unfold plain_section. intros H.
  apply andb_true_iff in H. destruct H as [Hs H]. split.
  - destruct (has_name ["tr"] s) eqn:E; [|reflexivity].
    apply row_in_grid in E. rewrite E in Hs. discriminate.
  - rewrite find_all_children.
    induction (children s) as [|r ch IH]; [auto|].
    cbn [forallb] in H. apply andb_true_iff in H. destruct H as [Hr H].
    destruct (IH H) as [IH1 IH2]. cbn [flat_map filter].
    apply orb_true_iff in Hr. destruct Hr as [Hr|Hr].
    + destruct (plain_row_cells r Hr) as [_ ->].
      assert (Hn : has_name ["tr"] r = true).
      { unfold plain_row in Hr. now apply andb_true_iff in Hr. }
      rewrite Hn, IH1. cbn [app]. auto.
    + destruct (gridless_off ["tr"] r row_in_grid Hr) as [-> ->].
      cbn [app]. auto.
Qed.

Lemma plain_table_rows_found (toi : node) :
  plain_table toi = true ->
  find_all ["tr"] toi = direct_rows toi
  /\ Forall (fun r => plain_row r = true) (direct_rows toi).
Proof.
  unfold plain_table, direct_rows. intros H. rewrite find_all_children.
  induction (children toi) as [|c ch IH]; [auto|].
  cbn [forallb] in H. apply andb_true_iff in H. destruct H as [Hc H].
  destruct (IH H) as [IH1 IH2]. cbn [flat_map].
  apply orb_true_iff in Hc. destruct Hc as [Hc|Hc].
  - destruct (plain_row_cells c Hc) as [_ ->].
    assert (Hn : has_name ["tr"] c = true).
    { unfold plain_row in Hc. now apply andb_true_iff in Hc. }
    rewrite Hn, IH1. cbn [app]. auto.
  - destruct (plain_section_rows c Hc) as (-> & -> & Hrows).
    rewrite IH1. cbn [app]. split; [reflexivity|].
    apply Forall_app. auto.
Qed.

(** X13. Lines 101-105 on a table without nesting (its rows are its own
    children or those of its sections, their cells are their own children,
    and no cell holds a row or a cell): there is one row for each tr, in
    document order, and in it one text for each td or th of that tr, in
    document order; what lies between the rows and between the cells
    (strings, captions, other tags) adds nothing. *)
Theorem plain_table_rows (toi : node) :
  plain_table toi = true ->
  table_rows toi
  = map (fun tr => map get_text_strip (direct_cells tr)) (direct_rows toi).
Proof.
  intros H. destruct (plain_table_rows_found toi H) as [E Hrows].
  unfold table_rows. rewrite E. apply map_ext_in. intros r Hr.
  rewrite Forall_forall in Hrows.
  destruct (plain_row_cells r (Hrows r Hr)) as [-> _]. reflexivity.
Qed.

Lemma plain_table_rows_witness :
  let toi :=
    Tag "table" ["wikitable"]
      [Tag "caption" [] [NavigableString "Cities"];
       NavigableString " ";
       Tag "tbody" []
         [Tag "tr" [] [Tag "th" [] [NavigableString "City "];
                       NavigableString " ";
                       Tag "th" [] [NavigableString "People"]];
          Tag "tr" [] [Tag "td" [] [Tag "a" [] [NavigableString "Oslo"]];
                       Tag "td" [] [NavigableString "709,037";
                                    Tag "sup" [] [NavigableString "[1]"]]]]] in
  table_rows toi
  = map (fun tr => map get_text_strip (direct_cells tr)) (direct_rows toi).
Proof.
  intros toi. exact (plain_table_rows toi eq_refl).
Defined.

(** ** Steps 2 and 3 together *)

(** X14. When Step 2 (lines 143-150) gives a frame whose labels are
    distinct, Step 3 (lines 158-177) on that frame with any selection
    without repetition, any number of decimals and any threshold raises
    nothing and stops nowhere: it returns a frame with the labels of Step 2
    and with one row for each row of the window, every column having one
    cell for each row. *)
Theorem step2_then_step3 (rows : list row) (H D : list string) (a b : Z)
    (st : store) (df : ref) (cols : list string) (r_err : N) (thresh_err : Z) :
  build_frame rows H D (a, b) = Ok (deref st df) ->
  NoDup (labels (deref st df)) -> NoDup cols ->
  exists st' out,
    clean_step df cols r_err thresh_err st = (st', Ok out)
    /\ labels (deref st' out)
       = disambiguate (filter (fun l => negb (mem l D)) H)
    /\ index_len (deref st' out) = length (Py.slice rows (a - 1) b)
    /\ wf_frame (deref st' out).
Proof.
  intros Hbuild Hlabels Hcols.
  destruct (step2_frame_shape rows H D a b _ Hbuild) as (Hwf & Hl & Hn).
  destruct (step3_shape st df cols r_err thresh_err Hlabels Hcols Hwf)
    as (st' & out & Hrun & Hl' & Hn' & Hwf').
  exists st', out. rewrite Hl', Hn'. auto.
Qed.

Lemma step2_then_step3_witness :
  exists f st' out,
    build_frame [["a"; "1.5"]; ["b"; "2,000"]] ["k"; "n"] [] (1%Z, 2%Z) = Ok f
    /\ clean_step 0 ["n"] 0%N 16%Z [f] = (st', Ok out)
    /\ labels (deref st' out) = ["k"; "n"]
    /\ index_len (deref st' out) = 2.
Proof.
  eexists.
  destruct (step2_then_step3 [["a"; "1.5"]; ["b"; "2,000"]] ["k"; "n"] []
              1%Z 2%Z [_] 0 ["n"] 0%N 16%Z eq_refl)
    as (st' & out & Hrun & Hl & Hn & _).
  - simpl. repeat constructor; simpl; intuition discriminate.
  - repeat constructor; simpl; intuition discriminate.
  - exists st', out. split; [reflexivity|]. split; [exact Hrun|].
    split; [exact Hl | exact Hn].
Defined.
